(** * The TOON codec of totoon.app: [jsonToToon] and [toonToJson]

    A shallow embedding of the encoder and the decoder of
    [src/app/app.ts] (methods [jsonToToon], [formatToonValue], [toonToJson],
    [parseToonArray], [parseToonObject], [parseToonValue]) together with
    the part of the JavaScript runtime they call: [String.prototype]
    methods, [Number(...)], [String(...)], [parseInt] and property
    assignment on ordinary objects.

    Conventions of the embedding.
    - A JavaScript string is a [string]; each [ascii] is one code unit in
      the range 0..255.
    - A JavaScript number is a binary64 value, a [spec_float] with
      precision 53 and maximal exponent 1024.
    - An object is the list of its own enumerable properties in the order
      in which [Object.keys] lists them.  Properties inherited from
      [Object.prototype] are not part of a [Value]: [key in item] and
      [item[key]] look at own properties only.
    - [throw new Error(msg)] is the [Err msg] result.

    The development also embeds the handlers and the computed signals of
    the component that call the codec ([onJsonChange], [onToonChange],
    [toonOutput], [hasError], [isOutputEmpty]), the selection of the
    model, the key of the cache of token counts and the word counts of
    the first version of the component.  There [JSON.stringify] is
    embedded on values and [JSON.parse] is a parameter. *)

From Stdlib Require Import Bool Arith ZArith NArith Lia List Sorted.
From Stdlib Require Import Ascii String.
From Stdlib Require Import DecimalString DecimalN.
From Stdlib Require Import Floats.SpecFloat.
Import ListNotations.

Local Open Scope string_scope.
Local Open Scope list_scope.

(* ================================================================== *)
(** ** JavaScript strings *)
(* ================================================================== *)

Module JsString.

(** WhiteSpace and LineTerminator code units below 256: TAB, LF, VT, FF,
    CR, SP and NBSP.  This is the set stripped by [trim] and matched by
    the regular expression class [\s]. *)
Definition is_ws (c : ascii) : bool :=
  let n := N_of_ascii c in
  ((n =? 9) || (n =? 10) || (n =? 11) || (n =? 12) || (n =? 13)
   || (n =? 32) || (n =? 160))%N.

(** LineTerminator code units below 256; the regular expression [.]
    matches every code unit but these. *)
Definition is_line_terminator (c : ascii) : bool :=
  let n := N_of_ascii c in ((n =? 10) || (n =? 13))%N.

(** The regular expression class [\d]. *)
Definition is_digit (c : ascii) : bool :=
  let n := N_of_ascii c in ((48 <=? n) && (n <=? 57))%N.

Fixpoint trimStart (s : string) : string :=
  match s with
  | EmptyString => EmptyString
  | String c s' => if is_ws c then trimStart s' else s
  end.

Fixpoint trimEnd (s : string) : string :=
  match s with
  | EmptyString => EmptyString
  | String c s' =>
      match trimEnd s' with
      | EmptyString => if is_ws c then EmptyString else String c EmptyString
      | r => String c r
      end
  end.

(** [s.trim()] *)
Definition trim (s : string) : string := trimEnd (trimStart s).

(** Truthiness of [line.trim()]: the trimmed line is not the empty string. *)
Definition nonblank (s : string) : bool :=
  match trim s with EmptyString => false | _ => true end.

(** [s.split(sep)] for a one-character separator; the result is never
    empty, [''.split(sep)] is [['']]. *)
Fixpoint split (sep : ascii) (s : string) : list string :=
  match s with
  | EmptyString => [EmptyString]
  | String c s' =>
      if Ascii.eqb c sep then EmptyString :: split sep s'
      else match split sep s' with
           | h :: t => String c h :: t
           | [] => [String c EmptyString]
           end
  end.

(** [parts.join(sep)] *)
Definition join (sep : string) (parts : list string) : string :=
  String.concat sep parts.

(** [s.includes(c)] for a one-character needle. *)
Fixpoint includes (c : ascii) (s : string) : bool :=
  match s with
  | EmptyString => false
  | String a s' => Ascii.eqb a c || includes c s'
  end.

(** [s.startsWith(p)] *)
Definition startsWith (p s : string) : bool := String.prefix p s.

(** [s.endsWith(c)] for a one-character suffix. *)
Fixpoint endsWith (c : ascii) (s : string) : bool :=
  match s with
  | EmptyString => false
  | String a EmptyString => Ascii.eqb a c
  | String _ s' => endsWith c s'
  end.

(** [s.slice(0, -1)]: all but the last code unit. *)
Fixpoint slice_0_m1 (s : string) : string :=
  match s with
  | EmptyString => EmptyString
  | String _ EmptyString => EmptyString
  | String a s' => String a (slice_0_m1 s')
  end.

(** [s.indexOf(c)] for a one-character needle; [-1] when absent. *)
Fixpoint indexOf (c : ascii) (s : string) : Z :=
  match s with
  | EmptyString => (-1)%Z
  | String a s' =>
      if Ascii.eqb a c then 0%Z
      else let i := indexOf c s' in
           if (i <? 0)%Z then (-1)%Z else (i + 1)%Z
  end.

(** [s.substring(0, n)] for [0 <= n]. *)
Definition substring_to (n : Z) (s : string) : string :=
  String.substring 0 (Z.to_nat n) s.

(** [s.substring(n)] for [0 <= n]. *)
Definition substring_from (n : Z) (s : string) : string :=
  String.substring (Z.to_nat n) (String.length s - Z.to_nat n) s.

(** Longest prefix of code units satisfying [p], and the rest. *)
Fixpoint span (p : ascii -> bool) (s : string) : string * string :=
  match s with
  | EmptyString => (EmptyString, EmptyString)
  | String c s' =>
      if p c then let '(a, b) := span p s' in (String c a, b)
      else (EmptyString, s)
  end.

Fixpoint forallb (p : ascii -> bool) (s : string) : bool :=
  match s with
  | EmptyString => true
  | String c s' => p c && forallb p s'
  end.

(** [String(n)] and template interpolation of a non-negative integer
    below 10^21 such as [array.length]: its decimal digits. *)
Definition of_N (n : N) : string := NilEmpty.string_of_uint (N.to_uint n).

(** [parseInt(s, 10)] on a string matched by [\d+], as the exact integer.
    The source compares it with [result.length] only, which stays below
    2^32, so the comparison is not affected by the rounding of integers
    above 2^53. *)
Definition parseInt (s : string) : N :=
  match NilEmpty.uint_of_string s with
  | Some d => N.of_uint d
  | None => 0%N
  end.

(** The line feed as a separator or a line of text. *)
Definition nl : string := String "010" EmptyString.

End JsString.

(* ================================================================== *)
(** ** JavaScript numbers *)
(* ================================================================== *)

Module JsNumber.
Import JsString.
Local Open Scope string_scope.

(** A Number is an IEEE 754 binary64 value. *)
Definition jsnum : Type := spec_float.

Definition prec : Z := 53.
Definition emax : Z := 1024.

Definition isNaN (x : jsnum) : bool :=
  match x with S754_nan => true | _ => false end.

Definition eqb (x y : jsnum) : bool :=
  match x, y with
  | S754_zero a, S754_zero b => Bool.eqb a b
  | S754_infinity a, S754_infinity b => Bool.eqb a b
  | S754_nan, S754_nan => true
  | S754_finite a m e, S754_finite b m' e' =>
      Bool.eqb a b && Pos.eqb m m' && Z.eqb e e'
  | _, _ => false
  end.

(** The binary64 value nearest to [num / den], ties to even, with sign
    [neg]: the quotient is computed with at least 56 significant bits and
    the position of the remainder is handed to the rounding of
    [SpecFloat]. *)
Definition round_ratio (neg : bool) (num den : positive) : jsnum :=
  let shift := Z.max 0 (Z.log2 (Zpos den) - Z.log2 (Zpos num) + 56) in
  let a := (Zpos num * 2 ^ shift)%Z in
  let q := (a / Zpos den)%Z in
  let r := (a mod Zpos den)%Z in
  let loc := if (r =? 0)%Z then loc_Exact
             else loc_Inexact (Z.compare (2 * r) (Zpos den)) in
  binary_round_aux prec emax neg q (- shift) loc.

(** The binary64 value nearest to [m * 10 ^ e]. *)
Definition round_decimal (neg : bool) (m : N) (e : Z) : jsnum :=
  match m with
  | N0 => S754_zero neg
  | Npos p =>
      if (0 <=? e)%Z then round_ratio neg (p * Z.to_pos (10 ^ e)) 1
      else round_ratio neg p (Z.to_pos (10 ^ (- e)))
  end.

(** *** [Number(s)]: StringToNumber *)

Definition hex_digit (c : ascii) : option N :=
  let n := N_of_ascii c in
  if ((48 <=? n) && (n <=? 57))%N then Some (n - 48)%N
  else if ((97 <=? n) && (n <=? 102))%N then Some (n - 87)%N
  else if ((65 <=? n) && (n <=? 70))%N then Some (n - 55)%N
  else None.

(** Value of a non-empty digit string in [radix], [None] when a code unit
    is not a digit of that radix. *)
Fixpoint radix_value (radix : N) (acc : N) (s : string) : option N :=
  match s with
  | EmptyString => Some acc
  | String c s' =>
      match hex_digit c with
      | Some d => if (d <? radix)%N then radix_value radix (acc * radix + d)%N s'
                  else None
      | None => None
      end
  end.

Definition radix_literal (radix : N) (digits : string) : jsnum :=
  match digits with
  | EmptyString => S754_nan
  | _ => match radix_value radix 0 digits with
         | Some v => round_decimal false v 0
         | None => S754_nan
         end
  end.

(** ExponentPart after the mantissa: empty, or [e]/[E], an optional sign
    and at least one digit, up to the end of the string. *)
Definition exponent_part (s : string) : option Z :=
  match s with
  | EmptyString => Some 0%Z
  | String c s' =>
      if Ascii.eqb c "e" || Ascii.eqb c "E" then
        let '(neg, ds) :=
          match s' with
          | String "-" r => (true, r)
          | String "+" r => (false, r)
          | _ => (false, s')
          end in
        match ds with
        | EmptyString => None
        | _ => if JsString.forallb is_digit ds
               then Some (if neg then - Z.of_N (parseInt ds) else Z.of_N (parseInt ds))%Z
               else None
        end
      else None
  end.

(** StrUnsignedDecimalLiteral: [Infinity], or digits with an optional
    fraction and exponent. *)
Definition unsigned_decimal (neg : bool) (s : string) : jsnum :=
  if String.eqb s "Infinity" then S754_infinity neg
  else
    let '(ip, r1) := span is_digit s in
    let '(fp, r2) :=
      match r1 with
      | String "." r => span is_digit r
      | _ => (EmptyString, r1)
      end in
    match (ip ++ fp)%string with
    | EmptyString => S754_nan
    | ds =>
        match exponent_part r2 with
        | Some e => round_decimal neg (parseInt ds) (e - Z.of_nat (String.length fp))
        | None => S754_nan
        end
    end.

(** [Number(s)] *)
Definition Number (s : string) : jsnum :=
  match trim s with
  | EmptyString => S754_zero false
  | String "0" (String "x" r) | String "0" (String "X" r) => radix_literal 16 r
  | String "0" (String "o" r) | String "0" (String "O" r) => radix_literal 8 r
  | String "0" (String "b" r) | String "0" (String "B" r) => radix_literal 2 r
  | String "-" r => unsigned_decimal true r
  | String "+" r => unsigned_decimal false r
  | t => unsigned_decimal false t
  end.

(** *** [String(x)]: Number::toString in radix 10 *)

(** [x >= 10 ^ n] for [x = num / den]. *)
Definition ge_pow10 (num den : positive) (n : Z) : bool :=
  if (0 <=? n)%Z then (Zpos den * 10 ^ n <=? Zpos num)%Z
  else (Zpos den <=? Zpos num * 10 ^ (- n))%Z.

Fixpoint lower_exp (fuel : nat) (num den : positive) (n : Z) : Z :=
  match fuel with
  | O => n
  | S f => if ge_pow10 num den (n - 1) then n else lower_exp f num den (n - 1)
  end.

Fixpoint raise_exp (fuel : nat) (num den : positive) (n : Z) : Z :=
  match fuel with
  | O => n
  | S f => if ge_pow10 num den n then raise_exp f num den (n + 1) else n
  end.

(** The integer [n] with [10 ^ (n - 1) <= num / den < 10 ^ n], found
    around the estimate given by the binary logarithms. *)
Definition decimal_exponent (num den : positive) : Z :=
  let est := ((Z.log2 (Zpos num) - Z.log2 (Zpos den)) * 30103 / 100000)%Z in
  raise_exp 4 num den (lower_exp 4 num den est).

Section Shortest.
Variables (m : positive) (e : Z).

Let num : positive := if (0 <=? e)%Z then (m * Z.to_pos (2 ^ e))%positive else m.
Let den : positive := if (0 <=? e)%Z then 1%positive else Z.to_pos (2 ^ (- e)).
Let n : Z := decimal_exponent num den.

Definition reads_back (s : N) (n' : Z) (k : Z) : bool :=
  eqb (round_decimal false s (n' - k)) (S754_finite false m e).

(** The [k]-digit candidates around [x]: [lo = floor (x * 10 ^ (k - n))]
    and [lo + 1]; the one that reads back as [x] and is nearest to it,
    the even one on a tie. *)
Definition candidate (k : Z) : option (N * Z) :=
  let p := (k - n)%Z in
  let a := if (0 <=? p)%Z then (Zpos num * 10 ^ p)%Z else Zpos num in
  let b := if (0 <=? p)%Z then Zpos den else (Zpos den * 10 ^ (- p))%Z in
  let lo := Z.to_N (a / b) in
  let r := (a mod b)%Z in
  let hi := (lo + 1)%N in
  let hi_n := if (Z.of_N hi =? 10 ^ k)%Z then (1%N, (n + 1)%Z, 1%Z) else (hi, n, k) in
  let ok_lo := reads_back lo n k in
  let ok_hi := let '(h, hn, hk) := hi_n in reads_back h hn hk in
  let pick_hi := let '(h, hn, _) := hi_n in Some (h, hn) in
  match ok_lo, ok_hi with
  | true, true =>
      match Z.compare (2 * r) b with
      | Lt => Some (lo, n)
      | Gt => pick_hi
      | Eq => if N.even lo then Some (lo, n) else pick_hi
      end
  | true, false => Some (lo, n)
  | false, true => pick_hi
  | false, false => None
  end.

Fixpoint search (fuel : nat) (k : Z) : N * Z :=
  match fuel with
  | O => (Z.to_N (Zpos num * 10 ^ (Z.max 0 (k - n)) / (Zpos den * 10 ^ (Z.max 0 (n - k)))), n)
  | S f => match candidate k with
           | Some r => r
           | None => search f (k + 1)
           end
  end.

(** The digits [s] and the exponent [n] of Number::toString: [s] has as
    few digits as possible among the decimals [s * 10 ^ (n - k)] that
    read back as [x].  Seventeen digits always suffice for a binary64
    value. *)
Definition shortest : N * Z := search 17 1.
End Shortest.

Definition zeros (n : Z) : string :=
  string_of_list_ascii (List.repeat "0"%char (Z.to_nat n)).

(** Layout of the digits [s] with decimal exponent [n]. *)
Definition layout (s : N) (n : Z) : string :=
  let digits := of_N s in
  let k := Z.of_nat (String.length digits) in
  if ((k <=? n) && (n <=? 21))%Z then
    digits ++ zeros (n - k)
  else if ((0 <? n) && (n <=? 21))%Z then
    substring_to n digits ++ "." ++ substring_from n digits
  else if ((-6 <? n) && (n <=? 0))%Z then
    "0." ++ zeros (- n) ++ digits
  else
    let ex := (n - 1)%Z in
    let sign := if (ex <? 0)%Z then "-" else "+" in
    let mant := if (k =? 1)%Z then digits
                else substring_to 1 digits ++ "." ++ substring_from 1 digits in
    mant ++ "e" ++ sign ++ of_N (Z.to_N (Z.abs ex)).

(** [String(x)] for a number [x]. *)
Definition toString (x : jsnum) : string :=
  match x with
  | S754_nan => "NaN"
  | S754_zero _ => "0"
  | S754_infinity false => "Infinity"
  | S754_infinity true => "-Infinity"
  | S754_finite neg m e =>
      let '(s, n) := shortest m e in
      ((if neg then "-" else EmptyString) ++ layout s n)%string
  end.

(** The number with the integer value [z], for literals in statements. *)
Definition of_Z (z : Z) : jsnum := binary_normalize prec emax z 0 false.

(** The code units [String(x)] is made of: digits, the marks of the
    decimal notation and the letters of [NaN] and [Infinity]. *)
Definition number_char (c : ascii) : bool :=
  is_digit c || includes c ".e+-NaInfity".

End JsNumber.

(* ================================================================== *)
(** ** Values and objects *)
(* ================================================================== *)

Import JsString.

#[local] Set Warnings "-register-all".

(** The JSON-like values the codec works on ([any] in the source). *)
Inductive Value : Type :=
| VNull
| VBool (b : bool)
| VNumber (n : JsNumber.jsnum)
| VString (s : string)
| VArray (items : list Value)
| VObject (props : list (string * Value)).

(** Outcome of a call that may [throw]; [OutOfFuel] is the outcome of a
    loop of the embedding stopped before its end, which [parseToonObject]
    never produces (lemma [object_loop_fuel]). *)
Inductive Result (A : Type) : Type :=
| Ok (a : A)
| Err (msg : string)
| OutOfFuel.
Arguments Ok {A} a.
Arguments Err {A} msg.
Arguments OutOfFuel {A}.

Definition bind {A B : Type} (r : Result A) (k : A -> Result B) : Result B :=
  match r with
  | Ok a => k a
  | Err msg => Err msg
  | OutOfFuel => OutOfFuel
  end.

Notation "'let*' x ':=' r 'in' k" := (bind r (fun x => k))
  (at level 10, x name, r at level 100, k at level 200).

Module JsObject.

(** A property name that is an array index: the canonical decimal form of
    an integer below 2^32 - 1.  [Object.keys] lists these first, in
    ascending order, before the other names in creation order. *)
Definition array_index (k : string) : option N :=
  match k with
  | EmptyString => None
  | String c r =>
      if JsString.forallb is_digit k
         && (negb (Ascii.eqb c "0") || String.eqb r EmptyString)
      then let n := parseInt k in
           if (n <? 4294967295)%N then Some n else None
      else None
  end.

Section Props.
Context {V : Type}.

(** [key in o] for own properties. *)
Fixpoint has_own (key : string) (props : list (string * V)) : bool :=
  match props with
  | [] => false
  | (k, _) :: r => String.eqb k key || has_own key r
  end.

(** [o[key]]; [None] is [undefined]. *)
Fixpoint get (key : string) (props : list (string * V)) : option V :=
  match props with
  | [] => None
  | (k, v) :: r => if String.eqb k key then Some v else get key r
  end.

Fixpoint update (key : string) (v : V) (props : list (string * V))
  : list (string * V) :=
  match props with
  | [] => []
  | (k, w) :: r =>
      if String.eqb k key then (k, v) :: r else (k, w) :: update key v r
  end.

(** Place of a new array-index property [n]: before the first property
    that is not an array index or is a greater one. *)
Fixpoint insert_index (n : N) (key : string) (v : V)
         (props : list (string * V)) : list (string * V) :=
  match props with
  | [] => [(key, v)]
  | (k, w) :: r =>
      match array_index k with
      | Some n' => if (n <? n')%N then (key, v) :: props
                   else (k, w) :: insert_index n key v r
      | None => (key, v) :: props
      end
  end.

(** Creating or overwriting the own data property [key]. *)
Definition define_own (key : string) (v : V) (props : list (string * V))
  : list (string * V) :=
  if has_own key props then update key v props
  else match array_index key with
       | Some n => insert_index n key v props
       | None => props ++ [(key, v)]
       end.
End Props.

(** An object under construction ([const result: any = {}]): its own
    properties, and whether it still inherits the [__proto__] accessor of
    [Object.prototype]. *)
Record jsobj : Type := mk_jsobj {
  own : list (string * Value);
  proto_accessor : bool
}.

(** [{}] *)
Definition empty : jsobj := mk_jsobj [] true.

(** [o[key] = v].  On an object that inherits the [__proto__] accessor
    the assignment to [__proto__] calls that setter and creates no own
    property: a primitive is ignored, an object becomes the prototype,
    and [null] removes the prototype and the accessor with it. *)
Definition assign (key : string) (v : Value) (o : jsobj) : jsobj :=
  if String.eqb key "__proto__" && proto_accessor o then
    mk_jsobj (own o) (match v with VNull => false | _ => true end)
  else mk_jsobj (define_own key v (own o)) (proto_accessor o).

End JsObject.
Import JsObject.

(* ================================================================== *)
(** ** The encoder: [jsonToToon] *)
(* ================================================================== *)

Local Open Scope string_scope.

(** [String(value)] *)
Fixpoint js_String (value : Value) : string :=
  match value with
  | VNull => "null"
  | VBool true => "true"
  | VBool false => "false"
  | VNumber n => JsNumber.toString n
  | VString s => s
  | VArray items =>
      join ","
        (List.map (fun x => match x with
                            | VNull => EmptyString
                            | _ => js_String x
                            end) items)
  | VObject _ => "[object Object]"
  end.

Definition formatToonValue (value : Value) : string :=
  match value with
  | VNull => "null"
  | VString s => s
  | VNumber _ | VBool _ => js_String value
  | _ => js_String value
  end.

(** [formatToonValue(item[key])], where a missing property reads as
    [undefined]. *)
Definition formatToonProperty (p : option Value) : string :=
  match p with
  | Some v => formatToonValue v
  | None => "undefined"
  end.

(** [typeof item === 'object' && item !== null && !Array.isArray(item)] *)
Definition is_plain_object (item : Value) : bool :=
  match item with VObject _ => true | _ => false end.

(** [Object.keys(item)] *)
Definition keys_of (item : Value) : list string :=
  match item with VObject props => List.map fst props | _ => [] end.

Definition key_in (key : string) (item : Value) : bool :=
  match item with VObject props => has_own key props | _ => false end.

Definition prop_of (key : string) (item : Value) : option Value :=
  match item with VObject props => get key props | _ => None end.

Definition allSameStructure (keys : list string) (items : list Value) : bool :=
  List.forallb
    (fun item =>
       is_plain_object item
       && (List.length (keys_of item) =? List.length keys)%nat
       && List.forallb (fun key => key_in key item) keys)
    items.

(** The column keys of a non-empty array that takes the tabular form:
    the keys of its first element. *)
Definition tabular_keys (items : list Value) : option (list string) :=
  match items with
  | [] => None
  | firstItem :: _ =>
      if is_plain_object firstItem then
        let keys := keys_of firstItem in
        if allSameStructure keys items && (0 <? List.length keys)%nat
        then Some keys else None
      else None
  end.

Definition tabular_header (items : list Value) (keys : list string) : string :=
  "[" ++ of_N (N.of_nat (List.length items)) ++ "]{" ++ join "," keys ++ "}:".

Definition tabular_rows (items : list Value) (keys : list string) : list string :=
  List.map
    (fun item =>
       join "," (List.map (fun key => formatToonProperty (prop_of key item)) keys))
    items.

(** The callback of [keys.forEach] in the object branch of
    [jsonToToon]: the lines pushed for the member [key] with the value
    [value = obj[key]]; [encode] is the recursive call [this.jsonToToon]. *)
Definition member_lines (encode : Value -> string) (key : string)
           (value : Value) : list string :=
  match (match value with
         | VArray items => tabular_keys items
         | _ => None
         end) with
  | Some arrayKeys =>
      match value with
      | VArray items =>
          (key ++ tabular_header items arrayKeys)
            :: tabular_rows items arrayKeys
      | _ => []
      end
  | None =>
      match value with
      | VObject _ =>
          let nested := encode value in
          if includes "010" nested || includes "[" nested
             || includes "{" nested
          then (key ++ ":")
                 :: List.map (fun line => "  " ++ line) (split "010" nested)
          else [key ++ ": " ++ nested]
      | _ => [key ++ ": " ++ formatToonValue value]
      end
  end.

Fixpoint jsonToToon (obj : Value) : string :=
  match obj with
  | VNull => "null"
  | VString s => s
  | VNumber _ | VBool _ => js_String obj
  | VArray items =>
      match items with
      | [] => "[]:"
      | _ =>
          match tabular_keys items with
          | Some keys =>
              tabular_header items keys ++ nl
              ++ join nl (tabular_rows items keys)
          | None =>
              join nl (List.map jsonToToon items)
          end
      end
  | VObject props =>
      match props with
      | [] => "{}:"
      | _ =>
          join nl
            (List.flat_map
               (fun kv => let '(key, value) := kv in
                          member_lines jsonToToon key value)
               props)
      end
  end.

(* ================================================================== *)
(** ** The decoder: [toonToJson] *)
(* ================================================================== *)

(** A string [mid ++ "}:"] gives [mid]. *)
Fixpoint strip_brace_colon (s : string) : option string :=
  match s with
  | EmptyString => None
  | String "}" (String ":" EmptyString) => Some EmptyString
  | String c r => option_map (String c) (strip_brace_colon r)
  end.

(** The digits and the text between the braces of a string of the form
    [[digits]{text}:], where the digits are one or more and the text
    holds no line terminator (the regular expression [.] matches none). *)
Definition header_parts (s : string) : option (string * string) :=
  match s with
  | String "[" r =>
      let '(digits, r1) := span is_digit r in
      match digits, r1 with
      | String _ _, String "]" (String "{" body) =>
          match strip_brace_colon body with
          | Some mid =>
              if JsString.forallb (fun c => negb (is_line_terminator c)) mid
              then Some (digits, mid) else None
          | None => None
          end
      | _, _ => None
      end
  | _ => None
  end.

(** [s.match(/^\[\d+\]\{.*\}:$/)] as a truth value. *)
Definition header_shape (s : string) : bool :=
  match header_parts s with Some _ => true | None => false end.

(** [s.match(/^\[(\d+)\]\{(.+)\}:$/)]: the two groups. *)
Definition header_match (s : string) : option (string * string) :=
  match header_parts s with
  | Some (digits, String c mid) => Some (digits, String c mid)
  | _ => None
  end.

(** [s.match(/^[^:]+:\s/)] as a truth value. *)
Definition key_line_shape (s : string) : bool :=
  let i := indexOf ":" s in
  (0 <? i)%Z
  && match String.get (Z.to_nat i + 1) s with
     | Some c => is_ws c
     | None => false
     end.

Definition parseToonValue (value : string) : Value :=
  if String.eqb value "null" then VNull
  else if String.eqb value "true" then VBool true
  else if String.eqb value "false" then VBool false
  else if String.eqb value EmptyString then VString EmptyString
  else
    let numValue := JsNumber.Number value in
    if negb (JsNumber.isNaN numValue) && negb (String.eqb (trim value) EmptyString)
    then VNumber numValue
    else VString value.

(** [keys.forEach((key, index) => item[key] = parseToonValue(values[index] || ''))] *)
Fixpoint fill_item (keys : list string) (index : nat) (values : list string)
         (item : jsobj) : jsobj :=
  match keys with
  | [] => item
  | key :: keys' =>
      fill_item keys' (S index) values
        (assign key (parseToonValue (List.nth index values EmptyString)) item)
  end.

(** One pass of the body of the row loop of [parseToonArray]. *)
Definition row_item (keys : list string) (line : string) : Value :=
  let values := List.map trim (split "," line) in
  VObject (own (fill_item keys 0 values JsObject.empty)).

(** [for (let i = 1; i < lines.length && result.length < count; i++)],
    on the lines from index [i] on. *)
Fixpoint rows_loop (count : N) (keys : list string) (lines : list string)
         (result : list Value) : list Value :=
  match lines with
  | [] => result
  | line :: lines' =>
      if (N.of_nat (List.length result) <? count)%N
      then rows_loop count keys lines' (result ++ [row_item keys line])%list
      else result
  end.

Definition parseToonArray (lines : list string) : Result Value :=
  match lines with
  | [] => Ok (VArray [])
  | line0 :: rest =>
      let header := trim line0 in
      match header_match header with
      | None => Err "Invalid array header format"
      | Some (digits, cols) =>
          let count := parseInt digits in
          let keys := List.map trim (split "," cols) in
          Ok (VArray (rows_loop count keys rest []))
      end
  end.

(** Longest prefix of lines satisfying [p], and the rest: the inner
    [while (j < lines.length && p(lines[j])) j++] loops. *)
Fixpoint span_lines (p : string -> bool) (lines : list string)
  : list string * list string :=
  match lines with
  | [] => ([], [])
  | l :: r => if p l then let '(a, b) := span_lines p r in (l :: a, b)
              else ([], lines)
  end.

(** One turn of the [while (i < lines.length)] loop of [parseToonObject]
    at the line [l = lines[i]], with [rest] the lines after it: the
    updated [result] and the lines from the new index [i] on.  [nested]
    is the recursive call [this.parseToonObject(nestedLines)]. *)
Definition loop_body (nested : list string -> Result jsobj)
           (result : jsobj) (l : string) (rest : list string)
  : Result (jsobj * list string) :=
  let line := trim l in
  if String.eqb line EmptyString then Ok (result, rest)
  else if endsWith ":" line then
    let key := trim (slice_0_m1 line) in
    match rest with
    | next :: rest' =>
        let nextLine := trim next in
        if header_shape nextLine then
          let '(rows, after) :=
            span_lines
              (fun lj => negb (endsWith ":" (trim lj))
                         && negb (key_line_shape (trim lj)))
              rest' in
          let* arr := parseToonArray (nextLine :: rows) in
          Ok (assign key arr result, after)
        else if startsWith "  " nextLine then
          let '(nestedLines, after) := span_lines (startsWith "  ") rest in
          let* o := nested (List.map (substring_from 2) nestedLines) in
          Ok (assign key (VObject (own o)) result, after)
        else
          Ok (assign key (parseToonValue nextLine) result, rest')
    | [] =>
        Ok (assign key VNull result, rest)
    end
  else
    let colonIndex := indexOf ":" line in
    if (0 <? colonIndex)%Z then
      let key := trim (substring_to colonIndex line) in
      let value := trim (substring_from (colonIndex + 1) line) in
      Ok (assign key (parseToonValue value) result, rest)
    else Ok (result, rest).

(** The loop itself, on the lines from index [i] on.  Every turn uses
    one unit of [fuel] and consumes at least one line. *)
Fixpoint object_loop (fuel : nat) (result : jsobj) (lines : list string)
  : Result jsobj :=
  match lines with
  | [] => Ok result
  | l :: rest =>
      match fuel with
      | O => OutOfFuel
      | S fuel' =>
          let* st := loop_body (object_loop fuel' JsObject.empty) result l rest in
          object_loop fuel' (fst st) (snd st)
      end
  end.

Definition parseToonObject (lines : list string) : Result Value :=
  let* result := object_loop (List.length lines) JsObject.empty lines in
  Ok (VObject (own result)).

(** The loop of [parseToonObject] from a given state, with a unit of
    fuel for every line. *)
Definition run (result : jsobj) (lines : list string) : Result jsobj :=
  object_loop (List.length lines) result lines.

(** [toonString.trim().split('\n').filter(line => line.trim())] *)
Definition toon_lines (toonString : string) : list string :=
  List.filter nonblank (split "010" (trim toonString)).

Definition toonToJson (toonString : string) : Result Value :=
  let lines := toon_lines toonString in
  match lines with
  | [] => Ok (VObject [])
  | line0 :: _ =>
      let firstLine := trim line0 in
      if String.eqb firstLine "[]:" then Ok (VArray [])
      else if String.eqb firstLine "{}:" then Ok (VObject [])
      else if header_shape firstLine then parseToonArray lines
      else parseToonObject lines
  end.

(* ================================================================== *)
(** ** Vocabulary of the statements *)
(* ================================================================== *)

(** The scalar values of the round-trip property: [null], a boolean, a
    number, or a string without comma, colon and line feed. *)
Definition plain_scalar (v : Value) : Prop :=
  match v with
  | VNull | VBool _ | VNumber _ => True
  | VString s =>
      includes "," s = false /\ includes ":" s = false
      /\ includes "010" s = false
  | VArray _ | VObject _ => False
  end.

(** The states of the loop of [parseToonObject(lines0)]: the object
    built so far and the lines from the current index on, before each
    turn and at the end. *)
Inductive reaches (lines0 : list string) : jsobj -> list string -> Prop :=
| reaches_start : reaches lines0 JsObject.empty lines0
| reaches_turn result l rest result' lines' :
    reaches lines0 result (l :: rest) ->
    loop_body (run JsObject.empty) result l rest = Ok (result', lines') ->
    reaches lines0 result' lines'.

(** While decoding [toonString], [parseToonArray] is called with the
    header line [header]: by [toonToJson], when the first line has the
    header shape, or by a turn of the loop of [parseToonObject] at a bare
    key line that is followed by a line of the header shape. *)
Definition enters_array (toonString header : string) : Prop :=
  match toon_lines toonString with
  | [] => False
  | line0 :: _ =>
      let firstLine := trim line0 in
      firstLine <> "[]:" /\ firstLine <> "{}:"
      /\ ((header_shape firstLine = true /\ header = firstLine)
          \/ (header_shape firstLine = false
              /\ exists result l next rest,
                  reaches (toon_lines toonString) result (l :: next :: rest)
                  /\ trim l <> EmptyString
                  /\ endsWith ":" (trim l) = true
                  /\ header_shape (trim next) = true
                  /\ header = trim next))
  end.

(** A line that, trimmed, does not end with a colon and whose first
    colon is absent or at position 0. *)
Definition skipped_shape (l : string) : bool :=
  negb (endsWith ":" (trim l)) && (indexOf ":" (trim l) <=? 0)%Z.

(** The message of the only [throw] of the decoder. *)
Definition invalid_header : string := "Invalid array header format".

(** The lines with the white space at the end of the last one removed:
    what trimming a whole text does to its lines. *)
Fixpoint trim_last (lines : list string) : list string :=
  match lines with
  | [] => []
  | [l] => [trimEnd l]
  | l :: r => l :: trim_last r
  end.

(** [a] is listed before [b] by [Object.keys] whenever both are own
    properties of an object and [a] was created first: array indices
    come first, in ascending order, then the other names in the order of
    their creation. *)
Definition key_before (a b : string) : Prop :=
  match array_index a, array_index b with
  | Some n, Some n' => (n < n')%N
  | Some _, None => True
  | None, Some _ => False
  | None, None => True
  end.

(** The keys of an object as [Object.keys] lists them: distinct, array
    indices first and ascending. *)
Definition keys_in_order (keys : list string) : Prop :=
  List.NoDup keys /\ Sorted.StronglySorted key_before keys.

(** The assignments [o[key] = v] for the pairs of a list, in order. *)
Definition assign_all (pairs : list (string * Value)) (o : jsobj) : jsobj :=
  List.fold_left (fun acc kv => assign (fst kv) (snd kv) acc) pairs o.

(** A leaf of a tabular array that comes back from its cell: its text
    holds no comma and no line feed, and the scalar parse of the trimmed
    text is the leaf itself. *)
Definition cell_value (v : Value) : Prop :=
  includes "," (formatToonValue v) = false
  /\ includes "010" (formatToonValue v) = false
  /\ parseToonValue (trim (formatToonValue v)) = v.

(** A column key that comes back from the header: it has no white space
    around it, no comma and no line terminator, and it is not
    [__proto__]. *)
Definition column_key (key : string) : Prop :=
  trim key = key
  /\ includes "," key = false
  /\ JsString.forallb (fun c => negb (is_line_terminator c)) key = true
  /\ key <> "__proto__".

(** The text of the row of an item. *)
Definition row_text (props : list (string * Value)) : string :=
  join "," (List.map (fun kv => formatToonValue (snd kv)) props).

(** An object with the keys [keys], in that order, whose members are
    leaves that come back from their cells and whose row is not blank. *)
Definition uniform_item (keys : list string) (item : Value) : Prop :=
  match item with
  | VObject props =>
      List.map fst props = keys
      /\ List.Forall (fun kv => cell_value (snd kv)) props
      /\ nonblank (row_text props) = true
  | _ => False
  end.

(** A member that is written and read back as a line [key: text]: a
    scalar whose text has no line feed, is not blank and, without the
    white space at its end, does not end with a colon. *)
Definition scalar_member (v : Value) : Prop :=
  match v with VArray _ | VObject _ => False | _ => True end
  /\ includes "010" (formatToonValue v) = false
  /\ nonblank (formatToonValue v) = true
  /\ endsWith ":" (trimEnd (formatToonValue v)) = false.

(** A key that is read back from its line: not empty, without white
    space around it, without colon and line feed, and not [__proto__]. *)
Definition member_key (key : string) : Prop :=
  key <> EmptyString
  /\ trim key = key
  /\ includes ":" key = false
  /\ includes "010" key = false
  /\ key <> "__proto__".

(** The line of a scalar member. *)
Definition member_line (kv : string * Value) : string :=
  fst kv ++ ": " ++ formatToonValue (snd kv).

(** What the decoder reads from the line of a scalar member. *)
Definition member_read (kv : string * Value) : string * Value :=
  (fst kv, parseToonValue (trim (formatToonValue (snd kv)))).

(* ================================================================== *)
(** ** Vocabulary of the further properties *)
(* ================================================================== *)

(** The dispatch of [toonToJson] on the lines it works on. *)
Definition decode_lines (lines : list string) : Result Value :=
  match lines with
  | [] => Ok (VObject [])
  | line0 :: _ =>
      let firstLine := trim line0 in
      if String.eqb firstLine "[]:" then Ok (VArray [])
      else if String.eqb firstLine "{}:" then Ok (VObject [])
      else if header_shape firstLine then parseToonArray lines
      else parseToonObject lines
  end.

(** The trimmed lines of a text that are not blank. *)
Definition trimmed_lines (t : string) : list string :=
  List.map trim (List.filter nonblank (split "010" t)).

(** The lines of a text after the white space at its end is removed: the
    blank lines at the end are dropped and the last line left loses the
    white space at its end. *)
Fixpoint strip_tail (lines : list string) : list string :=
  match lines with
  | [] => []
  | l :: r =>
      match strip_tail r with
      | [] => if nonblank l then [trimEnd l] else []
      | r' => l :: r'
      end
  end.

(** A value that is not an array and not an object. *)
Definition scalar_value (v : Value) : Prop :=
  match v with VArray _ | VObject _ => False | _ => True end.

(** An object all of whose members are scalars. *)
Definition flat_object (v : Value) : Prop :=
  match v with
  | VObject props => List.Forall (fun kv => scalar_value (snd kv)) props
  | _ => False
  end.

(** An array of flat objects. *)
Definition table (v : Value) : Prop :=
  match v with
  | VArray items => List.Forall flat_object items
  | _ => False
  end.

(** The values the decoder returns: a table, or an object whose members
    are scalars and tables. *)
Definition decoded_shape (v : Value) : Prop :=
  match v with
  | VArray _ => table v
  | VObject props =>
      List.Forall (fun kv => scalar_value (snd kv) \/ table (snd kv)) props
  | _ => False
  end.

(** A scalar whose text holds no colon. *)
Definition colon_free_scalar (v : Value) : Prop :=
  match v with
  | VString s => includes ":" s = false
  | VArray _ | VObject _ => False
  | _ => True
  end.

(** An array that cannot take the tabular form: its first element is
    not an object or has no key, or one of its elements is not an object
    or has not as many keys as the first. *)
Definition not_tabular (items : list Value) : Prop :=
  is_plain_object (List.hd VNull items) = false
  \/ keys_of (List.hd VNull items) = []
  \/ exists item,
       List.In item items
       /\ (is_plain_object item = false
           \/ List.length (keys_of item)
              <> List.length (keys_of (List.hd VNull items))).

(** The code units of the texts [Number] converts to a number: digits,
    signs, the decimal point, the exponent mark, the prefixes and digits
    of the hexadecimal, octal and binary literals, and the letters of
    [Infinity]. *)
Definition number_input_char (c : ascii) : bool :=
  is_digit c || includes c "+-.eExXoObBaAcCdDfFInity".

(* ================================================================== *)
(** ** The component: signals and handlers *)
(* ================================================================== *)

(** *** [JSON.stringify(value, null, 2)] *)

Definition dquote : string := String "034" EmptyString.
Definition backslash : string := String "092" EmptyString.

Definition hex_lower (n : N) : ascii :=
  match String.get (N.to_nat n) "0123456789abcdef" with
  | Some c => c
  | None => "0"%char
  end.

(** UnicodeEscape of a code unit below 256. *)
Definition UnicodeEscape (c : ascii) : string :=
  backslash ++ "u00"
  ++ String (hex_lower (N_of_ascii c / 16))
       (String (hex_lower (N_of_ascii c mod 16)) EmptyString).

(** The text of one code unit in QuoteJSONString. *)
Definition quote_char (c : ascii) : string :=
  match N_of_ascii c with
  | 8%N => backslash ++ "b"
  | 9%N => backslash ++ "t"
  | 10%N => backslash ++ "n"
  | 12%N => backslash ++ "f"
  | 13%N => backslash ++ "r"
  | 34%N => backslash ++ dquote
  | 92%N => backslash ++ backslash
  | n => if (n <? 32)%N then UnicodeEscape c else String c EmptyString
  end.

Fixpoint quote_chars (s : string) : string :=
  match s with
  | EmptyString => EmptyString
  | String c r => quote_char c ++ quote_chars r
  end.

Definition QuoteJSONString (s : string) : string :=
  dquote ++ quote_chars s ++ dquote.

Definition is_finite (x : JsNumber.jsnum) : bool :=
  match x with
  | S754_zero _ | S754_finite _ _ _ => true
  | S754_infinity _ | S754_nan => false
  end.

(** The gap of the indentation for [space = 2]. *)
Definition gap : string := "  ".

(** SerializeJSONProperty, with SerializeJSONArray and
    SerializeJSONObject, on the value of a property; [indent] is the
    indentation of the holder. *)
Fixpoint SerializeJSONProperty (indent : string) (value : Value) : string :=
  match value with
  | VNull => "null"
  | VBool true => "true"
  | VBool false => "false"
  | VString s => QuoteJSONString s
  | VNumber n => if is_finite n then JsNumber.toString n else "null"
  | VArray items =>
      match items with
      | [] => "[]"
      | _ =>
          let stepback := indent in
          let indent := indent ++ gap in
          let partial := List.map (SerializeJSONProperty indent) items in
          let separator := "," ++ nl ++ indent in
          "[" ++ nl ++ indent ++ join separator partial ++ nl ++ stepback ++ "]"
      end
  | VObject props =>
      match props with
      | [] => "{}"
      | _ =>
          let stepback := indent in
          let indent := indent ++ gap in
          let partial :=
            List.map
              (fun kv => let '(key, v) := kv in
                         QuoteJSONString key ++ ": "
                         ++ SerializeJSONProperty indent v)
              props in
          let separator := "," ++ nl ++ indent in
          "{" ++ nl ++ indent ++ join separator partial ++ nl ++ stepback ++ "}"
      end
  end.

Definition JSON_stringify (value : Value) : string :=
  SerializeJSONProperty EmptyString value.

(** *** The signals *)

Record AppState : Type := mk_AppState {
  jsonInput : string;
  originalJsonInput : string;
  toonManualInput : string;
  selectedModel : string;
  isDropdownOpen : bool
}.

Definition initial_state : AppState :=
  mk_AppState EmptyString EmptyString EmptyString "openai" false.

Record ModelConfig : Type := mk_ModelConfig {
  model_value : string;
  model_label : string;
  model_disabled : bool
}.

Definition models : list ModelConfig :=
  [ mk_ModelConfig "openai" "OpenAI ChatGPT" false;
    mk_ModelConfig "anthropic" "Anthropic (Claude)" true;
    mk_ModelConfig "google" "Google (Gemini)" true;
    mk_ModelConfig "xai" "xAI (Grok-3/4)" true;
    mk_ModelConfig "llama" "Llama (Meta)" true ].

(** [this.models.find(m => m.value === model)] *)
Definition find_model (model : string) : option ModelConfig :=
  List.find (fun m => String.eqb (model_value m) model) models.

(** *** The handlers *)

(** [onJsonChange(value)]: the JSON pane is edited. *)
Definition onJsonChange (value : string) (st : AppState) : AppState :=
  mk_AppState value
    (if startsWith "Error:" value then originalJsonInput st else value)
    EmptyString (selectedModel st) (isDropdownOpen st).

(** [onToonChange(value)]: the TOON pane is edited.  The decoder never
    runs out of fuel, so the last case does not occur. *)
Definition onToonChange (value : string) (st : AppState) : AppState :=
  if negb (nonblank value) then
    mk_AppState EmptyString EmptyString EmptyString
      (selectedModel st) (isDropdownOpen st)
  else
    match toonToJson value with
    | Ok jsonObject =>
        let formatted := JSON_stringify jsonObject in
        mk_AppState
          (if negb (startsWith "Error:" formatted) then formatted
           else jsonInput st)
          (originalJsonInput st) value (selectedModel st) (isDropdownOpen st)
    | Err message =>
        mk_AppState ("Error: " ++ message)
          (originalJsonInput st) value (selectedModel st) (isDropdownOpen st)
    | OutOfFuel =>
        mk_AppState (jsonInput st)
          (originalJsonInput st) value (selectedModel st) (isDropdownOpen st)
    end.

(** [onModelChange(model)] *)
Definition onModelChange (model : string) (st : AppState) : AppState :=
  match find_model model with
  | Some config =>
      if negb (model_disabled config) then
        mk_AppState (jsonInput st) (originalJsonInput st) (toonManualInput st)
          model (isDropdownOpen st)
      else st
  | None => st
  end.

(** [toggleDropdown()] *)
Definition toggleDropdown (st : AppState) : AppState :=
  mk_AppState (jsonInput st) (originalJsonInput st) (toonManualInput st)
    (selectedModel st) (negb (isDropdownOpen st)).

(** [selectModel(model)] *)
Definition selectModel (model : string) (st : AppState) : AppState :=
  match find_model model with
  | Some config =>
      if negb (model_disabled config) then
        mk_AppState (jsonInput st) (originalJsonInput st) (toonManualInput st)
          model false
      else st
  | None => st
  end.

(** [getSelectedModelLabel()] *)
Definition getSelectedModelLabel (st : AppState) : string :=
  match find_model (selectedModel st) with
  | Some selected => model_label selected
  | None => "OpenAI ChatGPT"
  end.

(** The calls of the handlers above. *)
Inductive Event : Type :=
| JsonChange (value : string)
| ToonChange (value : string)
| ModelChange (model : string)
| SelectModel (model : string)
| ToggleDropdown.

Definition handle (st : AppState) (e : Event) : AppState :=
  match e with
  | JsonChange value => onJsonChange value st
  | ToonChange value => onToonChange value st
  | ModelChange model => onModelChange model st
  | SelectModel model => selectModel model st
  | ToggleDropdown => toggleDropdown st
  end.

(** *** The computed signals *)

Section Computed.
(** [JSON.parse]: the value, or the message of the error it throws. *)
Variable JSON_parse : string -> Value + string.

(** [toonOutput]: the manual TOON input when there is one, the encoding
    of the JSON input otherwise. *)
Definition toonOutput (st : AppState) : string :=
  if nonblank (toonManualInput st) then toonManualInput st
  else
    let jsonString := jsonInput st in
    if negb (nonblank jsonString) then EmptyString
    else
      match JSON_parse jsonString with
      | inl jsonObject => jsonToToon jsonObject
      | inr message => "Error: " ++ message
      end.

Definition isOutputEmpty (st : AppState) : bool :=
  let output := toonOutput st in
  negb (nonblank output) || startsWith "Error:" output.

Definition hasError (st : AppState) : bool :=
  startsWith "Error:" (toonOutput st).

End Computed.

(** *** The key of the cache of token counts *)

(** [`${model}:${text.substring(0, 100)}:${text.length}`] *)
Definition getCacheKey (text : string) (model : string) : string :=
  model ++ ":" ++ substring_to 100 text ++ ":"
  ++ of_N (N.of_nat (String.length text)).

(** The values of the type [TokenizerModel]. *)
Definition TokenizerModel (model : string) : Prop :=
  List.In model ["openai"; "anthropic"; "google"; "xai"; "llama"].

(** *** The order of the keys of the decoded objects *)

(** An object whose keys are distinct and listed as [Object.keys]
    lists them. *)
Definition ordered_keys (v : Value) : Prop :=
  match v with
  | VObject props => keys_in_order (List.map fst props)
  | _ => True
  end.

(** An array all of whose objects have their keys so listed. *)
Definition ordered_rows (v : Value) : Prop :=
  match v with
  | VArray items => List.Forall ordered_keys items
  | _ => True
  end.

(** A value whose objects have their keys so listed, down to the rows
    of the tables under its keys. *)
Definition decoded_order (v : Value) : Prop :=
  match v with
  | VObject props =>
      keys_in_order (List.map fst props)
      /\ List.Forall (fun kv => ordered_rows (snd kv)) props
  | _ => ordered_rows v
  end.

(** *** The word counts of the first version of the component *)

(** [s.split(/\s+/)]: the pieces of [s] between the maximal runs of
    white space; [in_ws] tells that the code unit before [s] belongs to
    such a run. *)
Fixpoint split_ws_from (in_ws : bool) (s : string) : list string :=
  match s with
  | EmptyString => [EmptyString]
  | String c r =>
      if is_ws c then
        if in_ws then split_ws_from true r
        else EmptyString :: split_ws_from true r
      else
        match split_ws_from false r with
        | h :: t => String c h :: t
        | [] => [String c EmptyString]
        end
  end.

Definition split_ws (s : string) : list string := split_ws_from false s.

(** [text.trim().split(/\s+/).filter(word => word.length > 0).length] *)
Definition word_count (text : string) : nat :=
  List.length
    (List.filter (fun word => (0 <? String.length word)%nat)
       (split_ws (trim text))).

(** The computed signal [inputTokens] of the first version. *)
Definition inputTokens (input : string) : nat :=
  if negb (nonblank input) then 0%nat else word_count input.

(** The computed signal [outputTokens] of the first version, on the
    value of [toonOutput]. *)
Definition outputTokens (output : string) : nat :=
  if negb (nonblank output) || startsWith "Error:" output then 0%nat
  else word_count output.

(** The number of the code units of [s] that start a word: those that
    are not white space and stand first or after white space. *)
Fixpoint word_starts (after_ws : bool) (s : string) : nat :=
  match s with
  | EmptyString => 0
  | String c r =>
      if is_ws c then word_starts true r
      else (if after_ws then 1 else 0) + word_starts false r
  end.

(* ================================================================== *)
(** * Facts about the string methods *)
(* ================================================================== *)

Module JsStringFacts.
Import JsString.

Lemma append_assoc (a b c : string) : (a ++ b) ++ c = a ++ b ++ c.
Proof. induction a as [|x a IH]; simpl; [reflexivity | now rewrite IH]. Qed.

Lemma append_nil_r (a : string) : a ++ EmptyString = a.
Proof. induction a as [|x a IH]; simpl; [reflexivity | now rewrite IH]. Qed.

Lemma length_append (a b : string) :
  String.length (a ++ b) = (String.length a + String.length b)%nat.
Proof. induction a as [|x a IH]; simpl; [reflexivity | now rewrite IH]. Qed.

Lemma forallb_app p a b :
  JsString.forallb p (a ++ b) = JsString.forallb p a && JsString.forallb p b.
Proof.
  induction a as [|c a IH]; simpl; [reflexivity|].
  rewrite IH. now rewrite andb_assoc.
Qed.

Lemma forallb_impl (p q : ascii -> bool) s :
  (forall c, p c = true -> q c = true) ->
  JsString.forallb p s = true -> JsString.forallb q s = true.
Proof.
  intros Hpq. induction s as [|c s IH]; simpl; [reflexivity|].
  intros H. apply andb_true_iff in H as [Hc Hs].
  now rewrite (Hpq _ Hc), IH.
Qed.

Lemma includes_app c a b :
  includes c (a ++ b) = includes c a || includes c b.
Proof.
  induction a as [|x a IH]; simpl; [reflexivity|].
  rewrite IH. now rewrite orb_assoc.
Qed.

(** A string all of whose code units satisfy [p] holds no code unit that
    does not. *)
Lemma forallb_excludes p c s :
  p c = false -> JsString.forallb p s = true -> includes c s = false.
Proof.
  intros Hc. induction s as [|x s IH]; simpl; [reflexivity|].
  intros H. apply andb_true_iff in H as [Hx Hs].
  rewrite (IH Hs), orb_false_r.
  destruct (Ascii.eqb_spec x c) as [->|]; [congruence | reflexivity].
Qed.

(** *** Blank strings and [trim] *)

Lemma trimStart_blank s :
  JsString.forallb is_ws s = true -> trimStart s = EmptyString.
Proof.
  induction s as [|c s IH]; simpl; [reflexivity|].
  intros H. apply andb_true_iff in H as [Hc Hs]. now rewrite Hc, IH.
Qed.

Lemma trimStart_empty_inv s :
  trimStart s = EmptyString -> JsString.forallb is_ws s = true.
Proof.
  induction s as [|c s IH]; simpl; [reflexivity|].
  destruct (is_ws c); [exact IH | discriminate].
Qed.

Lemma trimEnd_cons c s :
  trimEnd (String c s)
  = if is_ws c && JsString.forallb is_ws s then EmptyString
    else String c (trimEnd s).
Proof.
  revert c. induction s as [|d s IH]; intros c.
  - simpl. destruct (is_ws c); reflexivity.
  - change (trimEnd (String c (String d s)))
      with (match trimEnd (String d s) with
            | EmptyString => if is_ws c then EmptyString else String c EmptyString
            | r => String c r
            end).
    rewrite IH.
    change (JsString.forallb is_ws (String d s))
      with (is_ws d && JsString.forallb is_ws s).
    destruct (is_ws d && JsString.forallb is_ws s).
    + rewrite andb_true_r. destruct (is_ws c); reflexivity.
    + rewrite andb_false_r. reflexivity.
Qed.

Lemma trimEnd_blank s :
  JsString.forallb is_ws s = true -> trimEnd s = EmptyString.
Proof.
  destruct s as [|c s]; [reflexivity|].
  intros H. rewrite trimEnd_cons.
  change (JsString.forallb is_ws (String c s))
    with (is_ws c && JsString.forallb is_ws s) in H.
  now rewrite H.
Qed.

Lemma trimEnd_empty_inv s :
  trimEnd s = EmptyString -> JsString.forallb is_ws s = true.
Proof.
  destruct s as [|c s]; [reflexivity|].
  rewrite trimEnd_cons.
  change (JsString.forallb is_ws (String c s))
    with (is_ws c && JsString.forallb is_ws s).
  destruct (is_ws c && JsString.forallb is_ws s); [reflexivity | discriminate].
Qed.

Lemma trimEnd_nonws_head c s :
  is_ws c = false -> trimEnd (String c s) = String c (trimEnd s).
Proof. intros H. now rewrite trimEnd_cons, H. Qed.

Lemma trimStart_nonws_head c s :
  is_ws c = false -> trimStart (String c s) = String c s.
Proof. intros H. simpl. now rewrite H. Qed.

Lemma trimStart_shape s :
  trimStart s = EmptyString
  \/ exists c r, trimStart s = String c r /\ is_ws c = false.
Proof.
  induction s as [|c s IH]; simpl; [now left|].
  destruct (is_ws c) eqn:Hc; [exact IH|].
  right. now exists c, s.
Qed.

Lemma trimEnd_idem s : trimEnd (trimEnd s) = trimEnd s.
Proof.
  induction s as [|c s IH]; [reflexivity|].
  rewrite trimEnd_cons.
  destruct (is_ws c && JsString.forallb is_ws s) eqn:Hb; [reflexivity|].
  rewrite trimEnd_cons, IH.
  destruct (is_ws c) eqn:Hc; [|reflexivity].
  simpl in Hb. simpl.
  destruct (JsString.forallb is_ws (trimEnd s)) eqn:Ht; [|reflexivity].
  apply trimEnd_blank in Ht. rewrite IH in Ht.
  apply trimEnd_empty_inv in Ht. congruence.
Qed.

Lemma trim_blank s :
  JsString.forallb is_ws s = true -> trim s = EmptyString.
Proof. intros H. unfold trim. now rewrite (trimStart_blank _ H). Qed.

Lemma trim_empty_inv s :
  trim s = EmptyString -> JsString.forallb is_ws s = true.
Proof.
  unfold trim. intros H. apply trimEnd_empty_inv in H.
  destruct (trimStart_shape s) as [E | (c & r & E & Hc)].
  - now apply trimStart_empty_inv.
  - rewrite E in H. simpl in H. now rewrite Hc in H.
Qed.

Lemma nonblank_spec s :
  nonblank s = negb (JsString.forallb is_ws s).
Proof.
  unfold nonblank.
  destruct (trim s) eqn:E.
  - now rewrite (trim_empty_inv _ E).
  - destruct (JsString.forallb is_ws s) eqn:B; [|reflexivity].
    rewrite (trim_blank _ B) in E. discriminate.
Qed.

(** A trimmed string is empty, or begins with a code unit that is not
    white space. *)
Lemma trim_shape s :
  trim s = EmptyString
  \/ exists c r, trim s = String c r /\ is_ws c = false.
Proof.
  unfold trim.
  destruct (trimStart_shape s) as [E | (c & r & E & Hc)].
  - left. now rewrite E.
  - right. rewrite E, (trimEnd_nonws_head _ _ Hc). now exists c, (trimEnd r).
Qed.

Lemma trim_idem s : trim (trim s) = trim s.
Proof.
  destruct (trim_shape s) as [E | (c & r & E & Hc)].
  - now rewrite E.
  - unfold trim at 1. rewrite E, (trimStart_nonws_head _ _ Hc).
    rewrite <- E. unfold trim. apply trimEnd_idem.
Qed.

(** The test [nextLine.startsWith('  ')] of [parseToonObject] is made on
    a trimmed line and never succeeds. *)
Lemma startsWith_indent_trim s : startsWith "  " (trim s) = false.
Proof.
  destruct (trim_shape s) as [E | (c & r & E & Hc)]; rewrite E.
  - reflexivity.
  - unfold startsWith.
    change (String.prefix "  " (String c r))
      with (if ascii_dec " " c then String.prefix " " r else false).
    destruct (ascii_dec " " c) as [<-|]; [discriminate | reflexivity].
Qed.

Lemma trimStart_ws_head c s :
  is_ws c = true -> trimStart (String c s) = trimStart s.
Proof. intros H. simpl. now rewrite H. Qed.

Lemma trim_ws_head c s : is_ws c = true -> trim (String c s) = trim s.
Proof. intros H. unfold trim. now rewrite trimStart_ws_head. Qed.

Lemma trim_nonws_head c s :
  is_ws c = false -> trim (String c s) = String c (trimEnd s).
Proof.
  intros H. unfold trim.
  now rewrite trimStart_nonws_head, trimEnd_nonws_head.
Qed.

Lemma includes_trimEnd c s :
  includes c (trimEnd s) = true -> includes c s = true.
Proof.
  induction s as [|x s IH]; [trivial|].
  rewrite trimEnd_cons.
  destruct (is_ws x && JsString.forallb is_ws s); [discriminate|].
  simpl. intros H. apply orb_true_iff in H as [H|H].
  - now rewrite H.
  - rewrite (IH H). apply orb_true_r.
Qed.

Lemma includes_trimStart c s :
  includes c (trimStart s) = true -> includes c s = true.
Proof.
  induction s as [|x s IH]; [trivial|].
  simpl. destruct (is_ws x).
  - intros H. rewrite (IH H). apply orb_true_r.
  - trivial.
Qed.

Lemma includes_trim c s :
  includes c (trim s) = true -> includes c s = true.
Proof.
  intros H. now apply includes_trimStart, includes_trimEnd.
Qed.

Lemma excludes_trim c s :
  includes c s = false -> includes c (trim s) = false.
Proof.
  intros H. destruct (includes c (trim s)) eqn:E; [|reflexivity].
  apply includes_trim in E. congruence.
Qed.

Lemma endsWith_includes c s : endsWith c s = true -> includes c s = true.
Proof.
  induction s as [|x s IH]; [discriminate|].
  destruct s as [|y s].
  - simpl. intros ->. reflexivity.
  - intros H. change (endsWith c (String y s) = true) in H.
    simpl. simpl in IH. rewrite (IH H). apply orb_true_r.
Qed.

Lemma indexOf_absent c s : includes c s = false -> indexOf c s = (-1)%Z.
Proof.
  induction s as [|x s IH]; [reflexivity|].
  simpl. destruct (Ascii.eqb x c); [discriminate|].
  simpl. intros H. now rewrite (IH H).
Qed.

Lemma indexOf_lower c s : (-1 <= indexOf c s)%Z.
Proof.
  induction s as [|x s IH]; simpl; [lia|].
  destruct (Ascii.eqb x c); [lia|].
  destruct (indexOf c s <? 0)%Z eqn:E; [lia|].
  apply Z.ltb_ge in E. lia.
Qed.

End JsStringFacts.

(* ================================================================== *)
(** * Facts about [String(x)] of a number *)
(* ================================================================== *)

Module JsNumberFacts.
Import JsString JsStringFacts JsNumber.
Local Open Scope string_scope.

Lemma digit_number_char c : is_digit c = true -> number_char c = true.
Proof. unfold number_char. now intros ->. Qed.

Lemma digits_string_of_uint d :
  JsString.forallb is_digit (NilEmpty.string_of_uint d) = true.
Proof. induction d; simpl; auto. Qed.

Lemma digits_of_N n : JsString.forallb is_digit (of_N n) = true.
Proof. apply digits_string_of_uint. Qed.

Lemma digits_zeros n : JsString.forallb is_digit (zeros n) = true.
Proof.
  unfold zeros. induction (Z.to_nat n) as [|k IH]; simpl; auto.
Qed.

Lemma forallb_substring p n m s :
  JsString.forallb p s = true ->
  JsString.forallb p (String.substring n m s) = true.
Proof.
  revert n m. induction s as [|c s IH]; intros n m H.
  - destruct n, m; reflexivity.
  - simpl in H. apply andb_true_iff in H as [Hc Hs].
    destruct n as [|n]; simpl.
    + destruct m as [|m]; simpl; [reflexivity|].
      now rewrite Hc, IH.
    + now apply IH.
Qed.

Lemma number_chars_of_N n : JsString.forallb number_char (of_N n) = true.
Proof.
  apply forallb_impl with (p := is_digit);
    [apply digit_number_char | apply digits_of_N].
Qed.

Lemma number_chars_zeros n : JsString.forallb number_char (zeros n) = true.
Proof.
  apply forallb_impl with (p := is_digit);
    [apply digit_number_char | apply digits_zeros].
Qed.

Lemma number_chars_layout s n :
  JsString.forallb number_char (layout s n) = true.
Proof.
  unfold layout.
  set (digits := of_N s).
  assert (Hd : JsString.forallb number_char digits = true)
    by apply number_chars_of_N.
  repeat match goal with
         | |- context [if ?b then _ else _] => destruct b
         end;
    repeat (rewrite forallb_app || rewrite andb_true_iff || split);
    try reflexivity; try exact Hd;
    try apply number_chars_zeros; try apply number_chars_of_N;
    try (unfold substring_to, substring_from; now apply forallb_substring).
Qed.

Lemma number_chars_toString x :
  JsString.forallb number_char (toString x) = true.
Proof.
  destruct x as [sg | [|] | | sg m e]; try reflexivity.
  unfold toString. destruct (shortest m e) as [s n].
  rewrite forallb_app, number_chars_layout, andb_true_r.
  destruct sg; reflexivity.
Qed.

(** [String(x)] contains no code unit outside of [number_char]; in
    particular no comma, colon, bracket, brace or white space. *)
Lemma toString_excludes c x :
  number_char c = false -> includes c (toString x) = false.
Proof.
  intros H. apply forallb_excludes with (p := number_char);
    [exact H | apply number_chars_toString].
Qed.

(** *** The number conversions on literal inputs *)

Example Number_literals :
  Number "1" = of_Z 1
  /\ Number " 12 " = of_Z 12
  /\ Number "1e3" = of_Z 1000
  /\ Number "0x10" = of_Z 16
  /\ Number "-0" = S754_zero true
  /\ Number "" = S754_zero false
  /\ Number "0.5" = S754_finite false 4503599627370496 (-53)
  /\ Number "0.1" = S754_finite false 7205759403792794 (-56)
  /\ Number "5e-324" = S754_finite false 1 (-1074)
  /\ Number "1e-400" = S754_zero false
  /\ Number "9007199254740993" = of_Z 9007199254740992
  /\ Number "1.7976931348623157e308" = S754_finite false 9007199254740991 971
  /\ Number "-Infinity" = S754_infinity true
  /\ Number "abc" = S754_nan
  /\ Number "1,2" = S754_nan
  /\ Number "12px" = S754_nan
  /\ Number "." = S754_nan.
Proof. vm_compute. repeat split. Qed.

Example toString_literals :
  toString (of_Z 1) = "1"
  /\ toString (of_Z (-42)) = "-42"
  /\ toString (Number "0.1") = "0.1"
  /\ toString (Number "0.30000000000000004") = "0.30000000000000004"
  /\ toString (Number "1e21") = "1e+21"
  /\ toString (Number "123456789012345680000") = "123456789012345680000"
  /\ toString (Number "0.000001") = "0.000001"
  /\ toString (Number "1e-7") = "1e-7"
  /\ toString (Number "1e23") = "1e+23"
  /\ toString (Number "5e-324") = "5e-324"
  /\ toString (Number "1.7976931348623157e308") = "1.7976931348623157e+308"
  /\ toString (Number "2.2250738585072011e-308") = "2.225073858507201e-308"
  /\ toString (S754_zero true) = "0"
  /\ toString S754_nan = "NaN".
Proof. vm_compute. repeat split. Qed.

(** The integers from -300 to 300 are read back from their digits. *)
Example small_integers_read_back :
  List.forallb
    (fun z => eqb (Number (toString (of_Z z))) (of_Z z))
    (List.map (fun i => (Z.of_nat i - 300)%Z) (List.seq 0 601))
  = true.
Proof. vm_compute. reflexivity. Qed.

End JsNumberFacts.

(* ================================================================== *)
(** * Facts about the decoder *)
(* ================================================================== *)

Import JsStringFacts.

(** *** The line shapes on literal inputs *)

Example header_shape_literals :
  header_shape "[3]{a,b}:" = true
  /\ header_match "[3]{a,b}:" = Some ("3", "a,b")
  /\ header_shape "[3]{}:" = true
  /\ header_match "[3]{}:" = None
  /\ header_shape "[]{a}:" = false
  /\ header_shape "[3]{a}" = false
  /\ header_shape "users[2]{a}:" = false
  /\ header_match "[12]{a}:}:" = Some ("12", "a}:").
Proof. repeat split. Qed.

Example key_line_shape_literals :
  key_line_shape "a: b" = true
  /\ key_line_shape "a:b" = false
  /\ key_line_shape ": b" = false
  /\ key_line_shape "a b" = false.
Proof. repeat split. Qed.

(** *** The loop of [parseToonObject] *)

Lemma span_lines_app p lines a b :
  span_lines p lines = (a, b) -> lines = (a ++ b)%list.
Proof.
  revert a b. induction lines as [|l r IH]; simpl; intros a b H.
  - now inversion H.
  - destruct (p l).
    + destruct (span_lines p r) as [a' b'] eqn:E. inversion H; subst.
      simpl. f_equal. now apply IH.
    + now inversion H.
Qed.

(** The branch of the nested block is never taken, so a turn of the loop
    does not depend on the recursive call. *)
Lemma loop_body_nested n1 n2 result l rest :
  loop_body n1 result l rest = loop_body n2 result l rest.
Proof.
  unfold loop_body.
  destruct (String.eqb (trim l) EmptyString); [reflexivity|].
  destruct (endsWith ":" (trim l)); [|reflexivity].
  destruct rest as [|next rest']; [reflexivity|].
  destruct (header_shape (trim next)); [reflexivity|].
  now rewrite startsWith_indent_trim.
Qed.

(** A turn of the loop moves the index forward: the lines left are a
    suffix of the lines after the current one. *)
Lemma loop_body_suffix nested result l rest result' lines' :
  loop_body nested result l rest = Ok (result', lines') ->
  exists consumed, rest = (consumed ++ lines')%list.
Proof.
  unfold loop_body.
  destruct (String.eqb (trim l) EmptyString).
  { intros [= _ <-]. now exists []. }
  destruct (endsWith ":" (trim l)).
  - destruct rest as [|next rest'].
    { intros [= _ <-]. now exists []. }
    destruct (header_shape (trim next)).
    + destruct (span_lines _ rest') as [rows after] eqn:E.
      apply span_lines_app in E.
      destruct (parseToonArray (trim next :: rows)); simpl; try discriminate.
      intros [= _ <-]. exists (next :: rows). now rewrite E.
    + rewrite startsWith_indent_trim.
      intros [= _ <-]. now exists [next].
  - destruct (0 <? indexOf ":" (trim l))%Z; intros [= _ <-]; now exists [].
Qed.

Lemma loop_body_length nested result l rest result' lines' :
  loop_body nested result l rest = Ok (result', lines') ->
  (List.length lines' <= List.length rest)%nat.
Proof.
  intros H. apply loop_body_suffix in H as [consumed ->].
  rewrite List.length_app. lia.
Qed.

Lemma parseToonArray_fuel lines : parseToonArray lines <> OutOfFuel.
Proof.
  unfold parseToonArray. destruct lines as [|l0 rest]; [discriminate|].
  destruct (header_match (trim l0)) as [[digits cols]|]; discriminate.
Qed.

Lemma loop_body_fuel nested result l rest :
  loop_body nested result l rest <> OutOfFuel.
Proof.
  unfold loop_body.
  destruct (String.eqb (trim l) EmptyString); [discriminate|].
  destruct (endsWith ":" (trim l)).
  - destruct rest as [|next rest']; [discriminate|].
    destruct (header_shape (trim next)).
    + destruct (span_lines _ rest') as [rows after].
      pose proof (parseToonArray_fuel (trim next :: rows)) as F.
      destruct (parseToonArray (trim next :: rows)); simpl; congruence.
    + rewrite startsWith_indent_trim. discriminate.
  - destruct (0 <? indexOf ":" (trim l))%Z; discriminate.
Qed.

(** The result of the loop does not depend on the fuel, once there is a
    unit of it for every line. *)
Lemma object_loop_fuel_irrelevant fuel :
  forall fuel' result lines,
    (List.length lines <= fuel)%nat -> (List.length lines <= fuel')%nat ->
    object_loop fuel result lines = object_loop fuel' result lines.
Proof.
  induction fuel as [|f IH]; intros fuel' result lines H H'.
  - destruct lines; [now destruct fuel' | simpl in H; lia].
  - destruct lines as [|l rest]; [now destruct fuel'|].
    destruct fuel' as [|f']; [simpl in H'; lia|].
    simpl in H, H'. simpl.
    rewrite (loop_body_nested (object_loop f JsObject.empty)
                              (object_loop f' JsObject.empty)).
    destruct (loop_body (object_loop f' JsObject.empty) result l rest)
      as [[r' ls']| |] eqn:E; simpl; try reflexivity.
    apply loop_body_length in E. apply IH; lia.
Qed.

(** With a unit of fuel for every line the loop runs to its end. *)
Lemma object_loop_fuel fuel :
  forall result lines,
    (List.length lines <= fuel)%nat ->
    object_loop fuel result lines <> OutOfFuel.
Proof.
  induction fuel as [|f IH]; intros result lines H.
  - destruct lines; [discriminate | simpl in H; lia].
  - destruct lines as [|l rest]; [discriminate|].
    simpl in H. simpl.
    pose proof (loop_body_fuel (object_loop f JsObject.empty) result l rest) as F.
    destruct (loop_body (object_loop f JsObject.empty) result l rest)
      as [[r' ls']| |] eqn:E; simpl; try congruence.
    apply loop_body_length in E. apply IH. lia.
Qed.


Lemma run_cons nested result l rest :
  run result (l :: rest)
  = let* st := loop_body nested result l rest in run (fst st) (snd st).
Proof.
  unfold run. simpl.
  rewrite (loop_body_nested _ nested).
  destruct (loop_body nested result l rest) as [[r' ls']| |] eqn:E;
    simpl; try reflexivity.
  apply loop_body_length in E. now apply object_loop_fuel_irrelevant.
Qed.

Lemma parseToonObject_run lines :
  parseToonObject lines
  = let* result := run JsObject.empty lines in Ok (VObject (own result)).
Proof. reflexivity. Qed.

(** A line that, trimmed, neither ends with a colon nor has a colon
    after its first code unit leaves the state of the loop unchanged. *)
Lemma loop_body_skip nested result l rest :
  endsWith ":" (trim l) = false ->
  (indexOf ":" (trim l) <= 0)%Z ->
  loop_body nested result l rest = Ok (result, rest).
Proof.
  intros He Hi. unfold loop_body.
  destruct (String.eqb (trim l) EmptyString); [reflexivity|].
  rewrite He.
  destruct (0 <? indexOf ":" (trim l))%Z eqn:E; [|reflexivity].
  apply Z.ltb_lt in E. lia.
Qed.

(** *** Text without a colon *)

Lemma split_absent sep s : includes sep s = false -> split sep s = [s].
Proof.
  induction s as [|c s IH]; [reflexivity|].
  simpl. destruct (Ascii.eqb c sep); [discriminate|].
  simpl. intros H. now rewrite (IH H).
Qed.

Lemma eqb_excluded c s s' :
  includes c s = false -> includes c s' = true -> String.eqb s s' = false.
Proof.
  intros H H'. destruct (String.eqb_spec s s') as [->|]; congruence.
Qed.

Lemma strip_brace_colon_app s mid :
  strip_brace_colon s = Some mid -> s = mid ++ "}:".
Proof.
  revert mid. induction s as [|c s IH]; intros mid; [discriminate|].
  assert (G : option_map (String c) (strip_brace_colon s) = Some mid ->
              String c s = mid ++ "}:").
  { destruct (strip_brace_colon s) as [m|]; [|discriminate].
    intros [= <-]. simpl. f_equal. now apply IH. }
  simpl.
  destruct (Ascii.eqb_spec c "}") as [->|Hc].
  - destruct s as [|d s']; [exact G|].
    destruct (Ascii.eqb_spec d ":") as [->|Hd].
    + destruct s'; [now intros [= <-] | exact G].
    + destruct d as [[|] [|] [|] [|] [|] [|] [|] [|]]; try exact G.
      now contradiction Hd.
  - destruct c as [[|] [|] [|] [|] [|] [|] [|] [|]]; try exact G.
    now contradiction Hc.
Qed.

Lemma endsWith_app_colon s : endsWith ":" (s ++ "}:") = true.
Proof.
  induction s as [|c s IH]; [reflexivity|].
  simpl. destruct (s ++ "}:") eqn:E; [|exact IH].
  destruct s; discriminate.
Qed.

Lemma span_spec p s a b :
  span p s = (a, b) ->
  s = a ++ b /\ JsString.forallb p a = true
  /\ match b with EmptyString => True | String c _ => p c = false end.
Proof.
  revert a b. induction s as [|c s IH]; simpl; intros a b H.
  - inversion H; subst. auto.
  - destruct (p c) eqn:Hc.
    + destruct (span p s) as [a' b'] eqn:E. inversion H; subst.
      destruct (IH _ _ eq_refl) as (-> & Ha & Hb).
      simpl. now rewrite Hc, Ha.
    + inversion H; subst. simpl. auto.
Qed.

Lemma span_build p a b :
  JsString.forallb p a = true ->
  match b with EmptyString => True | String c _ => p c = false end ->
  span p (a ++ b) = (a, b).
Proof.
  intros Ha Hb. induction a as [|c a IH]; simpl.
  - destruct b as [|c b]; [reflexivity|]. simpl. now rewrite Hb.
  - simpl in Ha. apply andb_true_iff in Ha as [Hc Ha].
    now rewrite Hc, (IH Ha).
Qed.

(** What a match of the header shape says about the line. *)
Lemma header_parts_spec s digits mid :
  header_parts s = Some (digits, mid) ->
  s = "[" ++ digits ++ "]{" ++ mid ++ "}:"
  /\ digits <> EmptyString
  /\ JsString.forallb is_digit digits = true
  /\ JsString.forallb (fun c => negb (is_line_terminator c)) mid = true.
Proof.
  unfold header_parts.
  destruct s as [|c s]; [discriminate|].
  destruct c as [[|] [|] [|] [|] [|] [|] [|] [|]]; try discriminate.
  destruct (span is_digit s) as [ds r1] eqn:E.
  apply span_spec in E as (-> & Hds & _).
  destruct ds as [|d ds]; [discriminate|].
  destruct r1 as [|c1 r1]; [discriminate|].
  destruct c1 as [[|] [|] [|] [|] [|] [|] [|] [|]]; try discriminate.
  destruct r1 as [|c2 body]; [discriminate|].
  destruct c2 as [[|] [|] [|] [|] [|] [|] [|] [|]]; try discriminate.
  destruct (strip_brace_colon body) as [m|] eqn:Eb; [|discriminate].
  apply strip_brace_colon_app in Eb as ->.
  destruct (JsString.forallb _ m) eqn:Hm; [|discriminate].
  intros [= <- <-].
  repeat split; try assumption; try discriminate.
Qed.

Lemma endsWith_app c a b :
  b <> EmptyString -> endsWith c (a ++ b) = endsWith c b.
Proof.
  intros Hb. induction a as [|x a IH]; [reflexivity|].
  simpl. destruct (a ++ b) eqn:E; [|exact IH].
  destruct a; [simpl in E; congruence | discriminate].
Qed.

(** A line of the header shape ends with a colon. *)
Lemma header_parts_endsWith s p :
  header_parts s = Some p -> endsWith ":" s = true.
Proof.
  destruct p as [digits mid]. intros H.
  apply header_parts_spec in H as (-> & _).
  replace ("[" ++ digits ++ "]{" ++ mid ++ "}:")
    with (("[" ++ digits ++ "]{" ++ mid) ++ "}:").
  - apply endsWith_app_colon.
  - now rewrite !append_assoc.
Qed.

Lemma header_shape_endsWith s :
  header_shape s = true -> endsWith ":" s = true.
Proof.
  unfold header_shape. destruct (header_parts s) eqn:E; [|discriminate].
  intros _. eapply header_parts_endsWith; eauto.
Qed.

Lemma header_shape_colonless s :
  includes ":" s = false -> header_shape s = false.
Proof.
  intros H. destruct (header_shape s) eqn:E; [|reflexivity].
  apply header_shape_endsWith, endsWith_includes in E. congruence.
Qed.

(** Text without a colon and without a line feed decodes to the empty
    object: it is a single line that the object loop skips. *)
Lemma toonToJson_colonless t :
  includes ":" t = false -> includes "010" t = false ->
  toonToJson t = Ok (VObject []).
Proof.
  intros Hc Hn. unfold toonToJson, toon_lines.
  rewrite (split_absent _ _ (excludes_trim _ _ Hn)).
  simpl. destruct (nonblank (trim t)); [|reflexivity].
  rewrite trim_idem.
  pose proof (excludes_trim _ _ Hc) as Hc'.
  rewrite (eqb_excluded ":" _ "[]:" Hc' eq_refl).
  rewrite (eqb_excluded ":" _ "{}:" Hc' eq_refl).
  rewrite (header_shape_colonless _ Hc').
  rewrite parseToonObject_run, (run_cons (fun _ => OutOfFuel)).
  rewrite loop_body_skip.
  - reflexivity.
  - rewrite trim_idem. destruct (endsWith ":" (trim t)) eqn:E; [|reflexivity].
    apply endsWith_includes in E. congruence.
  - rewrite trim_idem, (indexOf_absent _ _ Hc'). lia.
Qed.

(* ================================================================== *)
(** * Round trip of scalars *)
(* ================================================================== *)

(** C1, as stated, fails: the scalar [true] is encoded as the text
    [true], and decoding that text gives the empty object, not [true].
    [toonToJson] returns an array or an object on every path. *)
Lemma C1_scalar_round_trip_counterexample :
  plain_scalar (VBool true)
  /\ toonToJson (jsonToToon (VBool true)) = Ok (VObject [])
  /\ toonToJson (jsonToToon (VBool true)) <> Ok (VBool true).
Proof.
  split; [exact I|]. split; [reflexivity|]. discriminate.
Qed.

(** C1, amended: for every scalar value [v] ([null], a boolean, a
    number, or a string without comma, colon and line feed), decoding
    the encoding of [v] gives the empty object. *)
Theorem C1_scalar_decodes_to_empty_object (v : Value) :
  plain_scalar v -> toonToJson (jsonToToon v) = Ok (VObject []).
Proof.
  destruct v as [|b|n|s|items|props]; simpl; intros H.
  - reflexivity.
  - destruct b; reflexivity.
  - apply toonToJson_colonless; now apply JsNumberFacts.toString_excludes.
  - destruct H as (_ & Hc & Hn). now apply toonToJson_colonless.
  - contradiction.
  - contradiction.
Qed.

Lemma C1_scalar_decodes_to_empty_object_witness :
  plain_scalar (VString "hello world")
  /\ toonToJson (jsonToToon (VString "hello world")) = Ok (VObject []).
Proof.
  split.
  - repeat split; reflexivity.
  - apply (C1_scalar_decodes_to_empty_object (VString "hello world")).
    repeat split; reflexivity.
Defined.

(* ================================================================== *)
(** * Blank input *)
(* ================================================================== *)

(** C9: decoding an input that is empty or made of white space only
    returns the empty object. *)
Theorem C9_blank_input_decodes_to_empty_object (t : string) :
  JsString.forallb is_ws t = true -> toonToJson t = Ok (VObject []).
Proof.
  intros H. unfold toonToJson, toon_lines. now rewrite (trim_blank _ H).
Qed.

Lemma C9_blank_input_decodes_to_empty_object_witness :
  JsString.forallb is_ws (String "032" (String "010" (String "009" " "))) = true
  /\ toonToJson (String "032" (String "010" (String "009" " "))) = Ok (VObject []).
Proof.
  split.
  - reflexivity.
  - apply (C9_blank_input_decodes_to_empty_object
             (String "032" (String "010" (String "009" " ")))).
    reflexivity.
Defined.

(* ================================================================== *)
(** * Nested objects in the encoder *)
(* ================================================================== *)

(** C2, as stated, fails: the object [{addr: {city: "x"}}] is encoded on
    one line, [addr: city: x], not as a bare key line followed by an
    indented line. *)
Lemma C2_nested_indentation_counterexample :
  jsonToToon (VObject [("addr", VObject [("city", VString "x")])])
  <> "addr:" ++ nl ++ "  city: x".
Proof. discriminate. Qed.

(** C2, amended: encoding [{addr: {city: "x"}}] produces exactly the
    one-line text [addr: city: x].  In general a member whose value is an
    object is written inline, as the key, a colon, a space and the
    encoding of the object, when that encoding has no line feed, no
    bracket and no brace; it is written as a bare key line followed by
    the lines of the encoding indented by two spaces otherwise. *)
Theorem C2_nested_object_inline :
  jsonToToon (VObject [("addr", VObject [("city", VString "x")])])
  = "addr: city: x"
  /\ forall (key : string) (props : list (string * Value)),
      let nested := jsonToToon (VObject props) in
      jsonToToon (VObject [(key, VObject props)])
      = if includes "010" nested || includes "[" nested || includes "{" nested
        then join nl ((key ++ ":")
                        :: List.map (fun line => "  " ++ line) (split "010" nested))
        else key ++ ": " ++ nested.
Proof.
  split; [reflexivity|].
  intros key props nested.
  change (jsonToToon (VObject [(key, VObject props)]))
    with (join nl (List.app (member_lines jsonToToon key (VObject props)) [])).
  rewrite List.app_nil_r. unfold member_lines. fold nested.
  destruct (includes "010" nested || includes "[" nested || includes "{" nested);
    reflexivity.
Qed.

(** The two-line text of C2 does not decode to a nested object: the
    lookahead of [parseToonObject] tests the indentation on the trimmed
    next line, so the indented line is read as the scalar of [addr]. *)
Lemma nested_block_decodes_as_scalar :
  toonToJson ("addr:" ++ nl ++ "  city: x")
  = Ok (VObject [("addr", VString "city: x")]).
Proof. reflexivity. Qed.

(* ================================================================== *)
(** * Scalar parsing *)
(* ================================================================== *)

(** C6, as stated, fails: the text [Infinity] is parsed to the number
    positive infinity, not to the string [Infinity]; the source tests the
    result of [Number(value)] with [isNaN], not for finiteness. *)
Lemma C6_infinity_counterexample :
  parseToonValue "Infinity" = VNumber (S754_infinity false)
  /\ parseToonValue "Infinity" <> VString "Infinity".
Proof. split; [reflexivity | discriminate]. Qed.

(** C6, amended: scalar parsing maps the exact text [null] to Null,
    [true] and [false] to the booleans and the empty text to the empty
    string; any other text that is not blank and that [Number] converts
    to a number other than NaN is mapped to that number, infinities
    included (so [Infinity], [-Infinity] and [1e999] give infinite
    numbers); every other text is mapped to the string holding it. *)
Theorem C6_parseToonValue_cases (value : string) :
  (value = "null" -> parseToonValue value = VNull)
  /\ (value = "true" -> parseToonValue value = VBool true)
  /\ (value = "false" -> parseToonValue value = VBool false)
  /\ (value = EmptyString -> parseToonValue value = VString EmptyString)
  /\ (value <> "null" -> value <> "true" -> value <> "false" -> value <> EmptyString ->
      JsNumber.isNaN (JsNumber.Number value) = false ->
      nonblank value = true ->
      parseToonValue value = VNumber (JsNumber.Number value))
  /\ (value <> "null" -> value <> "true" -> value <> "false" ->
      JsNumber.isNaN (JsNumber.Number value) = true \/ nonblank value = false ->
      parseToonValue value = VString value)
  /\ parseToonValue "Infinity" = VNumber (S754_infinity false)
  /\ parseToonValue "-Infinity" = VNumber (S754_infinity true)
  /\ parseToonValue "1e999" = VNumber (S754_infinity false).
Proof.
  assert (Hblank : String.eqb (trim value) EmptyString = negb (nonblank value)).
  { unfold nonblank. now destruct (trim value). }
  repeat split; try (intros ->; reflexivity).
  - intros H1 H2 H3 H4 Hnan Hnb. unfold parseToonValue.
    apply String.eqb_neq in H1, H2, H3, H4.
    now rewrite H1, H2, H3, H4, Hnan, Hblank, Hnb.
  - intros H1 H2 H3 H. unfold parseToonValue.
    apply String.eqb_neq in H1, H2, H3.
    rewrite H1, H2, H3.
    destruct (String.eqb_spec value EmptyString) as [->|_]; [reflexivity|].
    rewrite Hblank.
    destruct H as [-> | ->]; [reflexivity|].
    now rewrite andb_false_r.
Qed.

Lemma C6_parseToonValue_cases_witness :
  parseToonValue "42" = VNumber (JsNumber.of_Z 42)
  /\ parseToonValue "4 2" = VString "4 2".
Proof.
  split.
  - apply (proj1 (proj2 (proj2 (proj2 (proj2 (C6_parseToonValue_cases "42"))))));
      try discriminate; reflexivity.
  - apply (proj1 (proj2 (proj2 (proj2 (proj2 (proj2 (C6_parseToonValue_cases "4 2")))))));
      try discriminate. left. reflexivity.
Defined.

(* ================================================================== *)
(** * Totality of the encoder *)
(* ================================================================== *)





(* ================================================================== *)
(** * The error of the decoder *)
(* ================================================================== *)

Lemma toonToJson_lines t :
  toonToJson t
  = match toon_lines t with
    | [] => Ok (VObject [])
    | line0 :: _ =>
        let firstLine := trim line0 in
        if String.eqb firstLine "[]:" then Ok (VArray [])
        else if String.eqb firstLine "{}:" then Ok (VObject [])
        else if header_shape firstLine then parseToonArray (toon_lines t)
        else parseToonObject (toon_lines t)
    end.
Proof. reflexivity. Qed.

(** [parseToonArray] throws exactly when the trimmed first line fails
    the full header expression. *)
Lemma parseToonArray_err lines msg :
  parseToonArray lines = Err msg <->
  msg = invalid_header
  /\ exists line0 rest, lines = line0 :: rest /\ header_match (trim line0) = None.
Proof.
  unfold parseToonArray. split.
  - destruct lines as [|line0 rest]; [discriminate|].
    destruct (header_match (trim line0)) as [[digits cols]|] eqn:E;
      [discriminate|].
    intros [= <-]. split; [reflexivity|]. now exists line0, rest.
  - intros (-> & line0 & rest & -> & E). now rewrite E.
Qed.

Lemma parseToonArray_ok lines :
  (exists items, parseToonArray lines = Ok (VArray items))
  \/ parseToonArray lines = Err invalid_header.
Proof.
  unfold parseToonArray. destruct lines as [|line0 rest].
  - left. now exists [].
  - destruct (header_match (trim line0)) as [[digits cols]|].
    + left. eauto.
    + now right.
Qed.

(** A turn of the loop throws exactly at a bare key line followed by a
    line of the header shape that fails the full header expression. *)
Lemma loop_body_err nested result l rest msg :
  loop_body nested result l rest = Err msg <->
  msg = invalid_header
  /\ trim l <> EmptyString /\ endsWith ":" (trim l) = true
  /\ exists next rest',
      rest = next :: rest'
      /\ header_shape (trim next) = true
      /\ header_match (trim next) = None.
Proof.
  unfold loop_body. split.
  - destruct (String.eqb_spec (trim l) EmptyString) as [|Hl]; [discriminate|].
    destruct (endsWith ":" (trim l)).
    + destruct rest as [|next rest']; [discriminate|].
      destruct (header_shape (trim next)) eqn:Hs.
      * destruct (span_lines _ rest') as [rows after].
        destruct (parseToonArray (trim next :: rows)) eqn:E; simpl;
          try discriminate.
        intros [= <-].
        apply parseToonArray_err in E as (-> & l0 & r0 & [= <- <-] & Hm).
        rewrite trim_idem in Hm.
        repeat split; try assumption. now exists next, rest'.
      * rewrite startsWith_indent_trim. discriminate.
    + destruct (0 <? indexOf ":" (trim l))%Z; discriminate.
  - intros (-> & Hl & He & next & rest' & -> & Hs & Hm).
    apply String.eqb_neq in Hl. rewrite Hl, He, Hs.
    destruct (span_lines _ rest') as [rows after].
    unfold parseToonArray. rewrite trim_idem, Hm. reflexivity.
Qed.

(** The loop, from a state it reaches, ends as the whole loop does. *)
Lemma reaches_run lines0 result lines :
  reaches lines0 result lines ->
  run JsObject.empty lines0 = run result lines.
Proof.
  induction 1 as [|result l rest result' lines' _ IH Hb]; [reflexivity|].
  rewrite IH, (run_cons (run JsObject.empty)), Hb. reflexivity.
Qed.

Lemma run_not_out_of_fuel result lines : run result lines <> OutOfFuel.
Proof. apply object_loop_fuel. lia. Qed.

(** When the loop throws, it is in a turn at a bare key line followed by
    a line of the header shape that fails the full header expression. *)
Lemma run_err lines0 msg n :
  forall result lines,
    (List.length lines <= n)%nat ->
    reaches lines0 result lines ->
    run result lines = Err msg ->
    msg = invalid_header
    /\ exists result' l next rest,
        reaches lines0 result' (l :: next :: rest)
        /\ trim l <> EmptyString /\ endsWith ":" (trim l) = true
        /\ header_shape (trim next) = true
        /\ header_match (trim next) = None.
Proof.
  induction n as [|n IH]; intros result lines Hn Hr.
  - destruct lines; [discriminate | simpl in Hn; lia].
  - destruct lines as [|l rest]; [discriminate|].
    rewrite (run_cons (run JsObject.empty)).
    destruct (loop_body (run JsObject.empty) result l rest)
      as [[result' lines']| msg' |] eqn:E; simpl.
    + intros H. apply (IH result' lines'); try assumption.
      * apply loop_body_length in E. simpl in Hn. lia.
      * eapply reaches_turn; eauto.
    + intros [= ->].
      apply loop_body_err in E
        as (-> & Hl & He & next & rest' & -> & Hs & Hm).
      split; [reflexivity|]. exists result, l, next, rest'. auto.
    + discriminate.
Qed.

Lemma toonToJson_not_out_of_fuel t : toonToJson t <> OutOfFuel.
Proof.
  rewrite toonToJson_lines. destruct (toon_lines t) as [|line0 rest];
    [discriminate|].
  cbv zeta.
  destruct (String.eqb (trim line0) "[]:"); [discriminate|].
  destruct (String.eqb (trim line0) "{}:"); [discriminate|].
  destruct (header_shape (trim line0)).
  - apply parseToonArray_fuel.
  - rewrite parseToonObject_run.
    pose proof (run_not_out_of_fuel JsObject.empty (line0 :: rest)) as F.
    destruct (run JsObject.empty (line0 :: rest)); simpl; congruence.
Qed.

Lemma toonToJson_err t msg :
  toonToJson t = Err msg ->
  msg = invalid_header
  /\ exists header, enters_array t header /\ header_match header = None.
Proof.
  rewrite toonToJson_lines. unfold enters_array.
  destruct (toon_lines t) as [|line0 rest] eqn:L; [discriminate|].
  cbv zeta.
  destruct (String.eqb_spec (trim line0) "[]:") as [|H1]; [discriminate|].
  destruct (String.eqb_spec (trim line0) "{}:") as [|H2]; [discriminate|].
  destruct (header_shape (trim line0)) eqn:Hs.
  - intros E. apply parseToonArray_err in E as (-> & l0 & r0 & [= <- <-] & Hm).
    split; [reflexivity|]. exists (trim line0). auto 10.
  - rewrite parseToonObject_run.
    destruct (run JsObject.empty (line0 :: rest)) eqn:E; simpl;
      try discriminate.
    intros [= <-].
    apply (run_err (line0 :: rest) _ _ _ _ (le_n _) (reaches_start _)) in E
      as (-> & result' & l & next & rest' & Hr & Hl & He & Hs' & Hm).
    split; [reflexivity|]. exists (trim next).
    split; [|assumption].
    split; [assumption|]. split; [assumption|]. right.
    split; [reflexivity|]. exists result', l, next, rest'. auto.
Qed.

Lemma enters_array_err t header :
  enters_array t header -> header_match header = None ->
  toonToJson t = Err invalid_header.
Proof.
  rewrite toonToJson_lines. unfold enters_array.
  destruct (toon_lines t) as [|line0 rest] eqn:L; [contradiction|].
  cbv zeta. intros (H1 & H2 & H) Hm.
  apply String.eqb_neq in H1, H2. rewrite H1, H2.
  destruct H as [(Hs & ->) | (Hs & result & l & next & rest' & Hr & Hl & He & Hs' & ->)];
    rewrite Hs.
  - apply parseToonArray_err. split; [reflexivity|].
    now exists line0, rest.
  - rewrite parseToonObject_run, (reaches_run _ _ _ Hr).
    rewrite (run_cons (run JsObject.empty)).
    assert (E : loop_body (run JsObject.empty) result l (next :: rest')
                = Err invalid_header).
    { apply loop_body_err. split; [reflexivity|].
      repeat split; try assumption. now exists next, rest'. }
    now rewrite E.
Qed.

Lemma enters_array_shape t header :
  enters_array t header -> header_shape header = true.
Proof.
  unfold enters_array. destruct (toon_lines t) as [|line0 rest]; [contradiction|].
  cbv zeta.
  intros (_ & _ & [(Hs & ->) | (_ & result & l & next & rest' & _ & _ & _ & Hs & ->)]);
    assumption.
Qed.

(** The lines of the header shape that fail the full header expression
    are the lines [[digits]{}:]. *)
Lemma failing_header_form header :
  header_shape header = true -> header_match header = None ->
  exists digits, digits <> EmptyString /\ JsString.forallb is_digit digits = true
                 /\ header = "[" ++ digits ++ "]{}:".
Proof.
  unfold header_shape, header_match.
  destruct (header_parts header) as [[digits mid]|] eqn:E; [|discriminate].
  intros _ Hm. destruct mid; [|discriminate].
  apply header_parts_spec in E as (-> & Hd & Hds & _).
  now exists digits.
Qed.

(** C4: [toonToJson] throws the error [Invalid array header format]
    exactly when [parseToonArray] is entered on a line that has the
    header shape of the dispatch and fails the full header expression,
    that is a line [[digits]{}:] such as the input [[3]{}:]; on every
    other input it returns a value. *)
Theorem C4_decode_error (t : string) :
  toonToJson "[3]{}:" = Err invalid_header
  /\ (forall header, enters_array t header -> header_shape header = true)
  /\ ((exists header, enters_array t header /\ header_match header = None)
      <-> toonToJson t = Err invalid_header)
  /\ (forall header,
         enters_array t header -> header_match header = None ->
         exists digits, header = "[" ++ digits ++ "]{}:")
  /\ (forall msg, toonToJson t = Err msg -> msg = invalid_header)
  /\ ((exists v, toonToJson t = Ok v) \/ toonToJson t = Err invalid_header).
Proof.
  split; [reflexivity|].
  split; [intros header; apply enters_array_shape|].
  split; [split|].
  - intros (header & He & Hm). eapply enters_array_err; eauto.
  - intros E. now apply toonToJson_err in E.
  - split.
    { intros header He Hm.
      destruct (failing_header_form header (enters_array_shape _ _ He) Hm)
        as (digits & _ & _ & ->).
      now exists digits. }
    split.
    + intros msg E. now apply toonToJson_err in E.
    + pose proof (toonToJson_not_out_of_fuel t) as F.
      destruct (toonToJson t) as [v|msg|] eqn:E.
      * left. now exists v.
      * right. apply toonToJson_err in E as [-> _]. reflexivity.
      * congruence.
Qed.

Lemma C4_decode_error_witness :
  enters_array ("k:" ++ nl ++ "[1]{}:") "[1]{}:"
  /\ toonToJson ("k:" ++ nl ++ "[1]{}:") = Err invalid_header.
Proof.
  assert (He : enters_array ("k:" ++ nl ++ "[1]{}:") "[1]{}:").
  { unfold enters_array. simpl.
    split; [discriminate|]. split; [discriminate|]. right.
    split; [reflexivity|].
    exists JsObject.empty, "k:", "[1]{}:", [].
    split; [apply reaches_start|].
    split; [discriminate|]. repeat split; reflexivity. }
  split; [exact He|].
  apply (proj1 (proj1 (proj2 (proj2 (C4_decode_error ("k:" ++ nl ++ "[1]{}:")))))).
  exists "[1]{}:". split; [exact He | reflexivity].
Defined.

(* ================================================================== *)
(** * Lines skipped by the object loop *)
(* ================================================================== *)

Lemma span_lines_spec p lines a b :
  span_lines p lines = (a, b) ->
  lines = (a ++ b)%list /\ List.Forall (fun l => p l = true) a
  /\ match b with [] => True | l :: _ => p l = false end.
Proof.
  revert a b. induction lines as [|l r IH]; simpl; intros a b H.
  - inversion H; subst. auto.
  - destruct (p l) eqn:Hl.
    + destruct (span_lines p r) as [a' b'] eqn:E. inversion H; subst.
      destruct (IH _ _ eq_refl) as (-> & Ha & Hb). auto.
    + inversion H; subst. auto.
Qed.

Lemma span_lines_build p a b :
  List.Forall (fun l => p l = true) a ->
  match b with [] => True | l :: _ => p l = false end ->
  span_lines p (a ++ b) = (a, b).
Proof.
  intros Ha Hb. induction Ha as [|l a Hl _ IH]; simpl.
  - destruct b as [|l b]; [reflexivity|]. simpl. now rewrite Hb.
  - now rewrite Hl, IH.
Qed.

(** A line of the skipped shape is taken as a row by the loop that
    collects the rows of a tabular block. *)
Lemma skipped_shape_row l :
  skipped_shape l = true ->
  negb (endsWith ":" (trim l)) && negb (key_line_shape (trim l)) = true.
Proof.
  unfold skipped_shape, key_line_shape. intros H.
  apply andb_true_iff in H as [-> H]. apply Z.leb_le in H.
  destruct (0 <? indexOf ":" (trim l))%Z eqn:E; [|reflexivity].
  apply Z.ltb_lt in E. lia.
Qed.

Lemma skipped_shape_body nested result l rest :
  skipped_shape l = true -> loop_body nested result l rest = Ok (result, rest).
Proof.
  unfold skipped_shape. intros H. apply andb_true_iff in H as [H1 H2].
  apply loop_body_skip.
  - now destruct (endsWith ":" (trim l)).
  - now apply Z.leb_le.
Qed.

(** A turn that stops before a line of the skipped shape does the same
    without that line. *)
Lemma loop_body_remove nested result l1 rest1 result' pre' l post :
  loop_body nested result l1 rest1 = Ok (result', (pre' ++ l :: post)%list) ->
  skipped_shape l = true ->
  exists consumed,
    rest1 = (consumed ++ pre' ++ l :: post)%list
    /\ loop_body nested result l1 (consumed ++ pre' ++ post)%list
       = Ok (result', (pre' ++ post)%list).
Proof.
  intros H Hl. unfold loop_body in *.
  destruct (String.eqb (trim l1) EmptyString).
  { inversion H; subst. now exists []. }
  destruct (endsWith ":" (trim l1)).
  - destruct rest1 as [|next rest1'].
    { inversion H as [[Hres E]]. now destruct pre'. }
    destruct (header_shape (trim next)) eqn:Hs.
    + destruct (span_lines _ rest1') as [rows after] eqn:E.
      apply span_lines_spec in E as (-> & Hrows & Hhead).
      destruct (parseToonArray (trim next :: rows)) as [arr| |] eqn:Ea;
        simpl in H; try discriminate.
      inversion H; subst.
      exists (next :: rows). split; [reflexivity|].
      cbn [List.app]. rewrite Hs.
      rewrite (span_lines_build _ rows (pre' ++ post) Hrows).
      * now rewrite Ea.
      * destruct pre' as [|x pre']; simpl in *.
        -- rewrite (skipped_shape_row _ Hl) in Hhead. discriminate.
        -- exact Hhead.
    + rewrite startsWith_indent_trim in H. inversion H; subst.
      exists [next]. split; [reflexivity|].
      cbn [List.app]. now rewrite Hs, startsWith_indent_trim.
  - destruct (0 <? indexOf ":" (trim l1))%Z; inversion H; subst; now exists [].
Qed.

Lemma reaches_remove pre l post result lines :
  reaches (pre ++ l :: post) result lines ->
  skipped_shape l = true ->
  forall pre', lines = (pre' ++ l :: post)%list ->
               reaches (pre ++ post) result (pre' ++ post).
Proof.
  intros Hr Hl.
  induction Hr as [|result l1 rest1 result' lines' _ IH Hb]; intros pre' E.
  - apply List.app_inv_tail in E as <-. apply reaches_start.
  - subst lines'.
    destruct (loop_body_remove _ _ _ _ _ _ _ _ Hb Hl) as (consumed & -> & Hb').
    specialize (IH (l1 :: consumed ++ pre')%list).
    rewrite <- List.app_comm_cons, <- List.app_assoc in IH.
    specialize (IH eq_refl).
    rewrite <- List.app_comm_cons, <- List.app_assoc in IH.
    eapply reaches_turn; eauto.
Qed.

(** C10, as stated, fails: in the lines [a:] and [x], the line [x] has
    no colon, but it is read as the value of the bare key line before
    it; without it the key [a] gets [null]. *)
Lemma C10_skipped_line_counterexample :
  skipped_shape "x" = true
  /\ parseToonObject (["a:"] ++ "x" :: []) = Ok (VObject [("a", VString "x")])
  /\ parseToonObject (["a:"] ++ []) = Ok (VObject [("a", VNull)]).
Proof. repeat split; reflexivity. Qed.

(** C10, amended: during object parsing, a line that does not end with
    a colon and whose first colon is absent or at position 0 is skipped
    when a turn of the loop starts at it, that is when it has not been
    consumed as the value line of a bare key line or as a row of a
    tabular block before it: that turn changes nothing, and the result,
    object or error, is the one obtained from the same lines with that
    line removed. *)
Theorem C10_skipped_line (pre post : list string) (l : string) (result : jsobj) :
  skipped_shape l = true ->
  reaches (pre ++ l :: post) result (l :: post) ->
  loop_body (run JsObject.empty) result l post = Ok (result, post)
  /\ parseToonObject (pre ++ l :: post) = parseToonObject (pre ++ post).
Proof.
  intros Hl Hr. split; [now apply skipped_shape_body|].
  rewrite !parseToonObject_run.
  rewrite (reaches_run _ _ _ Hr).
  rewrite (run_cons (run JsObject.empty)), (skipped_shape_body _ _ _ _ Hl).
  simpl.
  pose proof (reaches_remove pre l post result (l :: post) Hr Hl [] eq_refl) as Hr'.
  now rewrite (reaches_run _ _ _ Hr').
Qed.

Lemma C10_skipped_line_witness :
  parseToonObject (["a: 1"] ++ "x" :: ["b: 2"])
  = parseToonObject (["a: 1"] ++ ["b: 2"]).
Proof.
  apply (C10_skipped_line ["a: 1"] ["b: 2"] "x"
           (assign "a" (parseToonValue "1") JsObject.empty)).
  - reflexivity.
  - apply (reaches_turn _ JsObject.empty "a: 1" ["x"; "b: 2"]).
    + apply reaches_start.
    + reflexivity.
Defined.

(* ================================================================== *)
(** * Lines and cells *)
(* ================================================================== *)

Lemma trimEnd_app a b :
  JsString.forallb is_ws b = false -> trimEnd (a ++ b) = a ++ trimEnd b.
Proof.
  intros Hb. induction a as [|c a IH]; [reflexivity|].
  change (String c a ++ b) with (String c (a ++ b)).
  rewrite trimEnd_cons, forallb_app, Hb, andb_false_r, andb_false_r, IH.
  reflexivity.
Qed.

Lemma trimStart_trimEnd s : trimStart (trimEnd s) = trimEnd (trimStart s).
Proof.
  induction s as [|c s IH]; [reflexivity|].
  rewrite trimEnd_cons.
  destruct (is_ws c) eqn:Hc.
  - rewrite (trimStart_ws_head _ _ Hc). simpl andb.
    destruct (JsString.forallb is_ws s) eqn:Hs.
    + now rewrite (trimStart_blank _ Hs).
    + now rewrite (trimStart_ws_head _ _ Hc).
  - simpl andb. rewrite !(trimStart_nonws_head _ _ Hc).
    now rewrite (trimEnd_nonws_head _ _ Hc).
Qed.

Lemma trim_trimEnd s : trim (trimEnd s) = trim s.
Proof. unfold trim. now rewrite trimStart_trimEnd, trimEnd_idem. Qed.

Lemma trim_fixed_trimEnd s : trim s = s -> trimEnd s = s.
Proof. intros H. rewrite <- H at 1. unfold trim. now rewrite trimEnd_idem. Qed.

Lemma blank_trimEnd s :
  JsString.forallb is_ws (trimEnd s) = JsString.forallb is_ws s.
Proof.
  destruct (JsString.forallb is_ws s) eqn:B.
  - now rewrite (trimEnd_blank _ B).
  - destruct (JsString.forallb is_ws (trimEnd s)) eqn:B'; [|reflexivity].
    apply trimEnd_blank in B'. rewrite trimEnd_idem in B'.
    apply trimEnd_empty_inv in B'. congruence.
Qed.

Lemma nonblank_trimEnd s : nonblank (trimEnd s) = nonblank s.
Proof. now rewrite !nonblank_spec, blank_trimEnd. Qed.

Lemma excludes_trimEnd c s :
  includes c s = false -> includes c (trimEnd s) = false.
Proof.
  intros H. destruct (includes c (trimEnd s)) eqn:E; [|reflexivity].
  apply includes_trimEnd in E. congruence.
Qed.

(** *** [join] and [split] *)

Lemma join_cons sep l l' r :
  join sep (l :: l' :: r) = l ++ sep ++ join sep (l' :: r).
Proof. reflexivity. Qed.

Lemma split_app_sep sep a b :
  includes sep a = false ->
  split sep (a ++ String sep b) = a :: split sep b.
Proof.
  induction a as [|c a IH]; simpl.
  - now rewrite Ascii.eqb_refl.
  - destruct (Ascii.eqb c sep); [discriminate|].
    simpl. intros H. now rewrite (IH H).
Qed.

(** Splitting a joined list of parts gives the parts back, when there
    is a part and no part holds the separator. *)
Lemma split_join sep parts :
  parts <> [] ->
  List.Forall (fun p => includes sep p = false) parts ->
  split sep (join (String sep EmptyString) parts) = parts.
Proof.
  intros Hne H. induction H as [|p r Hp Hr IH]; [congruence|].
  destruct r as [|p' r].
  - simpl. now apply split_absent.
  - rewrite join_cons.
    change (p ++ String sep EmptyString ++ join (String sep EmptyString) (p' :: r))
      with (p ++ String sep (join (String sep EmptyString) (p' :: r))).
    rewrite (split_app_sep _ _ _ Hp), IH; [reflexivity | discriminate].
Qed.

Lemma blank_join_cons sep l r :
  JsString.forallb is_ws l = false ->
  JsString.forallb is_ws (join sep (l :: r)) = false.
Proof.
  intros H. destruct r as [|l' r]; [exact H|].
  now rewrite join_cons, forallb_app, H.
Qed.

(** *** The lines of a text that is trimmed *)

Lemma trimEnd_join lines :
  List.Forall (fun l => nonblank l = true) lines ->
  trimEnd (join nl lines) = join nl (trim_last lines).
Proof.
  induction 1 as [|l r Hl Hr IH]; [reflexivity|].
  destruct r as [|l' r]; [reflexivity|].
  rewrite join_cons. change (trim_last (l :: l' :: r)) with (l :: trim_last (l' :: r)).
  assert (B : JsString.forallb is_ws (join nl (l' :: r)) = false).
  { apply blank_join_cons. inversion Hr as [|? ? H' _]; subst.
    rewrite nonblank_spec in H'. now destruct (JsString.forallb is_ws l'). }
  rewrite <- append_assoc, trimEnd_app, IH by exact B.
  rewrite append_assoc.
  destruct (trim_last (l' :: r)) eqn:E; [|reflexivity].
  destruct r; discriminate.
Qed.

Lemma trim_last_Forall (P : string -> Prop) lines :
  (forall l, P l -> P (trimEnd l)) ->
  List.Forall P lines -> List.Forall P (trim_last lines).
Proof.
  intros HP. induction 1 as [|l r Hl Hr IH]; [constructor|].
  destruct r as [|l' r].
  - constructor; auto.
  - change (trim_last (l :: l' :: r)) with (l :: trim_last (l' :: r)).
    constructor; auto.
Qed.

Lemma trim_last_nonempty lines : lines <> [] -> trim_last lines <> [].
Proof. destruct lines as [|l [|l' r]]; simpl; congruence. Qed.

Lemma filter_all {A} (p : A -> bool) l :
  List.Forall (fun x => p x = true) l -> List.filter p l = l.
Proof.
  induction 1 as [|x r Hx _ IH]; [reflexivity|].
  simpl. now rewrite Hx, IH.
Qed.

(** The lines [toonToJson] works on, for a text given by its lines: the
    same lines, the last one without the white space at its end, when no
    line is blank or holds a line feed and the first one does not begin
    with white space. *)
Lemma toon_lines_join l0 r :
  trimStart l0 = l0 ->
  List.Forall (fun l => nonblank l = true) (l0 :: r) ->
  List.Forall (fun l => includes "010" l = false) (l0 :: r) ->
  toon_lines (join nl (l0 :: r)) = trim_last (l0 :: r).
Proof.
  intros H0 Hnb Hnl. unfold toon_lines, trim.
  assert (S : trimStart (join nl (l0 :: r)) = join nl (l0 :: r)).
  { destruct l0 as [|c l0].
    - inversion Hnb; subst. discriminate.
    - assert (Hc : is_ws c = false).
      { simpl in H0. destruct (is_ws c); [|reflexivity].
        exfalso. clear -H0.
        assert (L : (String.length (trimStart l0) <= String.length l0)%nat).
        { clear. induction l0 as [|d l0 IH]; simpl; [lia|].
          destruct (is_ws d); simpl; lia. }
        rewrite H0 in L. simpl in L. lia. }
      destruct r as [|l' r]; [exact H0|].
      rewrite join_cons. simpl. now rewrite Hc. }
  rewrite S, (trimEnd_join _ Hnb).
  change nl with (String "010" EmptyString).
  rewrite split_join.
  - apply filter_all. apply trim_last_Forall; [|exact Hnb].
    intros l Hl. now rewrite nonblank_trimEnd.
  - apply trim_last_nonempty. discriminate.
  - apply trim_last_Forall; [|exact Hnl].
    intros l. apply excludes_trimEnd.
Qed.

(** *** The cells of a row *)

Lemma split_nonempty sep s : split sep s <> [].
Proof.
  destruct s as [|c s]; simpl; [discriminate|].
  destruct (Ascii.eqb c sep); [discriminate|].
  destruct (split sep s); discriminate.
Qed.

Lemma split_cons sep c s :
  split sep (String c s)
  = if Ascii.eqb c sep then EmptyString :: split sep s
    else match split sep s with
         | h :: t => String c h :: t
         | [] => [String c EmptyString]
         end.
Proof. reflexivity. Qed.

Lemma split_blank sep s :
  is_ws sep = false -> JsString.forallb is_ws s = true -> split sep s = [s].
Proof.
  intros Hsep Hs. apply split_absent.
  now apply forallb_excludes with (p := is_ws).
Qed.

Lemma trimEnd_cells sep s :
  is_ws sep = false ->
  List.map trimEnd (split sep (trimEnd s)) = List.map trimEnd (split sep s).
Proof.
  intros Hsep. induction s as [|c s IH]; [reflexivity|].
  rewrite trimEnd_cons.
  destruct (is_ws c && JsString.forallb is_ws s) eqn:B.
  - assert (B' : JsString.forallb is_ws (String c s) = true) by exact B.
    rewrite (split_blank sep (String c s) Hsep B').
    change (List.map trimEnd [String c s]) with [trimEnd (String c s)].
    now rewrite (trimEnd_blank _ B').
  - rewrite !split_cons. destruct (Ascii.eqb c sep).
    + cbn [List.map]. now rewrite IH.
    + pose proof (split_nonempty sep (trimEnd s)) as N1.
      pose proof (split_nonempty sep s) as N2.
      destruct (split sep (trimEnd s)) as [|h' t']; [congruence|].
      destruct (split sep s) as [|h t]; [congruence|].
      cbn [List.map] in *. injection IH as Hh Ht.
      rewrite Ht. f_equal.
      rewrite !trimEnd_cons.
      now rewrite <- (blank_trimEnd h'), Hh, blank_trimEnd.
Qed.

Lemma trim_as_trimStart_trimEnd s : trim s = trimStart (trimEnd s).
Proof. unfold trim. now rewrite trimStart_trimEnd. Qed.

(** Removing the white space at the end of a row does not change its
    trimmed cells. *)
Lemma trim_cells_trimEnd s :
  List.map trim (split "," (trimEnd s)) = List.map trim (split "," s).
Proof.
  assert (E : forall l, List.map trim l = List.map trimStart (List.map trimEnd l)).
  { intros l. rewrite List.map_map. apply List.map_ext.
    intros x. apply trim_as_trimStart_trimEnd. }
  now rewrite !E, trimEnd_cells.
Qed.

(* ================================================================== *)
(** * Tabular blocks *)
(* ================================================================== *)

Lemma strip_brace_colon_cons c r :
  strip_brace_colon (String c r)
  = if Ascii.eqb c "}" && String.eqb r ":" then Some EmptyString
    else option_map (String c) (strip_brace_colon r).
Proof.
  destruct c as [[|] [|] [|] [|] [|] [|] [|] [|]]; try reflexivity.
  destruct r as [|d r']; [reflexivity|].
  destruct d as [[|] [|] [|] [|] [|] [|] [|] [|]]; try reflexivity.
  destruct r'; reflexivity.
Qed.

Lemma strip_brace_colon_build mid : strip_brace_colon (mid ++ "}:") = Some mid.
Proof.
  induction mid as [|c mid IH]; [reflexivity|].
  change (String c mid ++ "}:") with (String c (mid ++ "}:")).
  rewrite strip_brace_colon_cons, IH.
  destruct (String.eqb_spec (mid ++ "}:") ":") as [E|_].
  - destruct mid as [|d [|d' mid]]; discriminate.
  - now rewrite andb_false_r.
Qed.

(** A line built as a header has the header shape. *)
Lemma header_parts_build digits mid :
  digits <> EmptyString ->
  JsString.forallb is_digit digits = true ->
  JsString.forallb (fun c => negb (is_line_terminator c)) mid = true ->
  header_parts ("[" ++ digits ++ "]{" ++ mid ++ "}:") = Some (digits, mid).
Proof.
  intros Hne Hd Hm. unfold header_parts.
  change ("[" ++ digits ++ "]{" ++ mid ++ "}:")
    with (String "[" (digits ++ String "]" (String "{" (mid ++ "}:")))).
  cbv iota beta.
  rewrite (span_build is_digit digits (String "]" (String "{" (mid ++ "}:"))) Hd eq_refl).
  destruct digits as [|d digits]; [congruence|].
  now rewrite strip_brace_colon_build, Hm.
Qed.

Lemma header_match_build digits cols :
  digits <> EmptyString -> cols <> EmptyString ->
  JsString.forallb is_digit digits = true ->
  JsString.forallb (fun c => negb (is_line_terminator c)) cols = true ->
  header_match ("[" ++ digits ++ "]{" ++ cols ++ "}:") = Some (digits, cols)
  /\ header_shape ("[" ++ digits ++ "]{" ++ cols ++ "}:") = true.
Proof.
  intros Hd Hc Hds Hcs. unfold header_match, header_shape.
  rewrite (header_parts_build _ _ Hd Hds Hcs).
  destruct cols; [congruence | auto].
Qed.

Lemma parseInt_of_N n : parseInt (of_N n) = n.
Proof.
  unfold parseInt, of_N. now rewrite NilEmpty.usu, DecimalN.Unsigned.of_to.
Qed.

(** The row loop builds one item for each of the first [count] rows. *)
Lemma rows_loop_firstn count keys lines result :
  rows_loop count keys lines result
  = (result ++ List.map (row_item keys)
              (List.firstn (N.to_nat count - List.length result) lines))%list.
Proof.
  revert result. induction lines as [|line lines IH]; intros result.
  - simpl. rewrite List.firstn_nil. simpl. now rewrite List.app_nil_r.
  - simpl. destruct (N.of_nat (List.length result) <? count)%N eqn:E.
    + apply N.ltb_lt in E. rewrite IH, List.length_app. simpl.
      replace (N.to_nat count - List.length result)%nat
        with (S (N.to_nat count - (List.length result + 1)))%nat by lia.
      simpl. now rewrite <- List.app_assoc.
    + apply N.ltb_ge in E.
      replace (N.to_nat count - List.length result)%nat with 0%nat by lia.
      simpl. now rewrite List.app_nil_r.
Qed.

Lemma trim_fixed c s :
  is_ws c = false -> trimEnd (String c s) = String c s ->
  trim (String c s) = String c s.
Proof.
  intros Hc H. unfold trim. now rewrite (trimStart_nonws_head _ _ Hc).
Qed.

Lemma trimEnd_app_colon s : trimEnd (s ++ "}:") = s ++ "}:".
Proof. now rewrite trimEnd_app. Qed.

Lemma header_trim digits cols :
  trim ("[" ++ digits ++ "]{" ++ cols ++ "}:") = "[" ++ digits ++ "]{" ++ cols ++ "}:".
Proof.
  change ("[" ++ digits ++ "]{" ++ cols ++ "}:")
    with (String "[" (digits ++ "]{" ++ cols ++ "}:")).
  apply trim_fixed; [reflexivity|].
  change (String "[" (digits ++ "]{" ++ cols ++ "}:"))
    with ("[" ++ digits ++ "]{" ++ cols ++ "}:").
  rewrite <- !append_assoc. apply trimEnd_app_colon.
Qed.

(* ================================================================== *)
(** * Properties of objects *)
(* ================================================================== *)

Section OwnProperties.
Context {V : Type}.
Implicit Types (props : list (string * V)) (key : string) (v : V).

Lemma get_update_eq key v props :
  has_own key props = true -> get key (update key v props) = Some v.
Proof.
  induction props as [|[k w] r IH]; simpl; [discriminate|].
  destruct (String.eqb k key) eqn:E; simpl; rewrite E; [reflexivity | exact IH].
Qed.

Lemma get_update_neq key key' v props :
  key <> key' -> get key (update key' v props) = get key props.
Proof.
  intros Hne. induction props as [|[k w] r IH]; simpl; [reflexivity|].
  destruct (String.eqb_spec k key') as [->|Hk]; simpl.
  - destruct (String.eqb_spec key' key); [congruence | reflexivity].
  - now rewrite IH.
Qed.

Lemma get_insert_index_eq n key v props :
  has_own key props = false -> get key (insert_index n key v props) = Some v.
Proof.
  induction props as [|[k w] r IH]; simpl.
  - now rewrite String.eqb_refl.
  - intros H. apply orb_false_iff in H as [Hk Hr].
    destruct (array_index k) as [n'|].
    + destruct (n <? n')%N; simpl.
      * now rewrite String.eqb_refl.
      * rewrite Hk. now apply IH.
    + simpl. now rewrite String.eqb_refl.
Qed.

Lemma get_insert_index_neq n key key' v props :
  key <> key' -> get key (insert_index n key' v props) = get key props.
Proof.
  intros Hne. apply not_eq_sym, String.eqb_neq in Hne.
  induction props as [|[k w] r IH]; simpl.
  - now rewrite Hne.
  - destruct (array_index k) as [n'|].
    + destruct (n <? n')%N; simpl.
      * now rewrite Hne.
      * now rewrite IH.
    + simpl. now rewrite Hne.
Qed.

Lemma get_app_eq key v props :
  has_own key props = false -> get key (props ++ [(key, v)])%list = Some v.
Proof.
  induction props as [|[k w] r IH]; simpl.
  - now rewrite String.eqb_refl.
  - intros H. apply orb_false_iff in H as [Hk Hr]. rewrite Hk. now apply IH.
Qed.

Lemma get_app_neq key key' v props :
  key <> key' -> get key (props ++ [(key', v)])%list = get key props.
Proof.
  intros Hne. apply not_eq_sym, String.eqb_neq in Hne.
  induction props as [|[k w] r IH]; simpl.
  - now rewrite Hne.
  - now rewrite IH.
Qed.

(** Reading a property after it has been written. *)
Lemma get_define_own_eq key v props :
  get key (define_own key v props) = Some v.
Proof.
  unfold define_own. destruct (has_own key props) eqn:H.
  - now apply get_update_eq.
  - destruct (array_index key).
    + now apply get_insert_index_eq.
    + now apply get_app_eq.
Qed.

(** Writing a property does not change the others. *)
Lemma get_define_own_neq key key' v props :
  key <> key' -> get key (define_own key' v props) = get key props.
Proof.
  intros Hne. unfold define_own. destruct (has_own key' props).
  - now apply get_update_neq.
  - destruct (array_index key').
    + now apply get_insert_index_neq.
    + now apply get_app_neq.
Qed.

Lemma has_own_In key props :
  has_own key props = true <-> List.In key (List.map fst props).
Proof.
  induction props as [|[k w] r IH]; simpl.
  - split; [discriminate | contradiction].
  - rewrite orb_true_iff, IH, String.eqb_eq. reflexivity.
Qed.

Lemma insert_index_append n key v props :
  array_index key = Some n ->
  List.Forall (fun p => key_before (fst p) key) props ->
  insert_index n key v props = (props ++ [(key, v)])%list.
Proof.
  intros Hk. induction 1 as [|[k w] r Hb _ IH]; [reflexivity|].
  simpl. unfold key_before in Hb. simpl in Hb. rewrite Hk in Hb.
  destruct (array_index k) as [n'|]; [|contradiction].
  destruct (n <? n')%N eqn:E.
  - apply N.ltb_lt in E. lia.
  - now rewrite IH.
Qed.

(** A new property that [Object.keys] lists after all the properties of
    the object is added at the end. *)
Lemma define_own_append key v props :
  ~ List.In key (List.map fst props) ->
  List.Forall (fun p => key_before (fst p) key) props ->
  define_own key v props = (props ++ [(key, v)])%list.
Proof.
  intros Hn Hb. unfold define_own.
  destruct (has_own key props) eqn:H.
  - apply has_own_In in H. contradiction.
  - destruct (array_index key) eqn:E; [|reflexivity].
    now apply insert_index_append.
Qed.

End OwnProperties.

(** *** Assignments *)

Lemma own_assign key v o :
  key <> "__proto__" -> own (assign key v o) = define_own key v (own o).
Proof.
  intros H. apply String.eqb_neq in H. unfold assign. now rewrite H.
Qed.

Lemma proto_accessor_assign key v o :
  key <> "__proto__" -> proto_accessor (assign key v o) = proto_accessor o.
Proof.
  intros H. apply String.eqb_neq in H. unfold assign. now rewrite H.
Qed.

Lemma get_assign_eq key v o :
  key <> "__proto__" -> get key (own (assign key v o)) = Some v.
Proof. intros H. rewrite (own_assign _ _ _ H). apply get_define_own_eq. Qed.

Lemma get_assign_neq key key' v o :
  key <> key' -> get key (own (assign key' v o)) = get key (own o).
Proof.
  intros H. unfold assign.
  destruct (String.eqb key' "__proto__" && proto_accessor o); simpl.
  - reflexivity.
  - now apply get_define_own_neq.
Qed.

Lemma assign_all_cons key v pairs o :
  assign_all ((key, v) :: pairs) o = assign_all pairs (assign key v o).
Proof. reflexivity. Qed.

Lemma StronglySorted_app_before {A} (R : A -> A -> Prop) a b c :
  StronglySorted R (a ++ b :: c) -> List.Forall (fun x => R x b) a.
Proof.
  induction a as [|x a IH]; simpl; intros H; [constructor|].
  inversion H as [|? ? Hs Hf]; subst. constructor.
  - rewrite List.Forall_forall in Hf. apply Hf.
    apply List.in_or_app. right. now left.
  - now apply IH.
Qed.

(** Assigning, in order, properties that [Object.keys] lists in that
    order after those of the object adds them at the end. *)
Lemma own_assign_all pairs :
  forall o,
    List.Forall (fun kv => fst kv <> "__proto__") pairs ->
    keys_in_order (List.map fst (own o) ++ List.map fst pairs) ->
    own (assign_all pairs o) = (own o ++ pairs)%list.
Proof.
  induction pairs as [|[key v] pairs IH]; intros o Hp [Hnd Hs].
  - simpl. now rewrite List.app_nil_r.
  - inversion Hp as [|? ? Hk Hp']; subst. simpl in Hk.
    rewrite assign_all_cons.
    assert (E : own (assign key v o) = (own o ++ [(key, v)])%list).
    { rewrite (own_assign _ _ _ Hk). apply define_own_append.
      - simpl in Hnd. apply List.NoDup_remove_2 in Hnd.
        intros Hin. apply Hnd. apply List.in_or_app. now left.
      - simpl in Hs. apply StronglySorted_app_before in Hs.
        now rewrite List.Forall_map in Hs. }
    rewrite IH; [| exact Hp' |].
    + rewrite E, <- List.app_assoc. reflexivity.
    + rewrite E, List.map_app, <- List.app_assoc. simpl. now split.
Qed.

Lemma get_assign_all_notin key pairs :
  forall o,
    ~ List.In key (List.map fst pairs) ->
    get key (own (assign_all pairs o)) = get key (own o).
Proof.
  induction pairs as [|[k v] pairs IH]; intros o Hn; [reflexivity|].
  rewrite assign_all_cons, IH.
  - apply get_assign_neq. intros ->. apply Hn. now left.
  - intros Hin. apply Hn. now right.
Qed.

(** After successive assignments a property other than [__proto__] holds
    the value of the last assignment to it. *)
Lemma get_assign_all key v before after :
  forall o,
    key <> "__proto__" ->
    ~ List.In key (List.map fst after) ->
    get key (own (assign_all (before ++ (key, v) :: after) o)) = Some v.
Proof.
  induction before as [|[k w] before IH]; intros o Hk Hn.
  - simpl List.app. rewrite assign_all_cons, (get_assign_all_notin _ _ _ Hn).
    now apply get_assign_eq.
  - simpl List.app. rewrite assign_all_cons. now apply IH.
Qed.

(** *** The items of [parseToonArray] *)

(** The pairs assigned by the [forEach] of [parseToonArray] from the
    column [index] on. *)
Lemma fill_item_assign_all keys :
  forall index values item,
    fill_item keys index values item
    = assign_all
        (List.combine keys
           (List.map (fun j => parseToonValue (List.nth j values EmptyString))
              (List.seq index (List.length keys))))
        item.
Proof.
  induction keys as [|key keys IH]; intros index values item; [reflexivity|].
  simpl. now rewrite IH.
Qed.

Lemma map_nth_seq {A B} (f : A -> B) (l : list A) d :
  List.map (fun j => f (List.nth j l d)) (List.seq 0 (List.length l))
  = List.map f l.
Proof.
  assert (G : forall pre,
             List.map (fun j => f (List.nth j (pre ++ l) d))
               (List.seq (List.length pre) (List.length l)) = List.map f l).
  { induction l as [|x l IH]; intros pre; [reflexivity|].
    simpl. rewrite List.app_nth2, Nat.sub_diag by lia. simpl. f_equal.
    specialize (IH (pre ++ [x])%list).
    rewrite List.length_app, <- List.app_assoc in IH. simpl in IH.
    now rewrite Nat.add_1_r in IH. }
  exact (G []).
Qed.

Lemma combine_app_same {A B} (a b : list A) (x y : list B) :
  List.length a = List.length x ->
  List.combine (a ++ b) (x ++ y) = (List.combine a x ++ List.combine b y)%list.
Proof.
  revert x. induction a as [|h a IH]; intros [|hx x] H; simpl in *;
    try discriminate; [reflexivity|].
  f_equal. apply IH. now injection H.
Qed.

Lemma map_fst_combine_incl {A B} (a : list A) (x : list B) k :
  List.In k (List.map fst (List.combine a x)) -> List.In k a.
Proof.
  revert x. induction a as [|h a IH]; intros [|hx x]; simpl; try contradiction.
  intros [<-|H]; [now left | right; eauto].
Qed.

(** In the item of a row, a column key other than [__proto__] that is
    not repeated further in the header holds the parsed cell of its
    column, the empty text standing for a missing cell. *)
Lemma row_item_get before key after line :
  key <> "__proto__" -> ~ List.In key after ->
  prop_of key (row_item (before ++ key :: after) line)
  = Some (parseToonValue
            (List.nth (List.length before) (List.map trim (split "," line))
               EmptyString)).
Proof.
  intros Hk Hn. unfold row_item, prop_of.
  set (values := List.map trim (split "," line)).
  rewrite fill_item_assign_all.
  rewrite List.length_app. simpl List.length.
  rewrite List.seq_app, List.map_app. simpl List.seq. simpl List.map.
  rewrite combine_app_same by now rewrite List.length_map, List.length_seq.
  simpl List.combine.
  apply get_assign_all; [exact Hk|].
  intros Hin. apply map_fst_combine_incl in Hin. contradiction.
Qed.

Lemma row_item_trimEnd keys line :
  row_item keys (trimEnd line) = row_item keys line.
Proof. unfold row_item. now rewrite trim_cells_trimEnd. Qed.

Lemma map_trim_last {A} (f : string -> A) lines :
  (forall l, f (trimEnd l) = f l) ->
  List.map f (trim_last lines) = List.map f lines.
Proof.
  intros Hf. induction lines as [|l r IH]; [reflexivity|].
  destruct r as [|l' r].
  - simpl. now rewrite Hf.
  - change (trim_last (l :: l' :: r)) with (l :: trim_last (l' :: r)).
    change (List.map f (l :: trim_last (l' :: r)))
      with (f l :: List.map f (trim_last (l' :: r))).
    rewrite IH. reflexivity.
Qed.

Lemma header_shape_not_literal s :
  header_shape s = true -> String.eqb s "[]:" = false /\ String.eqb s "{}:" = false.
Proof.
  intros H. split.
  - destruct (String.eqb_spec s "[]:") as [->|]; [discriminate | reflexivity].
  - destruct (String.eqb_spec s "{}:") as [->|]; [discriminate | reflexivity].
Qed.

Lemma line_terminator_free s :
  JsString.forallb (fun c => negb (is_line_terminator c)) s = true ->
  includes "010" s = false.
Proof. now apply forallb_excludes. Qed.

Lemma digits_line_feed_free s :
  JsString.forallb is_digit s = true -> includes "010" s = false.
Proof. now apply forallb_excludes. Qed.

(** Decoding a tabular block given by its header and its rows. *)
Lemma toonToJson_tabular digits cols rows :
  digits <> EmptyString -> JsString.forallb is_digit digits = true ->
  cols <> EmptyString ->
  JsString.forallb (fun c => negb (is_line_terminator c)) cols = true ->
  List.Forall (fun row => nonblank row = true) rows ->
  List.Forall (fun row => includes "010" row = false) rows ->
  toonToJson (join nl (("[" ++ digits ++ "]{" ++ cols ++ "}:") :: rows))
  = Ok (VArray
          (List.map (row_item (List.map trim (split "," cols)))
             (List.firstn (N.to_nat (parseInt digits)) rows))).
Proof.
  intros Hd Hds Hc Hcs Hnb Hnl.
  set (header := "[" ++ digits ++ "]{" ++ cols ++ "}:").
  destruct (header_match_build digits cols Hd Hc Hds Hcs) as [Hm Hs].
  fold header in Hm, Hs.
  assert (Ht : trim header = header) by apply header_trim.
  rewrite toonToJson_lines, toon_lines_join.
  - assert (L : exists rows', trim_last (header :: rows) = header :: rows'
                /\ List.map (row_item (List.map trim (split "," cols))) rows'
                   = List.map (row_item (List.map trim (split "," cols))) rows).
    { destruct rows as [|row rows].
      - exists []. split; [|reflexivity].
        change (trim_last [header]) with [trimEnd header].
        f_equal. now apply trim_fixed_trimEnd.
      - exists (trim_last (row :: rows)). split; [reflexivity|].
        apply map_trim_last. intros l. apply row_item_trimEnd. }
    destruct L as (rows' & -> & Hrows).
    cbv zeta. rewrite Ht.
    destruct (header_shape_not_literal _ Hs) as [-> ->]. rewrite Hs.
    unfold parseToonArray. rewrite Ht, Hm.
    rewrite rows_loop_firstn. simpl List.app. simpl List.length.
    rewrite Nat.sub_0_r, <- !List.firstn_map, Hrows. reflexivity.
  - unfold header. simpl. reflexivity.
  - constructor; [|exact Hnb].
    rewrite nonblank_spec. unfold header. reflexivity.
  - constructor; [|exact Hnl].
    unfold header. rewrite !includes_app.
    rewrite (digits_line_feed_free _ Hds), (line_terminator_free _ Hcs).
    reflexivity.
Qed.

(** C5, as stated, fails.  With the header [[1]{a,a}:] and the row [1,2]
    the item has the single property [a], holding 2, the cell of the last
    column of that name: the first column key is not mapped to its cell,
    which holds 1.  And with the header [[2]{a}:] followed by an empty
    row and the row [x], two row lines for a declared count of two, the
    array has one item, because blank lines are removed before the rows
    are read. *)
Lemma C5_tabular_block_counterexample :
  toonToJson ("[1]{a,a}:" ++ nl ++ "1,2")
  = Ok (VArray [VObject [("a", VNumber (JsNumber.of_Z 2))]])
  /\ parseToonValue (List.nth 0 (List.map trim (split "," "1,2")) EmptyString)
     = VNumber (JsNumber.of_Z 1)
  /\ prop_of "a" (VObject [("a", VNumber (JsNumber.of_Z 2))])
     <> Some (VNumber (JsNumber.of_Z 1))
  /\ toonToJson (join nl ["[2]{a}:"; EmptyString; "x"])
     = Ok (VArray [VObject [("a", VString "x")]]).
Proof. repeat split; try reflexivity. discriminate. Qed.

(** C5, amended: for every tabular block whose header declares the count
    [n] and the column keys [k1..km], followed by [r] row lines none of
    which is blank, decoding returns, without error, the array of the
    items of the first [min(n, r)] rows; in the item of a row, every
    column key [kj] that is not repeated further in the header and is
    not [__proto__] is mapped to the scalar parse of the [j]-th trimmed
    cell of the row split at commas, a missing cell counting as the empty
    text (for a repeated key the last column of that name wins).  In
    particular the text [[3]{a,b}:] followed by the rows [1,2], [3,4]
    and [5,6] gives the three objects [{a:1,b:2}], [{a:3,b:4}] and
    [{a:5,b:6}] with numbers as values. *)
Theorem C5_tabular_block (digits cols : string) (rows : list string) :
  digits <> EmptyString -> JsString.forallb is_digit digits = true ->
  cols <> EmptyString ->
  JsString.forallb (fun c => negb (is_line_terminator c)) cols = true ->
  List.Forall (fun row => nonblank row = true) rows ->
  List.Forall (fun row => includes "010" row = false) rows ->
  let keys := List.map trim (split "," cols) in
  let n := N.to_nat (parseInt digits) in
  exists items,
    toonToJson (join nl (("[" ++ digits ++ "]{" ++ cols ++ "}:") :: rows))
    = Ok (VArray items)
    /\ List.length items = Nat.min n (List.length rows)
    /\ (forall i before key after,
           (i < List.length items)%nat ->
           keys = (before ++ key :: after)%list ->
           ~ List.In key after -> key <> "__proto__" ->
           prop_of key (List.nth i items VNull)
           = Some (parseToonValue
                     (List.nth (List.length before)
                        (List.map trim (split "," (List.nth i rows EmptyString)))
                        EmptyString)))
    /\ toonToJson ("[3]{a,b}:" ++ nl ++ "1,2" ++ nl ++ "3,4" ++ nl ++ "5,6")
       = Ok (VArray
               [VObject [("a", VNumber (JsNumber.of_Z 1));
                         ("b", VNumber (JsNumber.of_Z 2))];
                VObject [("a", VNumber (JsNumber.of_Z 3));
                         ("b", VNumber (JsNumber.of_Z 4))];
                VObject [("a", VNumber (JsNumber.of_Z 5));
                         ("b", VNumber (JsNumber.of_Z 6))]]).
Proof.
  intros Hd Hds Hc Hcs Hnb Hnl keys n.
  exists (List.map (row_item keys) (List.firstn n rows)).
  split; [now apply toonToJson_tabular|].
  split; [now rewrite List.length_map, List.length_firstn|].
  split; [|reflexivity].
  intros i before key after Hi Hkeys Hn Hk.
  rewrite List.length_map, List.length_firstn in Hi.
  assert (E : List.nth i (List.map (row_item keys) (List.firstn n rows)) VNull
              = row_item keys (List.nth i rows EmptyString)).
  { rewrite List.nth_indep with (d' := row_item keys EmptyString)
      by now rewrite List.length_map, List.length_firstn.
    rewrite List.map_nth, List.nth_firstn.
    destruct (i <? n)%nat eqn:Lt; [reflexivity|].
    apply Nat.ltb_ge in Lt. lia. }
  rewrite E, Hkeys. now apply row_item_get.
Qed.

Lemma C5_tabular_block_witness :
  exists items,
    toonToJson (join nl ["[2]{a,b}:"; "1,2"]) = Ok (VArray items)
    /\ List.length items = 1%nat.
Proof.
  destruct (C5_tabular_block "2" "a,b" ["1,2"]) as (items & H1 & H2 & _);
    [discriminate | reflexivity | discriminate | reflexivity
     | repeat constructor | repeat constructor |].
  exists items. split; [exact H1 | exact H2].
Defined.

(* ================================================================== *)
(** * Round trip of tabular arrays *)
(* ================================================================== *)

Lemma of_N_nonempty n : of_N n <> EmptyString.
Proof.
  unfold of_N. intros H.
  assert (E : NilEmpty.uint_of_string (NilEmpty.string_of_uint (N.to_uint n))
              = Some Decimal.Nil) by now rewrite H.
  rewrite NilEmpty.usu in E. injection E as E.
  pose proof (DecimalN.Unsigned.of_to n) as F. rewrite E in F.
  destruct n as [|p]; [discriminate|].
  simpl in E. unfold N.to_uint in E.
  destruct p; discriminate.
Qed.

Lemma parseToonValue_string x s : parseToonValue x = VString s -> s = x.
Proof.
  unfold parseToonValue.
  destruct (String.eqb x "null"); [discriminate|].
  destruct (String.eqb x "true"); [discriminate|].
  destruct (String.eqb x "false"); [discriminate|].
  destruct (String.eqb_spec x EmptyString) as [->|_]; [now intros [= <-]|].
  destruct (negb (JsNumber.isNaN (JsNumber.Number x))
            && negb (String.eqb (trim x) EmptyString)); [discriminate|].
  now intros [= <-].
Qed.

Lemma parseToonValue_scalar x :
  match parseToonValue x with VArray _ | VObject _ => False | _ => True end.
Proof.
  unfold parseToonValue.
  repeat match goal with
         | |- context [if ?b then _ else _] => destruct b
         end; exact I.
Qed.

Lemma trimEnd_no_ws s :
  JsString.forallb (fun c => negb (is_ws c)) s = true -> trimEnd s = s.
Proof.
  induction s as [|c s IH]; [reflexivity|].
  simpl JsString.forallb. intros H. apply andb_true_iff in H as [Hc Hs].
  apply negb_true_iff in Hc.
  now rewrite (trimEnd_nonws_head _ _ Hc), IH.
Qed.

Lemma trim_no_ws s :
  JsString.forallb (fun c => negb (is_ws c)) s = true -> trim s = s.
Proof.
  intros H. unfold trim.
  destruct s as [|c s]; [reflexivity|].
  pose proof H as H'. simpl in H'. apply andb_true_iff in H' as [Hc _].
  apply negb_true_iff in Hc.
  rewrite (trimStart_nonws_head _ _ Hc). now apply trimEnd_no_ws.
Qed.

Lemma number_char_not_ws c : JsNumber.number_char c = true -> negb (is_ws c) = true.
Proof.
  destruct c as [[|] [|] [|] [|] [|] [|] [|] [|]]; vm_compute; congruence.
Qed.

Lemma trim_toString n : trim (JsNumber.toString n) = JsNumber.toString n.
Proof.
  apply trim_no_ws.
  apply forallb_impl with (p := JsNumber.number_char);
    [apply number_char_not_ws | apply JsNumberFacts.number_chars_toString].
Qed.

(** The text of a leaf that comes back from its cell has no white space
    around it. *)
Lemma cell_value_trimmed v :
  cell_value v -> trim (formatToonValue v) = formatToonValue v.
Proof.
  intros (_ & _ & H).
  destruct v as [|[|]|n|s|items|props]; try reflexivity.
  - apply trim_toString.
  - simpl in *. now apply parseToonValue_string in H.
  - pose proof (parseToonValue_scalar (trim (formatToonValue (VArray items)))) as S.
    rewrite H in S. contradiction.
Qed.

Lemma includes_join c sep parts :
  includes c sep = false ->
  List.Forall (fun p => includes c p = false) parts ->
  includes c (join sep parts) = false.
Proof.
  intros Hsep. induction 1 as [|p r Hp Hr IH]; [reflexivity|].
  destruct r as [|p' r]; [exact Hp|].
  now rewrite join_cons, !includes_app, Hp, Hsep, IH.
Qed.

Lemma forallb_join p sep parts :
  JsString.forallb p sep = true ->
  List.Forall (fun x => JsString.forallb p x = true) parts ->
  JsString.forallb p (join sep parts) = true.
Proof.
  intros Hsep. induction 1 as [|x r Hx Hr IH]; [reflexivity|].
  destruct r as [|x' r]; [exact Hx|].
  now rewrite join_cons, !forallb_app, Hx, Hsep, IH.
Qed.

Lemma join_empty_inv sep parts :
  sep <> EmptyString -> join sep parts = EmptyString -> parts = [] \/ parts = [EmptyString].
Proof.
  intros Hsep. destruct parts as [|p [|p' r]]; simpl.
  - now left.
  - intros ->. now right.
  - intros H. destruct p; [|discriminate]. simpl in H.
    destruct sep; [congruence | discriminate].
Qed.

(** The column keys come back from the header. *)
Lemma header_keys keys :
  keys <> [] -> List.Forall column_key keys ->
  List.map trim (split "," (join "," keys)) = keys.
Proof.
  intros Hne Hk. rewrite split_join.
  - rewrite <- (List.map_id keys) at 2. apply List.map_ext_in.
    intros k Hin. rewrite List.Forall_forall in Hk. now apply Hk.
  - exact Hne.
  - eapply List.Forall_impl; [|exact Hk]. now intros k (_ & H & _).
Qed.

Lemma get_map_fst {V} (props : list (string * V)) :
  List.NoDup (List.map fst props) ->
  List.map (fun key => get key props) (List.map fst props)
  = List.map (fun kv => Some (snd kv)) props.
Proof.
  induction props as [|[k v] r IH]; [reflexivity|].
  simpl. intros Hnd. inversion Hnd as [|? ? Hn Hnd']; subst.
  rewrite String.eqb_refl. f_equal.
  rewrite <- (IH Hnd'). apply List.map_ext_in.
  intros k' Hin. destruct (String.eqb_spec k k') as [->|]; [contradiction | reflexivity].
Qed.

Lemma combine_fst_snd {A B} (l : list (A * B)) :
  List.combine (List.map fst l) (List.map snd l) = l.
Proof.
  induction l as [|[a b] l IH]; [reflexivity|]. simpl. now rewrite IH.
Qed.

(** The row of an item, as [jsonToToon] writes it. *)
Lemma tabular_row_text props :
  List.NoDup (List.map fst props) ->
  join "," (List.map (fun key => formatToonProperty (prop_of key (VObject props)))
              (List.map fst props))
  = row_text props.
Proof.
  intros Hnd. unfold row_text. f_equal.
  change (fun key => formatToonProperty (prop_of key (VObject props)))
    with (fun key => formatToonProperty (get key props)).
  rewrite <- (List.map_map (fun key => get key props) formatToonProperty).
  rewrite (get_map_fst _ Hnd), List.map_map. reflexivity.
Qed.

(** The item of a row is the object the row was written from. *)
Lemma row_item_row_text props :
  props <> [] ->
  keys_in_order (List.map fst props) ->
  List.Forall column_key (List.map fst props) ->
  List.Forall (fun kv => cell_value (snd kv)) props ->
  row_item (List.map fst props) (row_text props) = VObject props.
Proof.
  intros Hne Hord Hkeys Hcells. unfold row_item, row_text. f_equal.
  set (texts := List.map (fun kv => formatToonValue (snd kv)) props).
  assert (Hsplit : split "," (join "," texts) = texts).
  { apply split_join.
    - subst texts. destruct props; [congruence | discriminate].
    - subst texts. rewrite List.Forall_map.
      eapply List.Forall_impl; [|exact Hcells]. now intros kv (H & _). }
  rewrite Hsplit, fill_item_assign_all.
  assert (Hvalues :
            List.map (fun j => parseToonValue (List.nth j (List.map trim texts) EmptyString))
              (List.seq 0 (List.length (List.map fst props)))
            = List.map snd props).
  { replace (List.length (List.map fst props))
      with (List.length (List.map trim texts))
      by (subst texts; now rewrite !List.length_map).
    rewrite (map_nth_seq parseToonValue). subst texts.
    rewrite !List.map_map. apply List.map_ext_in.
    intros kv Hin. rewrite List.Forall_forall in Hcells.
    now destruct (Hcells kv Hin) as (_ & _ & H). }
  rewrite Hvalues, combine_fst_snd, own_assign_all; [reflexivity | |].
  - rewrite <- List.Forall_map with (f := fst) (P := fun k => k <> "__proto__").
    eapply List.Forall_impl; [|exact Hkeys]. now intros k (_ & _ & _ & H).
  - exact Hord.
Qed.

Lemma uniform_tabular_keys keys items :
  items <> [] -> keys <> [] ->
  List.Forall (uniform_item keys) items ->
  tabular_keys items = Some keys.
Proof.
  intros Hi Hk Hu. unfold tabular_keys.
  destruct items as [|firstItem rest]; [congruence|].
  assert (A : allSameStructure keys (firstItem :: rest) = true).
  { unfold allSameStructure. apply List.forallb_forall. intros item Hin.
    rewrite List.Forall_forall in Hu. specialize (Hu item Hin).
    destruct item as [| | | | |props]; try contradiction.
    destruct Hu as (Hf & _). simpl.
    rewrite <- Hf, Nat.eqb_refl. simpl.
    apply List.forallb_forall. intros key Hkey. now apply has_own_In. }
  inversion Hu as [|? ? Hfirst _]; subst.
  destruct firstItem as [| | | | |props]; try contradiction.
  destruct Hfirst as (Hf & _). cbn [is_plain_object keys_of]. cbv zeta.
  rewrite Hf, A.
  destruct keys; [congruence | reflexivity].
Qed.

Lemma uniform_rows keys items :
  keys <> [] -> keys_in_order keys -> List.Forall column_key keys ->
  List.Forall (uniform_item keys) items ->
  List.Forall (fun row => nonblank row = true) (tabular_rows items keys)
  /\ List.Forall (fun row => includes "010" row = false) (tabular_rows items keys)
  /\ List.map (row_item keys) (tabular_rows items keys) = items.
Proof.
  intros Hne Hord Hkeys. induction 1 as [|item rest Hitem _ IH].
  - repeat split; constructor.
  - destruct IH as (IH1 & IH2 & IH3).
    destruct item as [| | | | |props]; try contradiction.
    destruct Hitem as (Hf & Hcells & Hnb). subst keys.
    assert (E : join "," (List.map (fun key => formatToonProperty
                                       (prop_of key (VObject props)))
                            (List.map fst props)) = row_text props)
      by (apply tabular_row_text, Hord).
    change (tabular_rows (VObject props :: rest) (List.map fst props))
      with (join "," (List.map (fun key => formatToonProperty
                                    (prop_of key (VObject props)))
                        (List.map fst props))
              :: tabular_rows rest (List.map fst props)).
    rewrite E. cbn [List.map].
    repeat split.
    + now constructor.
    + constructor; [|exact IH2]. unfold row_text.
      apply includes_join; [reflexivity|]. rewrite List.Forall_map.
      eapply List.Forall_impl; [|exact Hcells]. now intros kv (_ & H & _).
    + f_equal; [|exact IH3].
      apply row_item_row_text; try assumption.
      destruct props; [now contradiction Hne | discriminate].
Qed.

(** C3, as stated, fails: the array [[{a: ''}]] is encoded as the header
    line [[1]{a}:] followed by an empty row, which the decoder drops as a
    blank line, so the decoded array is empty. *)
Lemma C3_tabular_round_trip_counterexample :
  jsonToToon (VArray [VObject [("a", VString EmptyString)]]) = "[1]{a}:" ++ nl
  /\ toonToJson (jsonToToon (VArray [VObject [("a", VString EmptyString)]]))
     = Ok (VArray []).
Proof. split; reflexivity. Qed.

(** C3, amended: for every non-empty array whose elements are all
    objects with the same keys in the same order, decoding the encoding
    of the array gives the array back, with the order of its elements
    and the values of their keys, provided that
    - the keys are at least one, not the single empty key, distinct and
      in the order [Object.keys] lists them, and each key has no white
      space around it, no comma, no line terminator and is not
      [__proto__];
    - every leaf is a scalar whose text holds no comma and no line feed
      and is parsed back, once trimmed, to the leaf itself (a string
      must not have white space around it nor read as [null], [true],
      [false] or a number, a number must be read back from its digits);
    - no row is blank (a single column holding the empty string). *)
Theorem C3_tabular_round_trip (keys : list string) (items : list Value) :
  items <> [] -> keys <> [] -> keys <> [EmptyString] ->
  keys_in_order keys -> List.Forall column_key keys ->
  List.Forall (uniform_item keys) items ->
  toonToJson (jsonToToon (VArray items)) = Ok (VArray items).
Proof.
  intros Hi Hk Hk' Hord Hkeys Hu.
  destruct (uniform_rows keys items Hk Hord Hkeys Hu) as (Hnb & Hnl & Hrows).
  assert (E : jsonToToon (VArray items)
              = join nl (("[" ++ of_N (N.of_nat (List.length items)) ++ "]{"
                          ++ join "," keys ++ "}:") :: tabular_rows items keys)).
  { destruct items as [|item rest]; [congruence|].
    change (jsonToToon (VArray (item :: rest)))
      with (match tabular_keys (item :: rest) with
            | Some keys0 =>
                tabular_header (item :: rest) keys0 ++ nl
                ++ join nl (tabular_rows (item :: rest) keys0)
            | None => join nl (List.map jsonToToon (item :: rest))
            end).
    rewrite (uniform_tabular_keys keys (item :: rest) Hi Hk Hu).
    unfold tabular_header, tabular_rows. simpl List.map.
    rewrite join_cons, !append_assoc. reflexivity. }
  rewrite E, toonToJson_tabular; try assumption.
  - rewrite parseInt_of_N, Nat2N.id, (header_keys keys Hk Hkeys).
    rewrite List.firstn_all2; [now rewrite Hrows|].
    unfold tabular_rows. rewrite List.length_map. lia.
  - apply of_N_nonempty.
  - apply JsNumberFacts.digits_of_N.
  - intros H. apply join_empty_inv in H as [H|H]; [congruence | congruence | discriminate].
  - apply forallb_join; [reflexivity|].
    eapply List.Forall_impl; [|exact Hkeys]. now intros k (_ & _ & H & _).
Qed.

Lemma C3_tabular_round_trip_witness :
  toonToJson
    (jsonToToon
       (VArray [VObject [("a", VString "x"); ("b", VNumber (JsNumber.of_Z 5))];
                VObject [("a", VString "y"); ("b", VNull)]]))
  = Ok (VArray [VObject [("a", VString "x"); ("b", VNumber (JsNumber.of_Z 5))];
                VObject [("a", VString "y"); ("b", VNull)]]).
Proof.
  apply (C3_tabular_round_trip ["a"; "b"]).
  - discriminate.
  - discriminate.
  - discriminate.
  - split.
    + repeat constructor; simpl; intuition discriminate.
    + repeat constructor; exact I.
  - repeat constructor; discriminate.
  - repeat constructor.
Defined.

(* ================================================================== *)
(** * Key order of objects *)
(* ================================================================== *)

Lemma indexOf_app_sep c a b :
  includes c a = false ->
  indexOf c (a ++ String c b) = Z.of_nat (String.length a).
Proof.
  induction a as [|x a IH]; simpl.
  - now rewrite Ascii.eqb_refl.
  - destruct (Ascii.eqb x c); [discriminate|]. simpl. intros H.
    rewrite (IH H).
    destruct (Z.of_nat (String.length a) <? 0)%Z eqn:E; [|lia].
    apply Z.ltb_lt in E. lia.
Qed.

Lemma substring_prefix a b :
  String.substring 0 (String.length a) (a ++ b) = a.
Proof. induction a as [|x a IH]; simpl; [now destruct b | now rewrite IH]. Qed.

Lemma substring_all s : String.substring 0 (String.length s) s = s.
Proof. induction s as [|x s IH]; simpl; [reflexivity | now rewrite IH]. Qed.

Lemma substring_suffix a b :
  String.substring (String.length a) (String.length b) (a ++ b) = b.
Proof.
  induction a as [|x a IH]; simpl; [apply substring_all | exact IH].
Qed.

Lemma trim_fixed_head c s : trim (String c s) = String c s -> is_ws c = false.
Proof.
  intros H. destruct (trim_shape (String c s)) as [E | (c' & r & E & Hc)];
    rewrite H in E; [discriminate | now injection E as -> _].
Qed.

(** The trimmed line of a scalar member. *)
Lemma trim_member_line key v :
  member_key key -> scalar_member v ->
  trim (member_line (key, v)) = key ++ ": " ++ trimEnd (formatToonValue v).
Proof.
  intros (Hne & Ht & _) (_ & _ & Hnb & _). unfold member_line. simpl fst. simpl snd.
  destruct key as [|c key]; [congruence|].
  pose proof (trim_fixed_head _ _ Ht) as Hc.
  change (String c key ++ ": " ++ formatToonValue v)
    with (String c (key ++ ": " ++ formatToonValue v)).
  rewrite (trim_nonws_head _ _ Hc).
  rewrite <- append_assoc, trimEnd_app, append_assoc; [reflexivity|].
  rewrite nonblank_spec in Hnb. now destruct (JsString.forallb is_ws (formatToonValue v)).
Qed.

Lemma trimEnd_nonblank_nonempty s : nonblank s = true -> trimEnd s <> EmptyString.
Proof.
  rewrite nonblank_spec. intros H E. apply trimEnd_empty_inv in E.
  now rewrite E in H.
Qed.

(** A turn of the loop at the line of a scalar member assigns the member
    as it is read back. *)
Lemma loop_body_member nested result l rest key v :
  member_key key -> scalar_member v ->
  trim l = key ++ ": " ++ trimEnd (formatToonValue v) ->
  loop_body nested result l rest
  = Ok (assign key (parseToonValue (trim (formatToonValue v))) result, rest).
Proof.
  intros Hk Hv Hl. pose proof Hk as (Hne & Ht & Hcolon & _).
  pose proof Hv as (_ & _ & Hnb & Hend).
  unfold loop_body. rewrite Hl.
  set (t := trimEnd (formatToonValue v)) in *.
  assert (Hte : t <> EmptyString) by now apply trimEnd_nonblank_nonempty.
  destruct (String.eqb_spec (key ++ ": " ++ t) EmptyString) as [E|_].
  { destruct key; [congruence | discriminate]. }
  replace (endsWith ":" (key ++ ": " ++ t)) with false.
  2:{ rewrite <- append_assoc, endsWith_app by exact Hte. now rewrite Hend. }
  change (key ++ ": " ++ t) with (key ++ String ":" (String " " t)).
  rewrite (indexOf_app_sep _ _ _ Hcolon).
  destruct (0 <? Z.of_nat (String.length key))%Z eqn:Hpos.
  2:{ apply Z.ltb_ge in Hpos. destruct key; [congruence | simpl in Hpos; lia]. }
  unfold substring_to, substring_from.
  rewrite Nat2Z.id, substring_prefix, Ht.
  replace (Z.to_nat (Z.of_nat (String.length key) + 1))
    with (String.length (key ++ ":")) by (rewrite length_append; simpl; lia).
  replace (key ++ String ":" (String " " t)) with ((key ++ ":") ++ String " " t)
    by now rewrite append_assoc.
  generalize (key ++ ":"). intros a.
  replace (String.length (a ++ String " " t) - String.length a)%nat
    with (String.length (String " " t)) by (rewrite length_append; lia).
  rewrite substring_suffix.
  rewrite (trim_ws_head " " t eq_refl). unfold t. now rewrite trim_trimEnd.
Qed.

(** The loop on the lines of scalar members assigns the members, as they
    are read back, in the order of the lines. *)
Lemma run_members lines :
  forall props result,
    List.Forall2
      (fun l kv => trim l = fst kv ++ ": " ++ trimEnd (formatToonValue (snd kv)))
      lines props ->
    List.Forall (fun kv => member_key (fst kv) /\ scalar_member (snd kv)) props ->
    run result lines = Ok (assign_all (List.map member_read props) result).
Proof.
  induction lines as [|l lines IH]; intros props result H2 Hp.
  - inversion H2; subst. reflexivity.
  - inversion H2 as [|? kv ? props' Hl H2']; subst.
    inversion Hp as [|? ? [Hk Hv] Hp']; subst.
    rewrite (run_cons (run JsObject.empty)).
    destruct kv as [key v]. simpl fst in *. simpl snd in *.
    rewrite (loop_body_member _ _ _ _ key v Hk Hv Hl).
    cbn [bind List.map fst snd].
    change (member_read (key, v))
      with (key, parseToonValue (trim (formatToonValue v))).
    rewrite assign_all_cons. now apply IH.
Qed.

Lemma Forall2_trim_last {B} (R : string -> B -> Prop) lines items :
  (forall l x, R l x -> R (trimEnd l) x) ->
  List.Forall2 R lines items -> List.Forall2 R (trim_last lines) items.
Proof.
  intros HR. induction 1 as [|l x lines items Hl H IH]; [constructor|].
  destruct lines as [|l' lines].
  - inversion H; subst. constructor; [now apply HR | constructor].
  - change (trim_last (l :: l' :: lines)) with (l :: trim_last (l' :: lines)).
    now constructor.
Qed.

(** The lines of a member that is a scalar. *)
Lemma member_lines_scalar encode key v :
  scalar_member v -> member_lines encode key v = [member_line (key, v)].
Proof.
  intros (Hs & _). destruct v; try contradiction; reflexivity.
Qed.

Lemma object_lines_scalar props :
  List.Forall (fun kv => scalar_member (snd kv)) props ->
  List.flat_map
    (fun kv => let '(key, value) := kv in member_lines jsonToToon key value)
    props
  = List.map member_line props.
Proof.
  induction 1 as [|[key v] props Hs _ IH]; [reflexivity|].
  cbn [List.flat_map List.map]. rewrite IH.
  now rewrite (member_lines_scalar _ _ _ Hs).
Qed.

Lemma jsonToToon_scalar_members props :
  props <> [] ->
  List.Forall (fun kv => scalar_member (snd kv)) props ->
  jsonToToon (VObject props) = join nl (List.map member_line props).
Proof.
  intros Hne Hs. rewrite <- (object_lines_scalar props Hs).
  destruct props; [congruence | reflexivity].
Qed.

Lemma member_line_end key v :
  scalar_member v ->
  endsWith ":" (key ++ ": " ++ trimEnd (formatToonValue v)) = false.
Proof.
  intros (_ & _ & Hnb & Hend).
  rewrite <- append_assoc, endsWith_app; [exact Hend|].
  now apply trimEnd_nonblank_nonempty.
Qed.

Lemma not_colon_end_dispatch s :
  endsWith ":" s = false ->
  String.eqb s "[]:" = false /\ String.eqb s "{}:" = false
  /\ header_shape s = false.
Proof.
  intros H. repeat split.
  - destruct (String.eqb_spec s "[]:") as [->|]; [discriminate | reflexivity].
  - destruct (String.eqb_spec s "{}:") as [->|]; [discriminate | reflexivity].
  - destruct (header_shape s) eqn:E; [|reflexivity].
    apply header_shape_endsWith in E. congruence.
Qed.

Lemma member_lines_read props :
  List.Forall (fun kv => member_key (fst kv) /\ scalar_member (snd kv)) props ->
  List.Forall2
    (fun l kv => trim l = fst kv ++ ": " ++ trimEnd (formatToonValue (snd kv)))
    (List.map member_line props) props.
Proof.
  induction 1 as [|[key v] props [Hk Hv] _ IH]; [constructor|].
  simpl List.map. constructor; [|exact IH].
  now apply trim_member_line.
Qed.

Lemma member_line_facts key v :
  member_key key -> scalar_member v ->
  trimStart (member_line (key, v)) = member_line (key, v)
  /\ nonblank (member_line (key, v)) = true
  /\ includes "010" (member_line (key, v)) = false.
Proof.
  intros (Hne & Ht & _ & Hnl & _) (_ & Hvnl & _ & _).
  unfold member_line. simpl fst. simpl snd.
  destruct key as [|c key]; [congruence|].
  pose proof (trim_fixed_head _ _ Ht) as Hc.
  repeat split.
  - apply trimStart_nonws_head, Hc.
  - rewrite nonblank_spec. simpl. now rewrite Hc.
  - now rewrite !includes_app, Hnl, Hvnl.
Qed.

(** Decoding the encoding of an object whose members are scalars. *)
Lemma toonToJson_scalar_members props :
  keys_in_order (List.map fst props) ->
  List.Forall (fun kv => member_key (fst kv) /\ scalar_member (snd kv)) props ->
  toonToJson (jsonToToon (VObject props))
  = Ok (VObject (List.map member_read props)).
Proof.
  intros Hord Hp.
  destruct props as [|kv0 props0] eqn:Eprops; [reflexivity|].
  rewrite <- Eprops in *.
  assert (Hs : List.Forall (fun kv => scalar_member (snd kv)) props).
  { eapply List.Forall_impl; [|exact Hp]. now intros kv [_ H]. }
  rewrite jsonToToon_scalar_members by (try exact Hs; subst; discriminate).
  assert (Hfacts : List.Forall
                     (fun l => trimStart l = l /\ nonblank l = true
                               /\ includes "010" l = false)
                     (List.map member_line props)).
  { rewrite List.Forall_map. eapply List.Forall_impl; [|exact Hp].
    intros [key v] [Hk Hv]. now apply member_line_facts. }
  pose proof (member_lines_read props Hp) as Hread.
  apply Forall2_trim_last in Hread;
    [| intros l x H; now rewrite trim_trimEnd].
  rewrite toonToJson_lines.
  assert (Hlines : toon_lines (join nl (List.map member_line props))
                   = trim_last (List.map member_line props)).
  { rewrite Eprops in *. simpl List.map in *.
    inversion Hfacts as [|? ? (H0 & _) _]; subst.
    apply toon_lines_join.
    - exact H0.
    - eapply List.Forall_impl; [|exact Hfacts]. now intros l (_ & H & _).
    - eapply List.Forall_impl; [|exact Hfacts]. now intros l (_ & _ & H). }
  rewrite Hlines.
  destruct (trim_last (List.map member_line props)) as [|line0 rest] eqn:El.
  { rewrite Eprops in El. simpl in El.
    destruct (List.map member_line props0); discriminate. }
  cbv zeta.
  assert (Hfirst : endsWith ":" (trim line0) = false).
  { rewrite Eprops in Hread. inversion Hread as [|? ? ? ? H0 _]; subst.
    rewrite H0. apply member_line_end.
    inversion Hs as [|? ? H _]. exact H. }
  destruct (not_colon_end_dispatch _ Hfirst) as (-> & -> & ->).
  rewrite parseToonObject_run, (run_members _ props _ Hread Hp).
  cbn [bind]. f_equal. f_equal.
  rewrite own_assign_all; [reflexivity | |].
  - rewrite List.Forall_map. eapply List.Forall_impl; [|exact Hp].
    now intros kv [(_ & _ & _ & _ & H) _].
  - simpl. rewrite List.map_map. exact Hord.
Qed.

(** C7, as stated, fails: the object [{a: '', b: 2}] is encoded as the
    lines [a: ] and [b: 2]; the first, trimmed, is a bare key line, so
    the second is read as the value of [a], and the decoded object has
    the single key [a]. *)
Lemma C7_key_order_counterexample :
  toonToJson
    (jsonToToon (VObject [("a", VString EmptyString); ("b", VNumber (JsNumber.of_Z 2))]))
  = Ok (VObject [("a", VString "b: 2")])
  /\ keys_of (VObject [("a", VString "b: 2")])
     <> keys_of (VObject [("a", VString EmptyString); ("b", VNumber (JsNumber.of_Z 2))]).
Proof. split; [reflexivity | discriminate]. Qed.

(** With a nested object as a member the keys of the nested object leak
    into the decoded object: the lines of the nested block are indented,
    but the loop tests the indentation on the trimmed line. *)
Lemma nested_member_keys_leak :
  toonToJson
    (jsonToToon
       (VObject [("a", VObject [("b", VNumber (JsNumber.of_Z 1));
                                ("c", VNumber (JsNumber.of_Z 2))]);
                 ("d", VNumber (JsNumber.of_Z 3))]))
  = Ok (VObject [("a", VString "b: 1");
                 ("c", VNumber (JsNumber.of_Z 2));
                 ("d", VNumber (JsNumber.of_Z 3))]).
Proof. reflexivity. Qed.

(** C7, amended: for every object whose members are scalars, the keys of
    the decoded encoding are the keys of the object, in the same order,
    provided that the keys are distinct and in the order [Object.keys]
    lists them, each key is not empty, has no white space around it, no
    colon and no line feed and is not [__proto__], and the text of each
    member has no line feed, is not blank and, without the white space at
    its end, does not end with a colon; each key then holds the scalar
    parse of the trimmed text of its member.  In particular encoding
    [{b:1, a:2}] and decoding gives an object with the keys [b], [a] in
    that order.  (Objects with nested objects as members are left out.) *)
Theorem C7_key_order (props : list (string * Value)) :
  keys_in_order (List.map fst props) ->
  List.Forall (fun kv => member_key (fst kv) /\ scalar_member (snd kv)) props ->
  (exists decoded,
      toonToJson (jsonToToon (VObject props)) = Ok (VObject decoded)
      /\ List.map fst decoded = List.map fst props
      /\ decoded = List.map member_read props)
  /\ toonToJson
       (jsonToToon (VObject [("b", VNumber (JsNumber.of_Z 1));
                             ("a", VNumber (JsNumber.of_Z 2))]))
     = Ok (VObject [("b", VNumber (JsNumber.of_Z 1));
                    ("a", VNumber (JsNumber.of_Z 2))]).
Proof.
  intros Hord Hp. split; [|reflexivity].
  exists (List.map member_read props).
  split; [now apply toonToJson_scalar_members|].
  split; [|reflexivity].
  rewrite List.map_map. reflexivity.
Qed.

Lemma C7_key_order_witness :
  exists decoded,
    toonToJson
      (jsonToToon (VObject [("10", VBool true); ("z", VString "last");
                            ("b", VNull)]))
    = Ok (VObject decoded)
    /\ List.map fst decoded = ["10"; "z"; "b"].
Proof.
  destruct (C7_key_order [("10", VBool true); ("z", VString "last");
                          ("b", VNull)]) as [(decoded & H1 & H2 & _) _].
  - split.
    + repeat constructor; simpl; intuition discriminate.
    + repeat constructor; exact I.
  - repeat constructor; discriminate.
  - exists decoded. split; [exact H1 | exact H2].
Defined.


(* ================================================================== *)
(** * The decoder reads trimmed lines only *)
(* ================================================================== *)

Lemma toonToJson_decode_lines t : toonToJson t = decode_lines (toon_lines t).
Proof. reflexivity. Qed.

Lemma nonblank_ws_head c s : is_ws c = true -> nonblank (String c s) = nonblank s.
Proof. intros H. rewrite !nonblank_spec. simpl. now rewrite H. Qed.

Lemma nonblank_nonws_head c s : is_ws c = false -> nonblank (String c s) = true.
Proof. intros H. rewrite nonblank_spec. simpl. now rewrite H. Qed.

Lemma nonblank_empty : nonblank EmptyString = false.
Proof. reflexivity. Qed.

(** The lines of a text do not depend on the white space at its start,
    up to trimming and blank lines. *)
Lemma trimmed_lines_trimStart t : trimmed_lines (trimStart t) = trimmed_lines t.
Proof.
  unfold trimmed_lines. induction t as [|c t IH]; [reflexivity|].
  destruct (is_ws c) eqn:Hc.
  - rewrite (trimStart_ws_head _ _ Hc), IH, split_cons.
    destruct (Ascii.eqb c "010").
    + cbn [List.filter]. now rewrite nonblank_empty.
    + pose proof (split_nonempty "010" t) as N.
      destruct (split "010" t) as [|h r]; [congruence|].
      cbn [List.filter]. rewrite (nonblank_ws_head _ _ Hc).
      destruct (nonblank h); [|reflexivity].
      cbn [List.map]. now rewrite (trim_ws_head _ _ Hc).
  - now rewrite (trimStart_nonws_head _ _ Hc).
Qed.

Lemma split_single_empty sep s : split sep s = [EmptyString] -> s = EmptyString.
Proof.
  destruct s as [|c s]; [reflexivity|]. rewrite split_cons.
  destruct (Ascii.eqb c sep).
  - intros [= H]. now apply split_nonempty in H.
  - destruct (split sep s); discriminate.
Qed.

Lemma strip_tail_nil_inv l r :
  strip_tail (l :: r) = [] -> nonblank l = false /\ strip_tail r = [].
Proof.
  simpl. destruct (strip_tail r); [|discriminate].
  destruct (nonblank l); [discriminate | auto].
Qed.

Lemma strip_tail_single x lines : strip_tail lines = [x] -> nonblank x = true.
Proof.
  destruct lines as [|l r]; [discriminate|]. simpl.
  destruct (strip_tail r) as [|y z].
  - destruct (nonblank l) eqn:E; [|discriminate].
    intros [= <-]. now rewrite nonblank_trimEnd.
  - congruence.
Qed.

Lemma strip_tail_cons l r :
  strip_tail (l :: r)
  = match strip_tail r with
    | [] => if nonblank l then [trimEnd l] else []
    | r' => l :: r'
    end.
Proof. reflexivity. Qed.

Lemma nonblank_false_blank s : nonblank s = false -> JsString.forallb is_ws s = true.
Proof. rewrite nonblank_spec. now destruct (JsString.forallb is_ws s). Qed.

Lemma nonblank_true_blank s : nonblank s = true -> JsString.forallb is_ws s = false.
Proof. rewrite nonblank_spec. now destruct (JsString.forallb is_ws s). Qed.

(** Removing the white space at the end of a text drops the blank lines
    at its end and trims the end of the last line left. *)
Lemma split_trimEnd s :
  split "010" (trimEnd s)
  = match strip_tail (split "010" s) with
    | [] => [EmptyString]
    | lines => lines
    end.
Proof.
  induction s as [|c s IH]; [reflexivity|].
  rewrite trimEnd_cons, (split_cons "010" c s).
  pose proof (split_nonempty "010" s) as N.
  destruct (split "010" s) as [|h t] eqn:Es; [congruence|].
  destruct (strip_tail (h :: t)) as [|x r'] eqn:Et.
  - (* the rest of the text is blank *)
    apply split_single_empty in IH.
    pose proof (trimEnd_empty_inv _ IH) as B. rewrite B, andb_true_r.
    apply strip_tail_nil_inv in Et as [Hh Ht].
    destruct (Ascii.eqb_spec c "010") as [->|Hc].
    + rewrite strip_tail_cons, strip_tail_cons, Ht, Hh. reflexivity.
    + rewrite strip_tail_cons, Ht.
      destruct (is_ws c) eqn:Hw.
      * now rewrite (nonblank_ws_head _ _ Hw), Hh.
      * rewrite (nonblank_nonws_head _ _ Hw), (trimEnd_nonws_head _ _ Hw).
        rewrite IH, (trimEnd_blank _ (nonblank_false_blank _ Hh)).
        rewrite split_cons. apply Ascii.eqb_neq in Hc. now rewrite Hc.
  - assert (B : JsString.forallb is_ws s = false).
    { destruct (JsString.forallb is_ws s) eqn:B; [|reflexivity].
      rewrite (trimEnd_blank _ B) in IH. simpl in IH.
      injection IH as <- <-.
      apply strip_tail_single in Et. discriminate. }
    rewrite B, andb_false_r, split_cons, IH.
    destruct (Ascii.eqb c "010").
    + now rewrite strip_tail_cons, Et.
    + rewrite strip_tail_cons in Et. rewrite strip_tail_cons.
      destruct (strip_tail t) as [|y z].
      * destruct (nonblank h) eqn:Hh; [|discriminate].
        injection Et as <- <-.
        assert (Hb : JsString.forallb is_ws h = false)
          by now apply nonblank_true_blank.
        assert (Hn : nonblank (String c h) = true).
        { rewrite nonblank_spec. simpl. now rewrite Hb, andb_false_r. }
        now rewrite Hn, trimEnd_cons, Hb, andb_false_r.
      * now injection Et as <- <-.
Qed.

Lemma filter_strip_tail lines :
  List.map trim (List.filter nonblank (strip_tail lines))
  = List.map trim (List.filter nonblank lines).
Proof.
  induction lines as [|l r IH]; [reflexivity|].
  rewrite strip_tail_cons.
  destruct (strip_tail r) as [|y z] eqn:E.
  - cbn [List.filter] in *. destruct (nonblank l) eqn:Hl.
    + cbn [List.filter]. rewrite nonblank_trimEnd, Hl.
      cbn [List.map] in *. now rewrite trim_trimEnd, <- IH.
    + exact IH.
  - change (List.filter nonblank (l :: y :: z))
      with (if nonblank l then l :: List.filter nonblank (y :: z)
            else List.filter nonblank (y :: z)).
    change (List.filter nonblank (l :: r))
      with (if nonblank l then l :: List.filter nonblank r
            else List.filter nonblank r).
    destruct (nonblank l); [cbn [List.map]|]; now rewrite IH.
Qed.

Lemma trimmed_lines_trimEnd t : trimmed_lines (trimEnd t) = trimmed_lines t.
Proof.
  unfold trimmed_lines.
  rewrite split_trimEnd, <- (filter_strip_tail (split "010" t)).
  destruct (strip_tail (split "010" t)) eqn:E; reflexivity.
Qed.

(** The trimmed lines [toonToJson] works on are the trimmed lines of the
    text that are not blank. *)
Lemma trimmed_toon_lines t : List.map trim (toon_lines t) = trimmed_lines t.
Proof.
  unfold toon_lines, trim.
  change (List.map (fun s => trimEnd (trimStart s))
            (List.filter nonblank (split "010" (trimEnd (trimStart t)))))
    with (trimmed_lines (trimEnd (trimStart t))).
  now rewrite trimmed_lines_trimEnd, trimmed_lines_trimStart.
Qed.

Lemma trim_cells_trimStart s :
  List.map trim (split "," (trimStart s)) = List.map trim (split "," s).
Proof.
  induction s as [|c s IH]; [reflexivity|].
  destruct (is_ws c) eqn:Hc.
  - rewrite (trimStart_ws_head _ _ Hc), IH, split_cons.
    destruct (Ascii.eqb_spec c ",") as [->|_]; [discriminate|].
    pose proof (split_nonempty "," s) as N.
    destruct (split "," s) as [|h r]; [congruence|].
    cbn [List.map]. now rewrite (trim_ws_head _ _ Hc).
  - now rewrite (trimStart_nonws_head _ _ Hc).
Qed.

(** The trimmed cells of a row do not depend on the white space around
    the row. *)
Lemma trim_cells_trim s :
  List.map trim (split "," (trim s)) = List.map trim (split "," s).
Proof. unfold trim. now rewrite trim_cells_trimEnd, trim_cells_trimStart. Qed.

Lemma row_item_trim keys line : row_item keys (trim line) = row_item keys line.
Proof. unfold row_item. now rewrite trim_cells_trim. Qed.

Lemma rows_loop_trim count keys lines :
  forall result,
    rows_loop count keys (List.map trim lines) result
    = rows_loop count keys lines result.
Proof.
  induction lines as [|l r IH]; intros result; [reflexivity|].
  cbn [List.map rows_loop]. now rewrite row_item_trim, IH.
Qed.

Lemma parseToonArray_trim lines :
  parseToonArray (List.map trim lines) = parseToonArray lines.
Proof.
  destruct lines as [|l0 rest]; [reflexivity|].
  cbn [List.map]. unfold parseToonArray. rewrite trim_idem.
  destruct (header_match (trim l0)) as [[digits cols]|]; [|reflexivity].
  now rewrite rows_loop_trim.
Qed.

Lemma span_lines_map (p : string -> bool) (f : string -> string) lines :
  span_lines p (List.map f lines)
  = let '(a, b) := span_lines (fun l => p (f l)) lines in
    (List.map f a, List.map f b).
Proof.
  induction lines as [|l r IH]; [reflexivity|].
  cbn [List.map span_lines]. destruct (p (f l)); [|reflexivity].
  rewrite IH. now destruct (span_lines (fun l0 => p (f l0)) r).
Qed.

Lemma span_lines_ext (p q : string -> bool) lines :
  (forall l, p l = q l) -> span_lines p lines = span_lines q lines.
Proof.
  intros H. induction lines as [|l r IH]; [reflexivity|].
  simpl. now rewrite H, IH.
Qed.

(** A turn of the loop on trimmed lines does what it does on the lines
    themselves. *)
Lemma loop_body_trim nested result l rest :
  loop_body nested result (trim l) (List.map trim rest)
  = let* st := loop_body nested result l rest in
    Ok (fst st, List.map trim (snd st)).
Proof.
  unfold loop_body. rewrite trim_idem.
  destruct (String.eqb (trim l) EmptyString); [reflexivity|].
  destruct (endsWith ":" (trim l)).
  - destruct rest as [|next rest']; [reflexivity|].
    cbn [List.map]. rewrite trim_idem.
    destruct (header_shape (trim next)).
    + rewrite span_lines_map.
      rewrite (span_lines_ext
                 (fun l0 => negb (endsWith ":" (trim (trim l0)))
                            && negb (key_line_shape (trim (trim l0))))
                 (fun lj => negb (endsWith ":" (trim lj))
                            && negb (key_line_shape (trim lj))))
        by (intros l0; now rewrite trim_idem).
      destruct (span_lines _ rest') as [rows after].
      assert (E : parseToonArray (trim next :: List.map trim rows)
                  = parseToonArray (trim next :: rows)).
      { rewrite <- (parseToonArray_trim (trim next :: rows)).
        cbn [List.map]. now rewrite trim_idem. }
      cbn [List.map List.app]. rewrite E.
      now destruct (parseToonArray (trim next :: rows)).
    + now rewrite startsWith_indent_trim.
  - destruct (0 <? indexOf ":" (trim l))%Z; reflexivity.
Qed.

Lemma run_trim n :
  forall result lines,
    (List.length lines <= n)%nat ->
    run result (List.map trim lines) = run result lines.
Proof.
  induction n as [|n IH]; intros result lines Hn.
  - destruct lines; [reflexivity | simpl in Hn; lia].
  - destruct lines as [|l rest]; [reflexivity|].
    cbn [List.map].
    rewrite !(run_cons (run JsObject.empty)), loop_body_trim.
    destruct (loop_body (run JsObject.empty) result l rest)
      as [[r' ls']| |] eqn:E; try reflexivity.
    cbn [bind fst snd]. apply IH.
    apply loop_body_length in E. simpl in Hn. lia.
Qed.

Lemma decode_lines_trim lines :
  decode_lines (List.map trim lines) = decode_lines lines.
Proof.
  destruct lines as [|l0 rest]; [reflexivity|].
  unfold decode_lines. cbn [List.map]. rewrite trim_idem.
  change (trim l0 :: List.map trim rest) with (List.map trim (l0 :: rest)).
  rewrite parseToonArray_trim, !parseToonObject_run, (run_trim _ _ _ (le_n _)).
  reflexivity.
Qed.

(** The decoder reads the trimmed lines of the text that are not blank,
    and nothing else. *)
Lemma toonToJson_trimmed_lines t : toonToJson t = decode_lines (trimmed_lines t).
Proof.
  now rewrite toonToJson_decode_lines, <- decode_lines_trim, trimmed_toon_lines.
Qed.

(** X1: two texts with the same trimmed lines, blank lines left out,
    decode to the same result: indentation, white space at the end of a
    line and blank lines carry no meaning for the decoder. *)
Theorem X1_decoder_ignores_indentation (t t' : string) :
  trimmed_lines t = trimmed_lines t' -> toonToJson t = toonToJson t'.
Proof. intros H. now rewrite !toonToJson_trimmed_lines, H. Qed.

Lemma X1_decoder_ignores_indentation_witness :
  toonToJson ("user:" ++ nl ++ "  name: Ann" ++ nl ++ "  age: 7")
  = toonToJson ("  user:  " ++ nl ++ nl ++ "name: Ann" ++ nl ++ "      age: 7" ++ nl).
Proof.
  apply (X1_decoder_ignores_indentation
           ("user:" ++ nl ++ "  name: Ann" ++ nl ++ "  age: 7")
           ("  user:  " ++ nl ++ nl ++ "name: Ann" ++ nl ++ "      age: 7" ++ nl)).
  reflexivity.
Defined.

(* ================================================================== *)
(** * What the decoder returns *)
(* ================================================================== *)

(** X2: when the first line that is not blank is, trimmed, the literal
    of the empty array or of the empty object, the decoder returns that
    empty value and ignores every line after it. *)
Theorem X2_lines_after_empty_literal_ignored (t : string) :
  (List.hd_error (trimmed_lines t) = Some "[]:" -> toonToJson t = Ok (VArray []))
  /\ (List.hd_error (trimmed_lines t) = Some "{}:" -> toonToJson t = Ok (VObject [])).
Proof.
  rewrite toonToJson_trimmed_lines.
  split; destruct (trimmed_lines t) as [|l0 rest]; try discriminate;
    intros [= ->]; reflexivity.
Qed.

Lemma X2_lines_after_empty_literal_ignored_witness :
  toonToJson (" []:" ++ nl ++ "name: Ann" ++ nl ++ "age: 7") = Ok (VArray [])
  /\ toonToJson ("{}:" ++ nl ++ "[2]{a}:" ++ nl ++ "1" ++ nl ++ "2") = Ok (VObject []).
Proof.
  split.
  - apply (proj1 (X2_lines_after_empty_literal_ignored
                    (" []:" ++ nl ++ "name: Ann" ++ nl ++ "age: 7"))).
    reflexivity.
  - apply (proj2 (X2_lines_after_empty_literal_ignored
                    ("{}:" ++ nl ++ "[2]{a}:" ++ nl ++ "1" ++ nl ++ "2"))).
    reflexivity.
Defined.

Section DefineOwnForall.
Context {V : Type} (P : V -> Prop).
Implicit Types (props : list (string * V)).

Lemma Forall_update key v props :
  P v -> List.Forall (fun kv => P (snd kv)) props ->
  List.Forall (fun kv => P (snd kv)) (update key v props).
Proof.
  intros Hv. induction 1 as [|[k w] r Hw Hr IH]; simpl; [constructor|].
  destruct (String.eqb k key); constructor; auto.
Qed.

Lemma Forall_insert_index n key v props :
  P v -> List.Forall (fun kv => P (snd kv)) props ->
  List.Forall (fun kv => P (snd kv)) (insert_index n key v props).
Proof.
  intros Hv. induction 1 as [|[k w] r Hw Hr IH]; simpl.
  - now repeat constructor.
  - destruct (array_index k) as [n'|].
    + destruct (n <? n')%N; repeat constructor; auto.
    + repeat constructor; auto.
Qed.

(** Writing a property keeps what holds of all the values. *)
Lemma Forall_define_own key v props :
  P v -> List.Forall (fun kv => P (snd kv)) props ->
  List.Forall (fun kv => P (snd kv)) (define_own key v props).
Proof.
  intros Hv Hp. unfold define_own. destruct (has_own key props).
  - now apply Forall_update.
  - destruct (array_index key).
    + now apply Forall_insert_index.
    + apply List.Forall_app. split; [exact Hp | now repeat constructor].
Qed.
End DefineOwnForall.

Lemma Forall_assign (P : Value -> Prop) key v o :
  P v -> List.Forall (fun kv => P (snd kv)) (own o) ->
  List.Forall (fun kv => P (snd kv)) (own (assign key v o)).
Proof.
  intros Hv Ho. unfold assign.
  destruct (String.eqb key "__proto__" && proto_accessor o); simpl.
  - exact Ho.
  - now apply Forall_define_own.
Qed.

Lemma fill_item_scalars keys :
  forall index values item,
    List.Forall (fun kv => scalar_value (snd kv)) (own item) ->
    List.Forall (fun kv => scalar_value (snd kv))
      (own (fill_item keys index values item)).
Proof.
  induction keys as [|key keys IH]; intros index values item H; [exact H|].
  simpl. apply IH. apply Forall_assign; [|exact H].
  apply parseToonValue_scalar.
Qed.

Lemma row_item_flat keys line : flat_object (row_item keys line).
Proof. unfold row_item. simpl. apply fill_item_scalars. constructor. Qed.

Lemma parseToonArray_table lines v : parseToonArray lines = Ok v -> table v.
Proof.
  unfold parseToonArray. destruct lines as [|l0 rest].
  - intros [= <-]. constructor.
  - destruct (header_match (trim l0)) as [[digits cols]|]; [|discriminate].
    intros [= <-]. rewrite rows_loop_firstn. simpl.
    rewrite List.Forall_map. apply List.Forall_forall.
    intros l _. apply row_item_flat.
Qed.

Lemma loop_body_shape nested result l rest result' lines' :
  loop_body nested result l rest = Ok (result', lines') ->
  List.Forall (fun kv => scalar_value (snd kv) \/ table (snd kv)) (own result) ->
  List.Forall (fun kv => scalar_value (snd kv) \/ table (snd kv)) (own result').
Proof.
  unfold loop_body. intros H Hr.
  destruct (String.eqb (trim l) EmptyString).
  { now inversion H; subst. }
  destruct (endsWith ":" (trim l)).
  - destruct rest as [|next rest'].
    { inversion H; subst. apply (Forall_assign (fun v => scalar_value v \/ table v)); [now left | exact Hr]. }
    destruct (header_shape (trim next)).
    + destruct (span_lines _ rest') as [rows after].
      destruct (parseToonArray (trim next :: rows)) as [arr| |] eqn:E;
        simpl in H; try discriminate.
      inversion H; subst. apply (Forall_assign (fun v => scalar_value v \/ table v)); [|exact Hr].
      right. eapply parseToonArray_table; eauto.
    + rewrite startsWith_indent_trim in H. inversion H; subst.
      apply (Forall_assign (fun v => scalar_value v \/ table v)); [|exact Hr]. left. apply parseToonValue_scalar.
  - destruct (0 <? indexOf ":" (trim l))%Z; inversion H; subst; [|exact Hr].
    apply (Forall_assign (fun v => scalar_value v \/ table v)); [|exact Hr]. left. apply parseToonValue_scalar.
Qed.

Lemma run_shape n :
  forall result lines result',
    (List.length lines <= n)%nat ->
    run result lines = Ok result' ->
    List.Forall (fun kv => scalar_value (snd kv) \/ table (snd kv)) (own result) ->
    List.Forall (fun kv => scalar_value (snd kv) \/ table (snd kv)) (own result').
Proof.
  induction n as [|n IH]; intros result lines result' Hn.
  - destruct lines; [now intros [= <-] | simpl in Hn; lia].
  - destruct lines as [|l rest]; [now intros [= <-]|].
    rewrite (run_cons (run JsObject.empty)).
    destruct (loop_body (run JsObject.empty) result l rest)
      as [[r1 ls1]| |] eqn:E; simpl; try discriminate.
    intros H Hr. apply (IH r1 ls1 result'); [|exact H|].
    + apply loop_body_length in E. simpl in Hn. lia.
    + eapply loop_body_shape; eauto.
Qed.

(** X3: whatever the text, a value returned by the decoder is an array
    of objects with scalar members, or an object whose members are
    scalars and such arrays: never a scalar, never an object nested in an
    object, never an array of scalars. *)
Theorem X3_decoded_shape (t : string) (v : Value) :
  toonToJson t = Ok v -> decoded_shape v.
Proof.
  rewrite toonToJson_decode_lines. unfold decode_lines.
  destruct (toon_lines t) as [|l0 rest].
  { intros [= <-]. constructor. }
  cbv zeta.
  destruct (String.eqb (trim l0) "[]:"); [intros [= <-]; constructor|].
  destruct (String.eqb (trim l0) "{}:"); [intros [= <-]; constructor|].
  destruct (header_shape (trim l0)).
  - intros H. pose proof (parseToonArray_table _ _ H) as T.
    destruct v; try contradiction. exact T.
  - rewrite parseToonObject_run.
    destruct (run JsObject.empty (l0 :: rest)) as [r| |] eqn:E; simpl;
      try discriminate.
    intros [= <-]. simpl.
    apply (run_shape _ _ _ _ (le_n _) E). constructor.
Qed.

Lemma X3_decoded_shape_witness :
  decoded_shape
    (VObject [("a", VString "b: 1"); ("rows", VArray [VObject [("x", VNull)]])]).
Proof.
  apply (X3_decoded_shape
           ("a:" ++ nl ++ "  b: 1" ++ nl ++ "rows:" ++ nl ++ "[1]{x}:" ++ nl ++ "null")).
  reflexivity.
Defined.

(* ================================================================== *)
(** * Text without a colon *)
(* ================================================================== *)

Lemma split_excludes c sep s :
  includes c s = false ->
  List.Forall (fun l => includes c l = false) (split sep s).
Proof.
  induction s as [|x s IH]; intros H; [now repeat constructor|].
  simpl in H. apply orb_false_iff in H as [Hx Hs].
  specialize (IH Hs). rewrite split_cons.
  destruct (Ascii.eqb x sep); [now constructor|].
  pose proof (split_nonempty sep s) as N.
  destruct (split sep s) as [|h r]; [congruence|].
  inversion IH; subst. constructor; [|assumption].
  simpl. now rewrite Hx.
Qed.

Lemma trimmed_lines_excludes c t :
  includes c t = false ->
  List.Forall (fun l => includes c l = false) (trimmed_lines t).
Proof.
  intros H. unfold trimmed_lines. rewrite List.Forall_map.
  apply List.Forall_forall. intros l Hl.
  apply List.filter_In in Hl as [Hl _].
  pose proof (split_excludes c "010" t H) as F.
  rewrite List.Forall_forall in F. apply excludes_trim. now apply F.
Qed.

Lemma colonless_skipped l : includes ":" l = false -> skipped_shape l = true.
Proof.
  intros H. unfold skipped_shape.
  pose proof (excludes_trim _ _ H) as H'.
  rewrite (indexOf_absent _ _ H').
  destruct (endsWith ":" (trim l)) eqn:E; [|reflexivity].
  apply endsWith_includes in E. congruence.
Qed.

(** The loop skips every line of the skipped shape when it meets only
    such lines. *)
Lemma run_skipped lines :
  forall result,
    List.Forall (fun l => skipped_shape l = true) lines ->
    run result lines = Ok result.
Proof.
  induction lines as [|l rest IH]; intros result H; [reflexivity|].
  inversion H as [|? ? Hl Hrest]; subst.
  rewrite (run_cons (run JsObject.empty)), (skipped_shape_body _ _ _ _ Hl).
  simpl. now apply IH.
Qed.

Lemma toonToJson_no_colon t :
  includes ":" t = false -> toonToJson t = Ok (VObject []).
Proof.
  intros H. rewrite toonToJson_trimmed_lines.
  pose proof (trimmed_lines_excludes ":" t H) as F.
  destruct (trimmed_lines t) as [|l0 rest]; [reflexivity|].
  unfold decode_lines.
  inversion F as [|? ? H0 _]; subst.
  pose proof (excludes_trim _ _ H0) as H0'.
  rewrite (eqb_excluded ":" _ "[]:" H0' eq_refl).
  rewrite (eqb_excluded ":" _ "{}:" H0' eq_refl).
  rewrite (header_shape_colonless _ H0').
  rewrite parseToonObject_run, run_skipped; [reflexivity|].
  eapply List.Forall_impl; [|exact F]. apply colonless_skipped.
Qed.

(** X4: a text that holds no colon, on however many lines, decodes to
    the empty object. *)
Theorem X4_colonless_text_decodes_to_empty_object (t : string) :
  includes ":" t = false -> toonToJson t = Ok (VObject []).
Proof. apply toonToJson_no_colon. Qed.

Lemma X4_colonless_text_decodes_to_empty_object_witness :
  toonToJson ("alpha" ++ nl ++ "1,2,3" ++ nl ++ "  [x]{y}") = Ok (VObject []).
Proof.
  apply (X4_colonless_text_decodes_to_empty_object
           ("alpha" ++ nl ++ "1,2,3" ++ nl ++ "  [x]{y}")).
  reflexivity.
Defined.

(* ================================================================== *)
(** * Texts read as numbers *)
(* ================================================================== *)

Lemma forallb_cons_true p c r :
  p c = true -> JsString.forallb p r = true ->
  JsString.forallb p (String c r) = true.
Proof. intros Hc Hr. simpl. now rewrite Hc, Hr. Qed.

Lemma digit_input_char c : is_digit c = true -> number_input_char c = true.
Proof. unfold number_input_char. now intros ->. Qed.

Lemma hex_digit_input_char c d :
  JsNumber.hex_digit c = Some d -> number_input_char c = true.
Proof.
  destruct c as [[|] [|] [|] [|] [|] [|] [|] [|]]; vm_compute; congruence.
Qed.

Lemma radix_value_chars radix s :
  forall acc v,
    JsNumber.radix_value radix acc s = Some v ->
    JsString.forallb number_input_char s = true.
Proof.
  induction s as [|c s IH]; intros acc v H; [reflexivity|].
  simpl in H. destruct (JsNumber.hex_digit c) as [d|] eqn:Hd; [|discriminate].
  destruct (d <? radix)%N; [|discriminate].
  apply forallb_cons_true; [eapply hex_digit_input_char; eauto | eauto].
Qed.

Lemma radix_literal_chars radix s :
  JsNumber.isNaN (JsNumber.radix_literal radix s) = false ->
  JsString.forallb number_input_char s = true.
Proof.
  unfold JsNumber.radix_literal. destruct s as [|c s]; [discriminate|].
  destruct (JsNumber.radix_value radix 0 (String c s)) as [v|] eqn:E;
    [|discriminate].
  intros _. eapply radix_value_chars; eauto.
Qed.

Lemma digits_input_chars s :
  JsString.forallb is_digit s = true ->
  JsString.forallb number_input_char s = true.
Proof. apply forallb_impl, digit_input_char. Qed.

Lemma exponent_part_chars s e :
  JsNumber.exponent_part s = Some e ->
  JsString.forallb number_input_char s = true.
Proof.
  unfold JsNumber.exponent_part. destruct s as [|c s]; [reflexivity|].
  destruct (Ascii.eqb c "e" || Ascii.eqb c "E") eqn:Hc; [|discriminate].
  assert (Hin : number_input_char c = true).
  { apply orb_true_iff in Hc as [H|H]; apply Ascii.eqb_eq in H; now subst. }
  assert (G : forall ds neg,
             match ds with
             | EmptyString => None
             | String _ _ =>
                 if JsString.forallb is_digit ds
                 then Some (if neg : bool then (- Z.of_N (parseInt ds))%Z
                            else Z.of_N (parseInt ds))
                 else None
             end = Some e ->
             JsString.forallb number_input_char ds = true).
  { intros ds neg. destruct ds as [|d ds]; [discriminate|].
    destruct (JsString.forallb is_digit (String d ds)) eqn:D; [|discriminate].
    intros _. now apply digits_input_chars. }
  intros H. apply forallb_cons_true; [exact Hin|].
  destruct s as [|d s'].
  - discriminate.
  - destruct (Ascii.eqb_spec d "-") as [->|Hm].
    + apply forallb_cons_true; [reflexivity|]. exact (G s' true H).
    + destruct (Ascii.eqb_spec d "+") as [->|Hp].
      * apply forallb_cons_true; [reflexivity|]. exact (G s' false H).
      * apply (G (String d s') false).
        destruct d as [[|] [|] [|] [|] [|] [|] [|] [|]];
          try exact H; congruence.
Qed.

Lemma unsigned_decimal_chars neg s :
  JsNumber.isNaN (JsNumber.unsigned_decimal neg s) = false ->
  JsString.forallb number_input_char s = true.
Proof.
  unfold JsNumber.unsigned_decimal.
  destruct (String.eqb_spec s "Infinity") as [->|_]; [reflexivity|].
  destruct (span is_digit s) as [ip r1] eqn:E1.
  apply span_spec in E1 as (-> & Hip & _).
  assert (G : forall fp r2,
             JsString.forallb is_digit fp = true ->
             JsNumber.isNaN
               (match (ip ++ fp)%string with
                | EmptyString => S754_nan
                | String a s0 =>
                    match JsNumber.exponent_part r2 with
                    | Some e =>
                        JsNumber.round_decimal neg (parseInt (String a s0))
                          (e - Z.of_nat (String.length fp))
                    | None => S754_nan
                    end
                end) = false ->
             JsString.forallb number_input_char r2 = true).
  { intros fp r2 _. destruct (ip ++ fp)%string; [discriminate|].
    destruct (JsNumber.exponent_part r2) as [e|] eqn:Ee; [|discriminate].
    intros _. eapply exponent_part_chars; eauto. }
  rewrite forallb_app, (digits_input_chars _ Hip). simpl andb.
  destruct r1 as [|c r1].
  - intros _. reflexivity.
  - destruct (Ascii.eqb_spec c ".") as [->|Hc].
    + destruct (span is_digit r1) as [fp r2] eqn:E2.
      apply span_spec in E2 as (-> & Hfp & _).
      intros H. apply forallb_cons_true; [reflexivity|].
      rewrite forallb_app, (digits_input_chars _ Hfp). simpl andb.
      exact (G fp r2 Hfp H).
    + intros H. apply (G EmptyString (String c r1) eq_refl).
      destruct c as [[|] [|] [|] [|] [|] [|] [|] [|]];
        try exact H; congruence.
Qed.

(** A text that [Number] converts to a number other than NaN is made,
    once trimmed, of the code units of numeric literals only. *)
Lemma Number_chars s :
  JsNumber.isNaN (JsNumber.Number s) = false ->
  JsString.forallb number_input_char (trim s) = true.
Proof.
  unfold JsNumber.Number. destruct (trim s) as [|c r]; [reflexivity|].
  destruct c as [[|] [|] [|] [|] [|] [|] [|] [|]];
    try apply (unsigned_decimal_chars false);
    try (intros H; apply forallb_cons_true; [reflexivity|];
         revert H; apply unsigned_decimal_chars).
  (* the first code unit is 0 *)
  destruct r as [|d r']; [reflexivity|].
  destruct d as [[|] [|] [|] [|] [|] [|] [|] [|]];
    try apply (unsigned_decimal_chars false);
    intros H; (apply forallb_cons_true; [reflexivity|]);
    (apply forallb_cons_true; [reflexivity|]);
    revert H; apply radix_literal_chars.
Qed.


(* ================================================================== *)
(** * Scalars between text and value *)
(* ================================================================== *)

(** Only a text made of the code units of numeric literals is read as a
    number. *)
Lemma parseToonValue_number s x :
  parseToonValue s = VNumber x ->
  x = JsNumber.Number s /\ JsNumber.isNaN x = false
  /\ JsString.forallb number_input_char (trim s) = true.
Proof.
  unfold parseToonValue.
  destruct (String.eqb s "null"); [discriminate|].
  destruct (String.eqb s "true"); [discriminate|].
  destruct (String.eqb s "false"); [discriminate|].
  destruct (String.eqb s EmptyString); [discriminate|].
  destruct (JsNumber.isNaN (JsNumber.Number s)) eqn:E; [discriminate|].
  destruct (String.eqb (trim s) EmptyString); [discriminate|].
  intros [= <-]. repeat split; [exact E | now apply Number_chars].
Qed.

(** X5: a text with a code unit that cannot occur in a numeric literal
    (and is not white space around the text) is read as a value whose
    text is the same: it is kept as a string, or it is one of [null],
    [true] and [false]. *)
Theorem X5_non_numeric_text_survives (s : string) (c : ascii) :
  includes c (trim s) = true -> number_input_char c = false ->
  formatToonValue (parseToonValue s) = s.
Proof.
  intros Hin Hc.
  destruct (parseToonValue s) as [|b|x|s'|items|props] eqn:E.
  - unfold parseToonValue in E.
    destruct (String.eqb_spec s "null") as [->|_]; [reflexivity|].
    repeat match type of E with
           | (if ?b then _ else _) = _ => destruct b; try discriminate
           end.
  - unfold parseToonValue in E.
    destruct (String.eqb s "null"); [discriminate|].
    destruct (String.eqb_spec s "true") as [->|_]; [now injection E as <-|].
    destruct (String.eqb_spec s "false") as [->|_]; [now injection E as <-|].
    repeat match type of E with
           | (if ?b then _ else _) = _ => destruct b; try discriminate
           end.
  - apply parseToonValue_number in E as (_ & _ & H).
    rewrite (forallb_excludes _ _ _ Hc H) in Hin. discriminate.
  - apply parseToonValue_string in E. now subst.
  - pose proof (parseToonValue_scalar s) as S. now rewrite E in S.
  - pose proof (parseToonValue_scalar s) as S. now rewrite E in S.
Qed.

Lemma X5_non_numeric_text_survives_witness :
  formatToonValue (parseToonValue "12 apples") = "12 apples".
Proof.
  apply (X5_non_numeric_text_survives "12 apples" "p"); reflexivity.
Defined.

(* ================================================================== *)
(** * Arrays that are not tabular *)
(* ================================================================== *)

Lemma jsonToToon_array first rest :
  jsonToToon (VArray (first :: rest))
  = match tabular_keys (first :: rest) with
    | Some keys =>
        tabular_header (first :: rest) keys ++ nl
        ++ join nl (tabular_rows (first :: rest) keys)
    | None => join nl (List.map jsonToToon (first :: rest))
    end.
Proof. reflexivity. Qed.

Lemma jsonToToon_object kv props :
  jsonToToon (VObject (kv :: props))
  = join nl
      (List.flat_map
         (fun kv => let '(key, value) := kv in member_lines jsonToToon key value)
         (kv :: props)).
Proof. reflexivity. Qed.

(** An array with an element that is not an object, or that has not as
    many keys as the first element, has no column keys. *)
Lemma tabular_keys_none items item :
  List.In item items ->
  is_plain_object item = false
  \/ List.length (keys_of item) <> List.length (keys_of (List.hd VNull items)) ->
  tabular_keys items = None.
Proof.
  intros Hin H. destruct items as [|first rest]; [contradiction|].
  unfold tabular_keys. destruct (is_plain_object first); [|reflexivity].
  cbv zeta.
  destruct (allSameStructure (keys_of first) (first :: rest)) eqn:E;
    [|reflexivity].
  exfalso. unfold allSameStructure in E.
  rewrite List.forallb_forall in E. specialize (E item Hin).
  apply andb_true_iff in E as [E _]. apply andb_true_iff in E as [E1 E2].
  apply Nat.eqb_eq in E2. simpl List.hd in H.
  destruct H as [H|H]; congruence.
Qed.

Lemma not_tabular_keys items : not_tabular items -> tabular_keys items = None.
Proof.
  intros [H|[H|(item & Hin & H)]].
  - destruct items as [|first rest]; [reflexivity|].
    simpl in H. unfold tabular_keys. now rewrite H.
  - destruct items as [|first rest]; [reflexivity|].
    simpl in H. unfold tabular_keys. rewrite H.
    destruct (is_plain_object first); [|reflexivity].
    cbn [List.length Nat.ltb Nat.leb]. now rewrite andb_false_r.
  - eapply tabular_keys_none; eauto.
Qed.

(** X7: a non-empty array that cannot take the tabular form (its first
    element is not an object or has no key, or one of its elements is
    not an object or has not as many keys as the first) is written
    element by element, one encoding after the other with a line feed
    between them and nothing that marks the array. *)
Theorem X7_mixed_array_written_element_by_element (items : list Value) :
  items <> [] -> not_tabular items ->
  jsonToToon (VArray items) = join nl (List.map jsonToToon items).
Proof.
  intros Hne H. pose proof (not_tabular_keys items H) as E.
  destruct items as [|first rest]; [congruence|].
  now rewrite jsonToToon_array, E.
Qed.

Lemma X7_mixed_array_written_element_by_element_witness :
  jsonToToon (VArray [VObject [("a", VNull)]; VObject [("a", VNull); ("b", VNull)]])
  = join nl (List.map jsonToToon
               [VObject [("a", VNull)]; VObject [("a", VNull); ("b", VNull)]]).
Proof.
  apply (X7_mixed_array_written_element_by_element
           [VObject [("a", VNull)]; VObject [("a", VNull); ("b", VNull)]]).
  - discriminate.
  - right. right. exists (VObject [("a", VNull); ("b", VNull)]). split.
    + right. left. reflexivity.
    + right. discriminate.
Defined.

Lemma jsonToToon_colon_free v :
  colon_free_scalar v -> includes ":" (jsonToToon v) = false.
Proof.
  destruct v as [|[|]|x|s|items|props]; simpl; intros H;
    try reflexivity; try contradiction.
  - now apply JsNumberFacts.toString_excludes.
  - exact H.
Qed.

(** X6: an array of scalars whose texts hold no colon is lost by a round
    trip: decoding its encoding gives the empty object. *)
Theorem X6_scalar_array_decodes_to_empty_object (items : list Value) :
  items <> [] -> List.Forall colon_free_scalar items ->
  toonToJson (jsonToToon (VArray items)) = Ok (VObject []).
Proof.
  intros Hne H. destruct items as [|first rest]; [congruence|].
  assert (E : tabular_keys (first :: rest) = None).
  { apply (tabular_keys_none _ first); [now left|]. left.
    inversion H as [|? ? H0 _]; subst. now destruct first. }
  rewrite jsonToToon_array, E.
  apply toonToJson_no_colon, includes_join; [reflexivity|].
  rewrite List.Forall_map. eapply List.Forall_impl; [|exact H].
  apply jsonToToon_colon_free.
Qed.

Lemma X6_scalar_array_decodes_to_empty_object_witness :
  toonToJson (jsonToToon (VArray [VString "developer"; VString "angular"]))
  = Ok (VObject []).
Proof.
  apply X6_scalar_array_decodes_to_empty_object.
  - discriminate.
  - repeat constructor.
Defined.

(** X8: a member that holds an array that cannot take the tabular form
    is written as the line of the string member that holds the text of
    the array: the encoding does not tell the two apart. *)
Theorem X8_array_member_written_as_its_text
        (pre post : list (string * Value)) (key : string) (items : list Value) :
  not_tabular items ->
  jsonToToon (VObject (pre ++ (key, VArray items) :: post))
  = jsonToToon (VObject (pre ++ (key, VString (js_String (VArray items))) :: post)).
Proof.
  intros H. pose proof (not_tabular_keys items H) as E.
  assert (M : member_lines jsonToToon key (VArray items)
              = member_lines jsonToToon key (VString (js_String (VArray items)))).
  { unfold member_lines. now rewrite E. }
  destruct pre as [|kv pre].
  - cbn [List.app]. rewrite !jsonToToon_object.
    cbn [List.flat_map]. now rewrite M.
  - cbn [List.app]. rewrite !jsonToToon_object.
    cbn [List.flat_map]. rewrite !List.flat_map_app.
    cbn [List.flat_map]. now rewrite M.
Qed.

Lemma X8_array_member_written_as_its_text_witness :
  jsonToToon (VObject [("city", VString "New York");
                       ("tags", VArray [VString "developer"; VString "angular"])])
  = jsonToToon (VObject [("city", VString "New York");
                         ("tags", VString "developer,angular")]).
Proof.
  apply (X8_array_member_written_as_its_text
           [("city", VString "New York")] [] "tags"
           [VString "developer"; VString "angular"]).
  left. reflexivity.
Defined.

(* ================================================================== *)
(** * Cells and columns *)
(* ================================================================== *)

Lemma split_app sep a b :
  split sep (a ++ String sep b) = (split sep a ++ split sep b)%list.
Proof.
  induction a as [|c a IH].
  - change (EmptyString ++ String sep b) with (String sep b).
    rewrite split_cons, Ascii.eqb_refl. reflexivity.
  - change (String c a ++ String sep b) with (String c (a ++ String sep b)).
    rewrite !split_cons, IH.
    destruct (Ascii.eqb c sep); [reflexivity|].
    pose proof (split_nonempty sep a) as N.
    destruct (split sep a) as [|h t]; [congruence | reflexivity].
Qed.

(** The item of a row depends on the cells under the columns only. *)
Lemma fill_item_ext keys :
  forall index values values' item,
    (forall j, (index <= j < index + List.length keys)%nat ->
               List.nth j values EmptyString = List.nth j values' EmptyString) ->
    fill_item keys index values item = fill_item keys index values' item.
Proof.
  induction keys as [|key keys IH]; intros index values values' item H;
    [reflexivity|].
  cbn [fill_item]. rewrite (H index) by (simpl; lia).
  apply IH. intros j Hj. apply H. simpl. lia.
Qed.

(** X9: the cells of a row beyond the columns of the header are
    ignored: a row that has a cell for every column gives the same item
    with further cells after it. *)
Theorem X9_cells_beyond_columns_ignored (keys : list string) (line extra : string) :
  (List.length keys <= List.length (split "," line))%nat ->
  row_item keys (line ++ "," ++ extra) = row_item keys line.
Proof.
  intros H. unfold row_item. f_equal. f_equal.
  apply fill_item_ext. intros j Hj.
  change (line ++ "," ++ extra) with (line ++ String "," extra).
  rewrite split_app, List.map_app.
  apply List.app_nth1. rewrite List.length_map. lia.
Qed.

Lemma X9_cells_beyond_columns_ignored_witness :
  row_item ["a"; "b"] ("1,2" ++ "," ++ "3,4") = row_item ["a"; "b"] "1,2".
Proof.
  apply (X9_cells_beyond_columns_ignored ["a"; "b"] "1,2" "3,4").
  simpl. lia.
Defined.

(* ================================================================== *)
(** * Objects of scalar members *)
(* ================================================================== *)




(** X12: an object of scalar members comes back from a round trip when
    its keys are distinct and in the order [Object.keys] lists them, each
    key and the text of each member can be read back from their line,
    and the scalar parse of the trimmed text of each member is the
    member itself. *)
Theorem X12_flat_object_round_trip (props : list (string * Value)) :
  keys_in_order (List.map fst props) ->
  List.Forall (fun kv => member_key (fst kv) /\ scalar_member (snd kv)
                         /\ parseToonValue (trim (formatToonValue (snd kv))) = snd kv)
              props ->
  toonToJson (jsonToToon (VObject props)) = Ok (VObject props).
Proof.
  intros Hord Hp.
  rewrite toonToJson_scalar_members.
  - f_equal. f_equal. rewrite <- (List.map_id props) at 2.
    apply List.map_ext_in. intros [key v] Hin.
    rewrite List.Forall_forall in Hp. destruct (Hp _ Hin) as (_ & _ & H).
    unfold member_read. simpl in *. now rewrite H.
  - exact Hord.
  - eapply List.Forall_impl; [|exact Hp]. now intros kv (H1 & H2 & _).
Qed.

Lemma X12_flat_object_round_trip_witness :
  toonToJson
    (jsonToToon (VObject [("name", VString "John Doe");
                          ("age", VNumber (JsNumber.of_Z 30));
                          ("active", VBool true); ("note", VNull)]))
  = Ok (VObject [("name", VString "John Doe");
                 ("age", VNumber (JsNumber.of_Z 30));
                 ("active", VBool true); ("note", VNull)]).
Proof.
  apply X12_flat_object_round_trip.
  - split.
    + repeat constructor; simpl; intuition discriminate.
    + repeat constructor; exact I.
  - repeat constructor; try discriminate; try exact I; reflexivity.
Defined.

(* ================================================================== *)
(** * A table under a key *)
(* ================================================================== *)










(* ================================================================== *)
(** * The handlers of the component *)
(* ================================================================== *)

Lemma startsWith_cons a p c r :
  startsWith (String a p) (String c r) = Ascii.eqb a c && startsWith p r.
Proof.
  unfold startsWith.
  change (String.prefix (String a p) (String c r))
    with (if ascii_dec a c then String.prefix p r else false).
  destruct (ascii_dec a c) as [->|N].
  - now rewrite Ascii.eqb_refl.
  - apply Ascii.eqb_neq in N. now rewrite N.
Qed.

Lemma startsWith_head_excluded a p s (q : ascii -> bool) :
  q a = false -> JsString.forallb q s = true ->
  startsWith (String a p) s = false.
Proof.
  intros Ha Hs. destruct s as [|c r]; [reflexivity|].
  rewrite startsWith_cons. simpl in Hs. apply andb_true_iff in Hs as [Hc _].
  destruct (Ascii.eqb_spec a c) as [->|]; [congruence | reflexivity].
Qed.

(** The text of [JSON.stringify] never starts with [Error:]. *)
Lemma stringify_not_error indent v :
  startsWith "Error:" (SerializeJSONProperty indent v) = false.
Proof.
  destruct v as [|[|]|x|s|items|props]; try reflexivity.
  - cbn [SerializeJSONProperty]. destruct (is_finite x); [|reflexivity].
    apply startsWith_head_excluded with (q := JsNumber.number_char);
      [reflexivity | apply JsNumberFacts.number_chars_toString].
  - destruct items; reflexivity.
  - destruct props; reflexivity.
Qed.

Lemma blank_not_error value :
  nonblank value = false -> startsWith "Error:" value = false.
Proof.
  rewrite nonblank_spec. intros H. apply negb_false_iff in H.
  now apply startsWith_head_excluded with (q := is_ws).
Qed.

(** X13: when the text typed in the TOON pane decodes, the JSON pane is
    set to [JSON.stringify] of the decoded value, whatever it is: the
    test that keeps a text starting with [Error:] out of the JSON pane
    never fails.  The model and the original JSON text are unchanged. *)
Theorem X13_onToonChange_sets_json (st : AppState) (value : string) (v : Value) :
  nonblank value = true -> toonToJson value = Ok v ->
  onToonChange value st
  = mk_AppState (JSON_stringify v) (originalJsonInput st) value
      (selectedModel st) (isDropdownOpen st).
Proof.
  intros Hnb Hv. unfold onToonChange. rewrite Hnb, Hv. cbv zeta.
  unfold JSON_stringify. now rewrite stringify_not_error.
Qed.

Lemma X13_onToonChange_sets_json_witness :
  onToonChange "a: 1" initial_state
  = mk_AppState (JSON_stringify (VObject [("a", VNumber (JsNumber.of_Z 1))]))
      EmptyString "a: 1" "openai" false.
Proof.
  apply (X13_onToonChange_sets_json initial_state "a: 1"); reflexivity.
Defined.

(** X14: after a change of the TOON pane the error flag only tells
    whether the typed text starts with [Error:].  When the text fails to
    decode, the JSON pane shows [Error: ] and the message, yet the flag
    is not raised (unless the text itself starts with [Error:]). *)
Theorem X14_decode_error_not_flagged
        (JSON_parse : string -> Value + string)
        (st : AppState) (value message : string) :
  hasError JSON_parse (onToonChange value st) = startsWith "Error:" value
  /\ (nonblank value = true -> toonToJson value = Err message ->
      jsonInput (onToonChange value st) = "Error: " ++ message
      /\ toonOutput JSON_parse (onToonChange value st) = value).
Proof.
  split.
  - unfold hasError, toonOutput, onToonChange.
    destruct (nonblank value) eqn:Hnb; cbn [negb].
    + destruct (toonToJson value); cbn [toonManualInput]; now rewrite Hnb.
    + cbn [toonManualInput jsonInput]. cbn.
      symmetry. now apply blank_not_error.
  - intros Hnb He. unfold toonOutput, onToonChange. rewrite Hnb, He.
    cbn [negb jsonInput toonManualInput]. now rewrite Hnb.
Qed.

Lemma X14_decode_error_not_flagged_witness :
  jsonInput (onToonChange "[1]{}:" initial_state)
  = "Error: Invalid array header format"
  /\ toonOutput (fun _ => inr "unused") (onToonChange "[1]{}:" initial_state)
     = "[1]{}:".
Proof.
  apply (proj2 (X14_decode_error_not_flagged (fun _ => inr "unused")
                  initial_state "[1]{}:" "Invalid array header format"));
    reflexivity.
Defined.

Lemma find_model_enabled model config :
  find_model model = Some config -> model_disabled config = false ->
  model = "openai".
Proof.
  unfold find_model, models. cbn [List.find model_value].
  destruct (String.eqb_spec "openai" model) as [<-|_]; [reflexivity|].
  repeat match goal with
         | |- context [String.eqb ?a model] => destruct (String.eqb a model)
         end;
    intros [= <-]; discriminate.
Qed.

Lemma handle_selectedModel st e :
  selectedModel st = "openai" -> selectedModel (handle st e) = "openai".
Proof.
  intros H. destruct e as [value|value|model|model|]; cbn [handle].
  - exact H.
  - unfold onToonChange. destruct (negb (nonblank value)); [exact H|].
    destruct (toonToJson value); exact H.
  - unfold onModelChange.
    destruct (find_model model) as [config|] eqn:E; [|exact H].
    destruct (model_disabled config) eqn:D; [exact H|].
    cbn. eapply find_model_enabled; eauto.
  - unfold selectModel.
    destruct (find_model model) as [config|] eqn:E; [|exact H].
    destruct (model_disabled config) eqn:D; [exact H|].
    cbn. eapply find_model_enabled; eauto.
  - exact H.
Qed.

(** X15: whatever the handlers are called with, in whatever order, the
    selected model stays [openai], the only entry of the list of models
    that is not disabled, and its label is the one displayed. *)
Theorem X15_selected_model_stays_openai (events : list Event) :
  selectedModel (List.fold_left handle events initial_state) = "openai"
  /\ getSelectedModelLabel (List.fold_left handle events initial_state)
     = "OpenAI ChatGPT".
Proof.
  assert (G : forall st, selectedModel st = "openai" ->
                         selectedModel (List.fold_left handle events st) = "openai").
  { induction events as [|e events IH]; intros st H; [exact H|].
    cbn [List.fold_left]. apply IH. now apply handle_selectedModel. }
  specialize (G initial_state eq_refl). split; [exact G|].
  unfold getSelectedModelLabel. now rewrite G.
Qed.

(* ================================================================== *)
(** * The key of the cache of token counts *)
(* ================================================================== *)

Lemma append_inj_l a x y : a ++ x = a ++ y -> x = y.
Proof.
  induction a as [|c a IH]; [trivial|].
  simpl. intros [= H]. now apply IH.
Qed.

Lemma key_tail_inj s s' d d' :
  includes ":" d = false -> includes ":" d' = false ->
  s ++ ":" ++ d = s' ++ ":" ++ d' -> s = s' /\ d = d'.
Proof.
  intros Hd Hd'. revert s'.
  induction s as [|c s IH]; intros [|c' s'] H.
  - now injection H.
  - exfalso. injection H as _ H. rewrite H, !includes_app in Hd.
    simpl in Hd. now rewrite orb_true_r in Hd.
  - exfalso. injection H as _ H. rewrite <- H, !includes_app in Hd'.
    simpl in Hd'. now rewrite orb_true_r in Hd'.
  - injection H as -> H. destruct (IH _ H) as [-> ->]. now split.
Qed.

Lemma of_N_inj a b : of_N a = of_N b -> a = b.
Proof.
  intros H. now rewrite <- (parseInt_of_N a), <- (parseInt_of_N b), H.
Qed.

Lemma of_N_no_colon n : includes ":" (of_N n) = false.
Proof.
  apply (forallb_excludes is_digit); [reflexivity | apply JsNumberFacts.digits_of_N].
Qed.

(** X16: two texts share a key of the cache for a model exactly when
    they have the same length and the same first hundred code units;
    the keys of different models differ.  So the count cached for a text
    is reused for every text of the same length that differs from it
    only after its first hundred code units. *)
Theorem X16_cache_key_collisions (text text' model model' : string) :
  TokenizerModel model -> TokenizerModel model' ->
  getCacheKey text model = getCacheKey text' model'
  <-> model = model'
      /\ substring_to 100 text = substring_to 100 text'
      /\ String.length text = String.length text'.
Proof.
  intros Hm Hm'. split.
  - unfold getCacheKey. intros H.
    assert (M : model = model'
                /\ substring_to 100 text ++ ":" ++ of_N (N.of_nat (String.length text))
                   = substring_to 100 text' ++ ":" ++ of_N (N.of_nat (String.length text'))).
    { unfold TokenizerModel in Hm, Hm'. cbn [List.In] in Hm, Hm'.
      destruct Hm as [<-|[<-|[<-|[<-|[<-|[]]]]]];
        destruct Hm' as [<-|[<-|[<-|[<-|[<-|[]]]]]];
        try discriminate H; (split; [reflexivity|]).
      - now apply (append_inj_l "openai:").
      - now apply (append_inj_l "anthropic:").
      - now apply (append_inj_l "google:").
      - now apply (append_inj_l "xai:").
      - now apply (append_inj_l "llama:"). }
    destruct M as [-> M]. split; [reflexivity|].
    apply key_tail_inj in M as [M1 M2]; try apply of_N_no_colon.
    split; [exact M1|]. apply of_N_inj in M2. lia.
  - intros (-> & H1 & H2). unfold getCacheKey. now rewrite H1, H2.
Qed.

Lemma X16_cache_key_collisions_witness :
  getCacheKey
    ("0123456789012345678901234567890123456789012345678901234567890123456789012345678901234567890123456789"
     ++ "first") "openai"
  = getCacheKey
      ("0123456789012345678901234567890123456789012345678901234567890123456789012345678901234567890123456789"
       ++ "other") "openai".
Proof.
  apply (proj2 (X16_cache_key_collisions _ _ "openai" "openai"
                  (or_introl eq_refl) (or_introl eq_refl))).
  repeat split; reflexivity.
Defined.


(* ================================================================== *)
(** * The branches of the object loop at a key line *)
(* ================================================================== *)

(** X17: the branch of [parseToonObject] that reads an indented block
    as a nested object is never taken: a turn of the loop does not
    depend on the recursive call, and at a key line that is followed by
    a line which is not a table header, the next line, however it is
    indented, is read as the scalar value of the key. *)
Theorem X17_nested_branch_never_taken
        (nested nested' : list string -> Result jsobj)
        (result : jsobj) (l : string) (rest : list string) :
  loop_body nested result l rest = loop_body nested' result l rest
  /\ forall next rest',
      rest = next :: rest' ->
      trim l <> EmptyString -> endsWith ":" (trim l) = true ->
      header_shape (trim next) = false ->
      loop_body nested result l rest
      = Ok (assign (trim (slice_0_m1 (trim l))) (parseToonValue (trim next)) result,
            rest').
Proof.
  split; [apply loop_body_nested|].
  intros next rest' -> Hne He Hh. unfold loop_body. cbv zeta.
  apply String.eqb_neq in Hne. rewrite Hne, He, Hh.
  now rewrite startsWith_indent_trim.
Qed.

Lemma X17_nested_branch_never_taken_witness :
  loop_body (fun _ => Err "not called") JsObject.empty "addr:"
    ["    city: x"; "    zip: 1"]
  = Ok (assign "addr" (VString "city: x") JsObject.empty, ["    zip: 1"]).
Proof.
  apply (proj2 (X17_nested_branch_never_taken
                  (fun _ => Err "not called") (fun _ => Err "not called")
                  JsObject.empty "addr:" ["    city: x"; "    zip: 1"])
           "    city: x" ["    zip: 1"]); try reflexivity.
  discriminate.
Defined.





(* ================================================================== *)
(** * The order of the keys of the decoded objects *)
(* ================================================================== *)

Lemma digits_uint s :
  JsString.forallb is_digit s = true ->
  exists d, NilEmpty.uint_of_string s = Some d.
Proof.
  induction s as [|c s IH]; [now exists Decimal.Nil|].
  simpl. intros H. apply andb_true_iff in H as [Hc Hs].
  destruct (IH Hs) as [d ->].
  destruct c as [[|] [|] [|] [|] [|] [|] [|] [|]]; try discriminate Hc;
    simpl; eauto.
Qed.

(** An array index is the decimal text of its number. *)
Lemma array_index_canonical k n : array_index k = Some n -> of_N n = k.
Proof.
  unfold array_index. destruct k as [|c r]; [discriminate|].
  destruct (JsString.forallb is_digit (String c r)) eqn:Hd; [|discriminate].
  cbn [andb].
  destruct (negb (Ascii.eqb c "0") || String.eqb r EmptyString) eqn:Hz;
    [|discriminate].
  destruct (parseInt (String c r) <? 4294967295)%N; [|discriminate].
  intros [= <-].
  destruct (digits_uint _ Hd) as [d Hu].
  unfold parseInt, of_N. rewrite Hu, DecimalN.Unsigned.to_of.
  pose proof (NilEmpty.sus _ _ Hu) as Hs.
  assert (Hn : Decimal.unorm d = d).
  { apply orb_true_iff in Hz as [Hz|Hz].
    - apply negb_true_iff, Ascii.eqb_neq in Hz.
      destruct d; simpl in Hs; try reflexivity; try discriminate Hs.
      injection Hs as Hs _. congruence.
    - apply String.eqb_eq in Hz. subst r.
      destruct d as [|d|d|d|d|d|d|d|d|d|d]; simpl in Hs; try discriminate Hs;
        injection Hs as _ Hs; destruct d; try discriminate Hs; reflexivity. }
  now rewrite Hn.
Qed.

Lemma array_index_inj a b n :
  array_index a = Some n -> array_index b = Some n -> a = b.
Proof.
  intros Ha Hb. apply array_index_canonical in Ha, Hb. congruence.
Qed.

Lemma key_before_nonindex k key : array_index key = None -> key_before k key.
Proof.
  intros H. unfold key_before. rewrite H. now destruct (array_index k).
Qed.

Section KeyOrder.
Context {V : Type}.
Implicit Types (props : list (string * V)).

Lemma map_fst_update key (v : V) props :
  List.map fst (update key v props) = List.map fst props.
Proof.
  induction props as [|[k w] r IH]; [reflexivity|].
  simpl. destruct (String.eqb k key); simpl; [reflexivity | now rewrite IH].
Qed.

Lemma In_insert_index x n key (v : V) props :
  List.In x (List.map fst (insert_index n key v props))
  <-> x = key \/ List.In x (List.map fst props).
Proof.
  induction props as [|[k w] r IH]; simpl.
  - intuition.
  - destruct (array_index k) as [n'|].
    + destruct (n <? n')%N; simpl; [intuition|].
      rewrite IH. intuition.
    + simpl. intuition.
Qed.

Lemma NoDup_insert_index n key (v : V) props :
  ~ List.In key (List.map fst props) ->
  List.NoDup (List.map fst props) ->
  List.NoDup (List.map fst (insert_index n key v props)).
Proof.
  induction props as [|[k w] r IH]; simpl; intros Hn Hd.
  - constructor; [intros [] | constructor].
  - assert (G : List.NoDup (key :: k :: List.map fst r)).
    { constructor; [exact Hn | exact Hd]. }
    destruct (array_index k) as [n'|]; [|exact G].
    destruct (n <? n')%N; [exact G|].
    simpl. inversion Hd as [|? ? Hk Hr]; subst. constructor.
    + rewrite In_insert_index. intros [->|H]; [|contradiction].
      apply Hn. now left.
    + apply IH; [|exact Hr]. intros H. apply Hn. now right.
Qed.

Lemma sorted_insert_index n key (v : V) props :
  array_index key = Some n ->
  ~ List.In key (List.map fst props) ->
  Sorted.StronglySorted key_before (List.map fst props) ->
  Sorted.StronglySorted key_before (List.map fst (insert_index n key v props)).
Proof.
  intros Hkey. induction props as [|[k w] r IH]; simpl; intros Hn Hs.
  - repeat constructor.
  - inversion Hs as [|? ? Hr Hall]; subst.
    destruct (array_index k) as [n'|] eqn:Ek.
    + destruct (n <? n')%N eqn:E.
      * apply N.ltb_lt in E. simpl. constructor; [exact Hs|].
        constructor.
        { unfold key_before. now rewrite Hkey, Ek. }
        eapply List.Forall_impl; [|exact Hall].
        intros x. unfold key_before. rewrite Hkey, Ek.
        destruct (array_index x); [lia | trivial].
      * apply N.ltb_ge in E. simpl. constructor.
        { apply IH; [|exact Hr]. intros H. apply Hn. now right. }
        apply List.Forall_forall. intros x Hx.
        apply In_insert_index in Hx as [->|Hx].
        { unfold key_before. rewrite Ek, Hkey.
          assert (n' <> n).
          { intros ->. apply Hn. left. eapply array_index_inj; eauto. }
          lia. }
        rewrite List.Forall_forall in Hall. now apply Hall.
    + simpl. constructor; [exact Hs|]. constructor.
      { unfold key_before. now rewrite Hkey, Ek. }
      eapply List.Forall_impl; [|exact Hall].
      intros x. unfold key_before. rewrite Hkey, Ek.
      now destruct (array_index x).
Qed.

Lemma sorted_append key (keys : list string) :
  array_index key = None ->
  Sorted.StronglySorted key_before keys ->
  Sorted.StronglySorted key_before (keys ++ [key]).
Proof.
  intros Hkey. induction 1 as [|k keys Hs IH Hall]; simpl.
  - repeat constructor.
  - constructor; [exact IH|].
    apply List.Forall_app. split; [exact Hall|].
    constructor; [now apply key_before_nonindex | constructor].
Qed.

(** Writing a property keeps the keys distinct and in the order of
    [Object.keys]. *)
Lemma define_own_keys_in_order key (v : V) props :
  keys_in_order (List.map fst props) ->
  keys_in_order (List.map fst (define_own key v props)).
Proof.
  intros [Hd Hs]. unfold define_own.
  destruct (has_own key props) eqn:H.
  - rewrite map_fst_update. now split.
  - assert (Hn : ~ List.In key (List.map fst props)).
    { intros Hin. apply has_own_In in Hin. congruence. }
    destruct (array_index key) as [n|] eqn:E.
    + split; [now apply NoDup_insert_index | now apply sorted_insert_index].
    + rewrite List.map_app. simpl. split.
      * apply List.NoDup_app; [exact Hd | repeat constructor; intros [] |].
        intros x Hx [<-|[]]. contradiction.
      * now apply sorted_append.
Qed.
End KeyOrder.

Lemma assign_keys_in_order key v o :
  keys_in_order (List.map fst (own o)) ->
  keys_in_order (List.map fst (own (assign key v o))).
Proof.
  intros H. unfold assign.
  destruct (String.eqb key "__proto__" && proto_accessor o); simpl;
    [exact H | now apply define_own_keys_in_order].
Qed.

Lemma fill_item_keys_in_order keys :
  forall index values item,
    keys_in_order (List.map fst (own item)) ->
    keys_in_order (List.map fst (own (fill_item keys index values item))).
Proof.
  induction keys as [|key keys IH]; intros index values item H; [exact H|].
  simpl. apply IH. now apply assign_keys_in_order.
Qed.

Lemma row_item_ordered keys line : ordered_keys (row_item keys line).
Proof.
  unfold row_item. simpl. apply fill_item_keys_in_order.
  split; constructor.
Qed.

Lemma parseToonArray_ordered lines v :
  parseToonArray lines = Ok v -> ordered_rows v.
Proof.
  unfold parseToonArray. destruct lines as [|l0 rest].
  - intros [= <-]. constructor.
  - destruct (header_match (trim l0)) as [[digits cols]|]; [|discriminate].
    intros [= <-]. rewrite rows_loop_firstn. simpl.
    rewrite List.Forall_map. apply List.Forall_forall.
    intros l _. apply row_item_ordered.
Qed.

(** What every assignment of the loop keeps is kept by the loop. *)
Lemma run_invariant (I : jsobj -> Prop) (P : Value -> Prop) :
  (forall key v o, P v -> I o -> I (assign key v o)) ->
  P VNull -> (forall s, P (parseToonValue s)) ->
  (forall lines arr, parseToonArray lines = Ok arr -> P arr) ->
  forall n result lines result',
    (List.length lines <= n)%nat ->
    run result lines = Ok result' -> I result -> I result'.
Proof.
  intros Hassign Hnull Hval Harr.
  assert (B : forall result l rest result' lines',
             loop_body (run JsObject.empty) result l rest = Ok (result', lines') ->
             I result -> I result').
  { intros result l rest result' lines'. unfold loop_body. intros H Hr.
    destruct (String.eqb (trim l) EmptyString).
    { now inversion H; subst. }
    destruct (endsWith ":" (trim l)).
    - destruct rest as [|next rest'].
      { inversion H; subst. now apply Hassign. }
      destruct (header_shape (trim next)).
      + destruct (span_lines _ rest') as [rows after].
        destruct (parseToonArray (trim next :: rows)) as [arr| |] eqn:E;
          simpl in H; try discriminate.
        inversion H; subst. apply Hassign; [|exact Hr]. eapply Harr; eauto.
      + rewrite startsWith_indent_trim in H. inversion H; subst.
        now apply Hassign.
    - destruct (0 <? indexOf ":" (trim l))%Z; inversion H; subst; [|exact Hr].
      now apply Hassign. }
  induction n as [|n IH]; intros result lines result' Hn.
  - destruct lines; [now intros [= <-] | simpl in Hn; lia].
  - destruct lines as [|l rest]; [now intros [= <-]|].
    rewrite (run_cons (run JsObject.empty)).
    destruct (loop_body (run JsObject.empty) result l rest)
      as [[r1 ls1]| |] eqn:E; simpl; try discriminate.
    intros H Hr. apply (IH r1 ls1 result'); [|exact H|].
    + apply loop_body_length in E. simpl in Hn. lia.
    + eapply B; eauto.
Qed.

(** X19: the keys of every object the decoder returns, and of every
    row of its tables, are distinct and stand in the order of
    [Object.keys]: the keys that are array indices first, in ascending
    order, then the other keys.  So the decoder may list keys in another
    order than the lines of the text. *)
Theorem X19_decoded_keys_in_order (t : string) (v : Value) :
  toonToJson t = Ok v -> decoded_order v.
Proof.
  rewrite toonToJson_decode_lines. unfold decode_lines.
  destruct (toon_lines t) as [|l0 rest].
  { intros [= <-]. repeat constructor. }
  cbv zeta.
  destruct (String.eqb (trim l0) "[]:"); [intros [= <-]; constructor|].
  destruct (String.eqb (trim l0) "{}:"); [intros [= <-]; repeat constructor|].
  destruct (header_shape (trim l0)).
  - intros H. pose proof (parseToonArray_ordered _ _ H) as T.
    pose proof (parseToonArray_table _ _ H) as T'.
    destruct v; try contradiction. exact T.
  - rewrite parseToonObject_run.
    destruct (run JsObject.empty (l0 :: rest)) as [r| |] eqn:E; simpl;
      try discriminate.
    intros [= <-].
    apply (run_invariant
             (fun o => keys_in_order (List.map fst (own o))
                       /\ List.Forall (fun kv => ordered_rows (snd kv)) (own o))
             ordered_rows) with (n := List.length (l0 :: rest))
                                (result := JsObject.empty) (lines := l0 :: rest).
    + intros key v o Hv [H1 H2]. split.
      * now apply assign_keys_in_order.
      * now apply (Forall_assign ordered_rows).
    + exact I.
    + intros s. pose proof (parseToonValue_scalar s) as S.
      destruct (parseToonValue s); try exact I; contradiction.
    + apply parseToonArray_ordered.
    + apply le_n.
    + exact E.
    + repeat constructor.
Qed.

Lemma X19_decoded_keys_in_order_witness :
  decoded_order
    (VObject [("1", VString "y"); ("2", VString "x");
              ("b", VNumber (JsNumber.of_Z 3))]).
Proof.
  apply (X19_decoded_keys_in_order (join nl ["b: 1"; "2: x"; "1: y"; "b: 3"])).
  reflexivity.
Defined.

(* ================================================================== *)
(** * The word counts of the first version *)
(* ================================================================== *)

Lemma split_ws_from_count s :
  (exists h t, split_ws_from false s = h :: t
               /\ List.length (List.filter (fun w => (0 <? String.length w)%nat) t)
                  = word_starts false s)
  /\ List.length (List.filter (fun w => (0 <? String.length w)%nat)
                    (split_ws_from true s))
     = word_starts true s.
Proof.
  induction s as [|c s [(h & t & E & Ht) IH2]].
  - split; [now exists EmptyString, []|reflexivity].
  - cbn [split_ws_from word_starts]. destruct (is_ws c).
    + split; [|exact IH2]. now exists EmptyString, (split_ws_from true s).
    + rewrite E. split.
      * exists (String c h), t. now split.
      * change (List.filter (fun w => (0 <? String.length w)%nat) (String c h :: t))
          with (String c h :: List.filter (fun w => (0 <? String.length w)%nat) t).
        cbn [List.length]. now rewrite Ht.
Qed.

Lemma word_starts_blank b s :
  JsString.forallb is_ws s = true -> word_starts b s = 0%nat.
Proof.
  revert b. induction s as [|c s IH]; intros b; [reflexivity|].
  simpl. intros H. apply andb_true_iff in H as [-> Hs]. now apply IH.
Qed.

Lemma word_starts_trimStart s : word_starts true (trimStart s) = word_starts true s.
Proof.
  induction s as [|c s IH]; [reflexivity|].
  simpl. destruct (is_ws c) eqn:E; [exact IH|].
  simpl. now rewrite E.
Qed.

Lemma word_starts_trimEnd b s : word_starts b (trimEnd s) = word_starts b s.
Proof.
  revert b. induction s as [|c s IH]; intros b; [reflexivity|].
  rewrite trimEnd_cons.
  destruct (is_ws c && JsString.forallb is_ws s) eqn:E.
  - apply andb_true_iff in E as [Ec Es].
    simpl. rewrite Ec. now rewrite word_starts_blank.
  - simpl. destruct (is_ws c); now rewrite IH.
Qed.

Lemma word_count_starts text : word_count text = word_starts true text.
Proof.
  unfold word_count, split_ws.
  destruct (trim text) as [|c r] eqn:E.
  - rewrite (word_starts_blank true text); [reflexivity|].
    now apply trim_empty_inv.
  - pose proof (trim_fixed_head c r) as Hc.
    rewrite <- E, trim_idem in Hc. specialize (Hc eq_refl).
    destruct (split_ws_from_count (String c r)) as [_ H].
    cbn [split_ws_from] in *. rewrite Hc in *.
    rewrite H. rewrite <- E. unfold trim.
    now rewrite word_starts_trimEnd, word_starts_trimStart.
Qed.

Lemma inputTokens_starts input :
  inputTokens input = word_starts true input.
Proof.
  unfold inputTokens. rewrite nonblank_spec, negb_involutive.
  destruct (JsString.forallb is_ws input) eqn:E.
  - now rewrite word_starts_blank.
  - apply word_count_starts.
Qed.

Lemma word_starts_app a w b :
  is_ws w = true ->
  forall p, word_starts p (a ++ String w b)
            = (word_starts p a + word_starts true b)%nat.
Proof.
  intros Hw. induction a as [|c a IH]; intros p.
  - simpl. now rewrite Hw.
  - change (String c a ++ String w b) with (String c (a ++ String w b)).
    cbn [word_starts]. destruct (is_ws c); rewrite IH; lia.
Qed.

(** X20: the word counts of the first version count the code units
    that start a word, whatever white space stands between or around
    the words; so the count of two texts joined by white space is the
    sum of their counts.  The count of the output is the same count,
    but 0 for an output that starts with [Error:]. *)
Theorem X20_word_count_additive (a b : string) (w : ascii) :
  is_ws w = true ->
  inputTokens (a ++ String w b)
  = (inputTokens a + inputTokens b)%nat
  /\ inputTokens a = word_starts true a
  /\ outputTokens a
     = if startsWith "Error:" a then 0%nat else inputTokens a.
Proof.
  intros Hw. rewrite !inputTokens_starts.
  split; [now apply word_starts_app|]. split; [reflexivity|].
  unfold outputTokens. rewrite nonblank_spec, negb_involutive.
  destruct (JsString.forallb is_ws a) eqn:E; cbn [orb].
  - rewrite word_starts_blank by exact E. now destruct (startsWith "Error:" a).
  - destruct (startsWith "Error:" a); [reflexivity|]. apply word_count_starts.
Qed.

Lemma X20_word_count_additive_witness :
  inputTokens ("  {  a :" ++ String "010" "  1 }  ") = (3 + 2)%nat.
Proof.
  apply (proj1 (X20_word_count_additive "  {  a :" "  1 }  " "010" eq_refl)).
Defined.

(* ================================================================== *)
(** * The error flag of the output *)
(* ================================================================== *)

(** X21: a JSON text that parses to a string starting with [Error:] is
    taken for a failure: after [onJsonChange] the output is that string,
    the error flag is raised and the output counts as empty, although
    [JSON.parse] did not throw. *)
Theorem X21_string_taken_for_error
        (JSON_parse : string -> Value + string)
        (st : AppState) (value s : string) :
  nonblank value = true ->
  JSON_parse value = inl (VString s) ->
  startsWith "Error:" s = true ->
  toonOutput JSON_parse (onJsonChange value st) = s
  /\ hasError JSON_parse (onJsonChange value st) = true
  /\ isOutputEmpty JSON_parse (onJsonChange value st) = true.
Proof.
  intros Hnb Hp Hs.
  assert (E : toonOutput JSON_parse (onJsonChange value st) = s).
  { unfold toonOutput, onJsonChange. cbn [toonManualInput jsonInput].
    change (nonblank EmptyString) with false. cbv iota.
    now rewrite Hnb, Hp. }
  unfold hasError, isOutputEmpty. rewrite E, Hs.
  repeat split. apply orb_true_r.
Qed.

Lemma X21_string_taken_for_error_witness :
  hasError (fun _ => inl (VString "Error: none")) 
    (onJsonChange (dquote ++ "Error: none" ++ dquote) initial_state) = true.
Proof.
  apply (X21_string_taken_for_error (fun _ => inl (VString "Error: none"))
           initial_state (dquote ++ "Error: none" ++ dquote) "Error: none");
    reflexivity.
Defined.


(* ================================================================== *)
(** * Round trip of a nested object *)
(* ================================================================== *)







